(** * Retrieval pipeline of the document intelligence platform

    A shallow embedding of
      - [documents/vector_store.py]  (class [VectorStore]),
      - [documents/processing.py]    (class [DocumentProcessor]),
      - [documents/llm_service.py]   (class [LLMService]),
      - [documents/views.py]         ([upload_document], [_process_document]),
    together with the properties of the retrieval pipeline that the
    specification states about them.

    Conventions.  Python [int] is [Z]; [str] is [string]; a Python [dict]
    is an insertion-ordered association list (iteration order is observable
    in [search_similar_chunks]); a raised exception is the [Raise] case of
    [result].  External collaborators (the embedding client, the chat
    client, the tokenizer, the disk, the record store) are oracles whose
    answers are arbitrary; floating-point arithmetic is an interface. *)

From Stdlib Require Import String Ascii ZArith Lia Bool Arith List.
From Stdlib Require Import Sorted Permutation DecimalString DecimalZ DecimalPos.
Import ListNotations.
Local Open Scope string_scope.
Local Open Scope list_scope.

Set Implicit Arguments.

(* ================================================================== *)
(** * Python preliminaries *)
(* ================================================================== *)

(** An exception object: its class name and [str(e)]. *)
Record exn : Type := Exception { exn_type : string; exn_msg : string }.

(** Outcome of a call that may raise. *)
Inductive result (A : Type) : Type :=
| Ok (a : A)
| Raise (e : exn).
Arguments Ok {A} a.
Arguments Raise {A} e.

Definition is_ok {A} (r : result A) : bool :=
  match r with Ok _ => true | Raise _ => false end.

(** [str(n)] for an [int]. *)
Definition str_int (z : Z) : string := NilZero.string_of_int (Z.to_int z).

(** [l[:n]] for a Python [int] [n] (a negative bound counts from the end). *)
Definition slice_to {A} (l : list A) (n : Z) : list A :=
  if (0 <=? n)%Z then firstn (Z.to_nat n) l
  else firstn (length l - Z.to_nat (- n)) l.

(** [l[n:]] for a Python [int] [n]. *)
Definition slice_from {A} (l : list A) (n : Z) : list A :=
  if (0 <=? n)%Z then skipn (Z.to_nat n) l
  else skipn (length l - Z.to_nat (- n)) l.

(** ** Keys with decidable equality *)

Class Key (K : Type) : Type := {
  key_eqb : K -> K -> bool;
  key_eqb_spec : forall a b, reflect (a = b) (key_eqb a b)
}.

#[export] Instance string_Key : Key string :=
  {| key_eqb := String.eqb; key_eqb_spec := String.eqb_spec |}.

#[export] Instance Z_Key : Key Z :=
  {| key_eqb := Z.eqb; key_eqb_spec := Z.eqb_spec |}.

(** ** Insertion-ordered dictionaries *)

Section Dict.
Context {K V : Type} `{Key K}.

Definition dict : Type := list (K * V).

(** [d.get(k)] *)
Fixpoint dict_get (k : K) (d : dict) : option V :=
  match d with
  | [] => None
  | (k', v) :: r => if key_eqb k k' then Some v else dict_get k r
  end.

(** [d[k] = v]: an existing key keeps its position, a new key goes last. *)
Fixpoint dict_set (k : K) (v : V) (d : dict) : dict :=
  match d with
  | [] => [(k, v)]
  | (k', v') :: r =>
      if key_eqb k k' then (k', v) :: r else (k', v') :: dict_set k v r
  end.

(** [del d[k]]: [None] stands for [KeyError]. *)
Fixpoint dict_del (k : K) (d : dict) : option dict :=
  match d with
  | [] => None
  | (k', v') :: r =>
      if key_eqb k k' then Some r
      else match dict_del k r with
           | Some r' => Some ((k', v') :: r')
           | None => None
           end
  end.

Definition dict_keys (d : dict) : list K := map fst d.
Definition dict_values (d : dict) : list V := map snd d.
Definition dict_len (d : dict) : nat := length d.

(** A dictionary holds each key once. *)
Definition dict_wf (d : dict) : Prop := NoDup (dict_keys d).
End Dict.
Arguments dict : clear implicits.

(** ** Floating-point numbers

    The arithmetic that [_cosine_similarity] uses, as an interface: the
    claims below are about ranking and bookkeeping, never about rounding. *)
Class FloatOps : Type := {
  float : Type;
  fzero : float;                          (* 0 and 0.0 *)
  fsum : list float -> float;             (* builtin sum(...) *)
  fmul : float -> float -> float;         (* a * b *)
  fdiv : float -> float -> option float;  (* a / b, None: ZeroDivisionError *)
  fsqrt : float -> float;                 (* math.sqrt on a sum of squares *)
  feqb : float -> float -> bool;          (* a == b *)
  fltb : float -> float -> bool;          (* a < b *)
  fround : Z -> float -> float            (* round(a, ndigits) *)
}.

(** The comparison [<] is a strict weak order (true of floats without NaN):
    what [list.sort] needs for its result to be sorted. *)
Class FloatOrder (F : FloatOps) : Prop := {
  fltb_asym : forall a b, fltb a b = true -> fltb b a = false;
  fltb_negtrans : forall a b c,
      fltb a b = false -> fltb b c = false -> fltb a c = false
}.

(** Integer-valued scores.  On vectors over 0 and 1 with one non-zero
    coordinate every operation below agrees with binary64 arithmetic. *)
Definition IntFloat : FloatOps := {|
  float := Z;
  fzero := 0%Z;
  fsum := fun l => fold_left Z.add l 0%Z;
  fmul := Z.mul;
  fdiv := fun a b => if (b =? 0)%Z then None else Some (a / b)%Z;
  fsqrt := Z.sqrt;
  feqb := Z.eqb;
  fltb := Z.ltb;
  fround := fun _ a => a
|}.

(* ================================================================== *)
(** * documents/vector_store.py *)
(* ================================================================== *)

(** A chunk dictionary as [DocumentProcessor._create_chunk] builds it and
    [add_chunks] reads it: ['text'], ['document_id'] and ['chunk_index'] are
    read with [chunk[...]], ['page_numbers'] and ['token_count'] with
    [chunk.get(..., default)], so those two may be absent. *)
Record Chunk : Type := {
  c_text : string;
  c_chunk_index : Z;
  c_page_numbers : option (list Z);
  c_token_count : option Z;
  c_document_id : Z
}.

Section VectorStore.
Context {F : FloatOps}.

Definition vector : Type := list float.

(** One value of [embeddings_data]. *)
Record EmbeddingRecord : Type := {
  r_embedding : vector;
  r_text : string;
  r_document_id : Z;
  r_chunk_index : Z;
  r_page_numbers : list Z;
  r_token_count : Z
}.

Definition Store : Type := dict string EmbeddingRecord.

(** Interactions of the store with the outside world, oldest first. *)
Inductive Event : Type :=
| EmbedRequest (input : list string)   (* client.embeddings.create *)
| FileWrite (data : Store).            (* open(storage_path, 'w') *)

(** What happens to [embeddings_data.json] on a write. *)
Inductive WriteOutcome : Type :=
| Written          (* json.dump completed *)
| OpenFailed       (* open raised: file untouched *)
| DumpFailed.      (* json.dump raised: file truncated *)

Inductive FileState : Type :=
| FileAbsent
| FileHolds (data : Store)
| FileDamaged.

(** The collaborators: their answer may depend on everything that
    happened before. *)
Record Env : Type := {
  embeddings_create : list Event -> list string -> result (list vector);
  file_write : list Event -> Store -> WriteOutcome
}.

(** The [VectorStore] object and the world it acts on. *)
Record VectorStore : Type := {
  embeddings_data : Store;
  storage_file : FileState;
  events : list Event
}.

Definition embedding_model : string := "text-embedding-ada-002".

Definition with_data (d : Store) (vs : VectorStore) : VectorStore :=
  {| embeddings_data := d;
     storage_file := storage_file vs;
     events := events vs |}.

Definition log (e : Event) (vs : VectorStore) : VectorStore :=
  {| embeddings_data := embeddings_data vs;
     storage_file := storage_file vs;
     events := events vs ++ [e] |}.

Variable env : Env.

(** [_save_embeddings]: exceptions are logged and swallowed. *)
Definition _save_embeddings (vs : VectorStore) : VectorStore :=
  let d := embeddings_data vs in
  {| embeddings_data := d;
     storage_file :=
       match file_write env (events vs) d with
       | Written => FileHolds d
       | OpenFailed => storage_file vs
       | DumpFailed => FileDamaged
       end;
     events := events vs ++ [FileWrite d] |}.

(** [f"doc_{chunk['document_id']}_chunk_{chunk['chunk_index']}"] *)
Definition chunk_id_of (document_id chunk_index : Z) : string :=
  "doc_" ++ str_int document_id ++ "_chunk_" ++ str_int chunk_index.

Definition record_of (emb : vector) (chunk : Chunk) : EmbeddingRecord :=
  {| r_embedding := emb;
     r_text := c_text chunk;
     r_document_id := c_document_id chunk;
     r_chunk_index := c_chunk_index chunk;
     r_page_numbers :=
       match c_page_numbers chunk with Some p => p | None => [] end;
     r_token_count :=
       match c_token_count chunk with Some t => t | None => 0%Z end |}.

Definition IndexError : exn :=
  Exception "IndexError" "list index out of range".

(** The [for i, chunk in enumerate(chunks)] loop of [add_chunks]:
    [data] is [response.data], [i] the running index, [d] the mapping and
    [ids] the keys collected so far.  [response.data[i]] raises when the
    response is shorter than the batch; the records written before stay in
    the mapping. *)
Fixpoint store_chunks (data : list vector) (i : nat) (chunks : list Chunk)
         (d : Store) (ids : list string) : Store * result (list string) :=
  match chunks with
  | [] => (d, Ok ids)
  | chunk :: rest =>
      let chunk_id :=
        chunk_id_of (c_document_id chunk) (c_chunk_index chunk) in
      let ids := ids ++ [chunk_id] in
      match nth_error data i with
      | None => (d, Raise IndexError)
      | Some emb =>
          store_chunks data (S i) rest
                       (dict_set chunk_id (record_of emb chunk) d) ids
      end
  end.

Definition add_chunks (chunks : list Chunk) (vs : VectorStore)
  : VectorStore * result (list string) :=
  match chunks with
  | [] => (vs, Ok [])
  | _ :: _ =>
      let texts := map c_text chunks in
      let response := embeddings_create env (events vs) texts in
      let vs := log (EmbedRequest texts) vs in
      match response with
      | Raise e => (vs, Raise e)
      | Ok data =>
          match store_chunks data 0 chunks (embeddings_data vs) [] with
          | (d, Raise e) => (with_data d vs, Raise e)
          | (d, Ok ids) => (_save_embeddings (with_data d vs), Ok ids)
          end
      end
  end.

Definition ZeroDivisionError : exn :=
  Exception "ZeroDivisionError" "float division by zero".

(** [_cosine_similarity] *)
Definition _cosine_similarity (vec1 vec2 : vector) : result float :=
  let dot_product :=
    fsum (map (fun ab => fmul (fst ab) (snd ab)) (combine vec1 vec2)) in
  let magnitude1 := fsqrt (fsum (map (fun a => fmul a a) vec1)) in
  let magnitude2 := fsqrt (fsum (map (fun a => fmul a a) vec2)) in
  if feqb magnitude1 fzero || feqb magnitude2 fzero then Ok fzero
  else match fdiv dot_product (fmul magnitude1 magnitude2) with
       | Some s => Ok s
       | None => Raise ZeroDivisionError
       end.

(** An element of the local list [similarities]. *)
Record Scored : Type := {
  sc_id : string;
  sc_similarity : float;
  sc_data : EmbeddingRecord
}.

(** The loop over [embeddings_data.items()] of [search_similar_chunks]. *)
Fixpoint score_items (query_embedding : vector) (document_id : Z)
         (items : Store) : result (list Scored) :=
  match items with
  | [] => Ok []
  | (chunk_id, chunk_data) :: rest =>
      if (r_document_id chunk_data =? document_id)%Z then
        match _cosine_similarity query_embedding (r_embedding chunk_data) with
        | Raise e => Raise e
        | Ok similarity =>
            match score_items query_embedding document_id rest with
            | Raise e => Raise e
            | Ok l =>
                Ok ({| sc_id := chunk_id;
                       sc_similarity := similarity;
                       sc_data := chunk_data |} :: l)
            end
        end
      else score_items query_embedding document_id rest
  end.

(** [list.sort(key=..., reverse=True)]: a stable sort into descending key
    order that compares keys with [<] only.  An element moves behind the
    ones already placed only when its key is strictly smaller. *)
Fixpoint insert_desc (x : Scored) (l : list Scored) : list Scored :=
  match l with
  | [] => [x]
  | y :: r =>
      if fltb (sc_similarity x) (sc_similarity y)
      then y :: insert_desc x r
      else x :: y :: r
  end.

Definition sort_desc (l : list Scored) : list Scored :=
  fold_right insert_desc [] l.

(** A dictionary of the list that [search_similar_chunks] returns. *)
Record SimilarChunk : Type := {
  s_id : string;
  s_text : string;
  s_similarity : float;
  s_chunk_index : Z;
  s_page_numbers : list Z;
  s_token_count : Z
}.

Definition format_result (result : Scored) : SimilarChunk :=
  {| s_id := sc_id result;
     s_text := r_text (sc_data result);
     s_similarity := sc_similarity result;
     s_chunk_index := r_chunk_index (sc_data result);
     s_page_numbers := r_page_numbers (sc_data result);
     s_token_count := r_token_count (sc_data result) |}.

Definition search_similar_chunks (query : string) (document_id : Z)
           (num_results : Z) (vs : VectorStore)
  : VectorStore * result (list SimilarChunk) :=
  let response := embeddings_create env (events vs) [query] in
  let vs := log (EmbedRequest [query]) vs in
  match response with
  | Raise e => (vs, Raise e)
  | Ok [] => (vs, Raise IndexError)
  | Ok (query_embedding :: _) =>
      match score_items query_embedding document_id (embeddings_data vs) with
      | Raise e => (vs, Raise e)
      | Ok similarities =>
          let top_results := slice_to (sort_desc similarities) num_results in
          (vs, Ok (map format_result top_results))
      end
  end.

Definition KeyError (k : string) : exn := Exception "KeyError" k.

(** The [for chunk_id in chunks_to_delete: del ...] loop. *)
Fixpoint delete_keys (chunks_to_delete : list string) (d : Store)
  : result Store :=
  match chunks_to_delete with
  | [] => Ok d
  | chunk_id :: rest =>
      match dict_del chunk_id d with
      | None => Raise (KeyError chunk_id)
      | Some d' => delete_keys rest d'
      end
  end.

Definition delete_document_chunks (document_id : Z) (vs : VectorStore)
  : VectorStore * result bool :=
  let chunks_to_delete :=
    dict_keys
      (filter (fun kv => (r_document_id (snd kv) =? document_id)%Z)
              (embeddings_data vs)) in
  match delete_keys chunks_to_delete (embeddings_data vs) with
  | Raise e => (vs, Raise e)
  | Ok d =>
      (_save_embeddings (with_data d vs),
       Ok (0 <? length chunks_to_delete)%nat)
  end.

(** The dictionary that [get_collection_stats] returns. *)
Record Stats : Type := {
  total_chunks : nat;
  documents_with_chunks : nat;
  stats_embedding_model : string
}.

Definition count_documents (values : list EmbeddingRecord) : dict Z Z :=
  fold_left
    (fun document_counts chunk_data =>
       let doc_id := r_document_id chunk_data in
       dict_set doc_id
                ((match dict_get doc_id document_counts with
                  | Some n => n
                  | None => 0
                  end) + 1)%Z
                document_counts)
    values [].

Definition get_collection_stats (vs : VectorStore) : Stats :=
  {| total_chunks := dict_len (embeddings_data vs);
     documents_with_chunks :=
       dict_len (count_documents (dict_values (embeddings_data vs)));
     stats_embedding_model := embedding_model |}.

Definition reset_collection (vs : VectorStore) : VectorStore * bool :=
  (_save_embeddings (with_data [] vs), true).

End VectorStore.

(* ================================================================== *)
(** * documents/processing.py *)
(* ================================================================== *)

(** ** Text primitives: the regular expressions and [str] methods used *)

Definition nl : string := String (ascii_of_nat 10) "".

(** [str.isspace] / the class [\s], on code points below 256. *)
Definition is_space (c : ascii) : bool :=
  let n := nat_of_ascii c in
  (((9 <=? n) && (n <=? 13)) || ((28 <=? n) && (n <=? 32))
   || (n =? 133) || (n =? 160))%nat.

(** The class [\d], on code points below 256. *)
Definition is_digit (c : ascii) : bool :=
  let n := nat_of_ascii c in ((48 <=? n) && (n <=? 57))%nat.

(** The class [[.!?]]. *)
Definition is_terminator (c : ascii) : bool :=
  let n := nat_of_ascii c in ((n =? 46) || (n =? 33) || (n =? 63))%nat.

(** [bool(s)] *)
Definition truthy (s : string) : bool :=
  match s with EmptyString => false | String _ _ => true end.

(** [re.sub(r'\s+', ' ', text)]; [in_run] tells that the previous character
    was white space, already replaced. *)
Fixpoint collapse_whitespace (text : string) (in_run : bool) : string :=
  match text with
  | EmptyString => EmptyString
  | String c r =>
      if is_space c then
        if in_run then collapse_whitespace r true
        else String " " (collapse_whitespace r true)
      else String c (collapse_whitespace r false)
  end.

Fixpoint drop_prefix (p s : string) : option string :=
  match p, s with
  | EmptyString, _ => Some s
  | String a p', String b s' =>
      if Ascii.eqb a b then drop_prefix p' s' else None
  | String _ _, EmptyString => None
  end.

(** The longest run of digits at the head of [s], and what follows. *)
Fixpoint span_digits (s : string) : string * string :=
  match s with
  | String c r =>
      if is_digit c
      then let (ds, rest) := span_digits r in (String c ds, rest)
      else (EmptyString, s)
  | EmptyString => (EmptyString, EmptyString)
  end.

(** A match of [\[Page (\d+)\]] at the head of [s]: the captured digits and
    the length of the match. *)
Definition match_page_marker (s : string) : option (string * nat) :=
  match drop_prefix "[Page " s with
  | None => None
  | Some r =>
      match span_digits r with
      | (String d ds, String c _) =>
          if Ascii.eqb c "]"
          then Some (String d ds, 6 + String.length (String d ds) + 1)
          else None
      | _ => None
      end
  end.

(** [re.sub(r'\[Page \d+\]', '', text)]: matches are found left to right
    and do not overlap; [skip] counts the characters of the current match
    still to be dropped. *)
Fixpoint remove_page_markers (text : string) (skip : nat) : string :=
  match text with
  | EmptyString => EmptyString
  | String c r =>
      match skip with
      | S k => remove_page_markers r k
      | O =>
          match match_page_marker text with
          | Some (_, n) => remove_page_markers r (n - 1)
          | None => String c (remove_page_markers r 0)
          end
      end
  end.

(** [int(s)] for a string of decimal digits. *)
Definition int_of_digits (s : string) : Z :=
  fold_left (fun acc c => (10 * acc + Z.of_nat (nat_of_ascii c - 48))%Z)
            (list_ascii_of_string s) 0%Z.

(** [re.findall(r'\[Page (\d+)\]', text)] *)
Fixpoint findall_page_markers (text : string) (skip : nat) : list string :=
  match text with
  | EmptyString => []
  | String c r =>
      match skip with
      | S k => findall_page_markers r k
      | O =>
          match match_page_marker text with
          | Some (ds, n) => ds :: findall_page_markers r (n - 1)
          | None => findall_page_markers r 0
          end
      end
  end.

(** [s.lstrip()], [s.rstrip()], [s.strip()] *)
Fixpoint lstrip (s : string) : string :=
  match s with
  | String c r => if is_space c then lstrip r else s
  | EmptyString => EmptyString
  end.

Fixpoint rstrip (s : string) : string :=
  match s with
  | EmptyString => EmptyString
  | String c r =>
      match rstrip r with
      | EmptyString => if is_space c then EmptyString else String c EmptyString
      | r' => String c r'
      end
  end.

Definition strip (s : string) : string := rstrip (lstrip s).

(** [re.split(r'[.!?]+', text)]: [cur] is the piece being read, [in_sep]
    tells that the previous character was a terminator. *)
Fixpoint re_split_terminators (text cur : string) (in_sep : bool)
  : list string :=
  match text with
  | EmptyString => [cur]
  | String c r =>
      if is_terminator c then
        if in_sep then re_split_terminators r EmptyString true
        else cur :: re_split_terminators r EmptyString true
      else re_split_terminators r (cur ++ String c EmptyString) false
  end.

(** [len(text.split())] *)
Fixpoint count_words (text : string) (in_word : bool) : Z :=
  match text with
  | EmptyString => 0
  | String c r =>
      if is_space c then count_words r false
      else ((if in_word then 0 else 1) + count_words r true)%Z
  end.

(** [sep.join(parts)] *)
Fixpoint join (sep : string) (parts : list string) : string :=
  match parts with
  | [] => EmptyString
  | [p] => p
  | p :: rest => p ++ sep ++ join sep rest
  end.

(** ** The tokenizer ([tiktoken]'s [cl100k_base] in the source) *)

Record Tokenizer : Type := {
  token : Type;
  encode : string -> list token;
  decode : list token -> string
}.

(** ** [DocumentProcessor] *)

Record DocumentProcessor : Type := {
  tokenizer : Tokenizer;
  chunk_size : Z;      (* settings.CHUNK_SIZE, 500 by default *)
  chunk_overlap : Z    (* settings.CHUNK_OVERLAP, 50 by default *)
}.

(** What the three readers find in the uploaded file. *)
Record UploadedFile : Type := {
  read_txt : result string;                   (* open(...).read() *)
  read_pdf : result (list (result string));   (* page.extract_text() of each
                                                 page of PdfReader(...).pages *)
  read_docx : result (list string)            (* paragraph.text of each
                                                 paragraph of docx.Document *)
}.

Section Processing.
Variable self : DocumentProcessor.

Definition count_tokens (text : string) : Z :=
  Z.of_nat (length (encode (tokenizer self) text)).

Definition _extract_from_txt (file : UploadedFile) : result (string * Z) :=
  match read_txt file with
  | Raise e => Raise e
  | Ok text =>
      let word_count := count_words text false in
      Ok (text, Z.max 1 (word_count / 500))
  end.

(** The loop over [enumerate(pdf_reader.pages)]: a page whose extraction
    raises is skipped. *)
Fixpoint pdf_pages_text (page_num : Z) (pages : list (result string))
         (text : string) : string :=
  match pages with
  | [] => text
  | page :: rest =>
      match page with
      | Ok page_text =>
          if truthy (strip page_text)
          then pdf_pages_text (page_num + 1) rest
                 (text ++ nl ++ "[Page " ++ str_int (page_num + 1) ++ "]"
                       ++ nl ++ page_text ++ nl)
          else pdf_pages_text (page_num + 1) rest text
      | Raise _ => pdf_pages_text (page_num + 1) rest text
      end
  end.

Definition _extract_from_pdf (file : UploadedFile) : result (string * Z) :=
  match read_pdf file with
  | Raise e => Raise e
  | Ok pages =>
      Ok (pdf_pages_text 0 pages EmptyString, Z.of_nat (length pages))
  end.

Definition _extract_from_docx (file : UploadedFile) : result (string * Z) :=
  match read_docx file with
  | Raise e => Raise e
  | Ok paragraphs =>
      let text :=
        fold_left (fun text paragraph =>
                     if truthy (strip paragraph)
                     then (text ++ paragraph ++ nl)%string else text)
                  paragraphs EmptyString in
      let word_count := count_words text false in
      Ok (text, Z.max 1 (word_count / 500))
  end.

Definition extract_text (file : UploadedFile) (file_type : string)
  : result (string * Z) :=
  if (file_type =? "txt") || (file_type =? "md") then _extract_from_txt file
  else if file_type =? "pdf" then _extract_from_pdf file
  else if file_type =? "docx" then _extract_from_docx file
  else Raise (Exception "ValueError"
                        ("Unsupported file type: " ++ file_type)).

Definition _clean_text (text : string) : string :=
  let text := collapse_whitespace text false in
  let text := remove_page_markers text 0 in
  strip text.

Definition _split_into_sentences (text : string) : list string :=
  filter truthy
         (map strip (re_split_terminators text EmptyString false)).

Definition _get_overlap_text (text : string) : string :=
  let tokens := encode (tokenizer self) text in
  if (Z.of_nat (length tokens) <=? chunk_overlap self)%Z then text
  else decode (tokenizer self) (slice_from tokens (- chunk_overlap self)).

Definition _extract_page_numbers (text : string) : list Z :=
  match findall_page_markers text 0 with
  | [] => [1%Z]
  | page_matches => map int_of_digits page_matches
  end.

Definition _create_chunk (text : string) (chunk_index document_id : Z)
  : Chunk :=
  {| c_text := text;
     c_chunk_index := chunk_index;
     c_page_numbers := Some (_extract_page_numbers text);
     c_token_count := Some (count_tokens text);
     c_document_id := document_id |}.

(** The local variables of [chunk_text]. *)
Record Chunking : Type := {
  chunks : list Chunk;
  current_chunk : string;
  current_tokens : Z;
  chunk_index : Z
}.

(** One turn of [for sentence in sentences]. *)
Definition chunk_step (document_id : Z) (st : Chunking) (sentence : string)
  : Chunking :=
  let sentence_tokens := count_tokens sentence in
  if (chunk_size self <? current_tokens st + sentence_tokens)%Z
     && truthy (current_chunk st)
  then
    let overlap_text := _get_overlap_text (current_chunk st) in
    let new_chunk := (overlap_text ++ " " ++ sentence)%string in
    {| chunks := chunks st ++ [_create_chunk (strip (current_chunk st))
                                             (chunk_index st) document_id];
       current_chunk := new_chunk;
       current_tokens := count_tokens new_chunk;
       chunk_index := (chunk_index st + 1)%Z |}
  else
    {| chunks := chunks st;
       current_chunk :=
         (current_chunk st
          ++ (if truthy (current_chunk st) then " " ++ sentence
              else sentence))%string;
       current_tokens := (current_tokens st + sentence_tokens)%Z;
       chunk_index := chunk_index st |}.

Definition chunking_start : Chunking :=
  {| chunks := []; current_chunk := EmptyString;
     current_tokens := 0%Z; chunk_index := 0%Z |}.

(** [if current_chunk.strip(): chunks.append(...)] and [return chunks] *)
Definition chunk_finish (document_id : Z) (st : Chunking) : list Chunk :=
  if truthy (strip (current_chunk st))
  then chunks st ++ [_create_chunk (strip (current_chunk st))
                                   (chunk_index st) document_id]
  else chunks st.

Definition chunk_text (text : string) (document_id : Z) : list Chunk :=
  let text := _clean_text text in
  let sentences := _split_into_sentences text in
  chunk_finish document_id
               (fold_left (chunk_step document_id) sentences chunking_start).

End Processing.

(** A tokenizer for worked examples, in the manner of byte-pair
    vocabularies: a token is a word together with the space before it. *)
Fixpoint word_pieces (s cur : string) : list string :=
  match s with
  | EmptyString => if truthy cur then [cur] else []
  | String c r =>
      if Ascii.eqb c " " then
        if truthy cur then cur :: word_pieces r (String c EmptyString)
        else word_pieces r (String c EmptyString)
      else word_pieces r (cur ++ String c EmptyString)
  end.

Definition WordTokenizer : Tokenizer :=
  {| token := string;
     encode := fun s => word_pieces s EmptyString;
     decode := fun ts => String.concat EmptyString ts |}.

(* ================================================================== *)
(** * documents/llm_service.py *)
(* ================================================================== *)

Definition dq : string := String (ascii_of_nat 34) "".

Section LLMService.
Context {F : FloatOps}.

(** Python values as [json.loads] produces them and as the answer
    dictionary holds them. *)
#[warnings="-register-all"]
Inductive pyval : Type :=
| PNone
| PBool (b : bool)
| PInt (z : Z)
| PFloat (x : float)
| PStr (s : string)
| PList (l : list pyval)
| PDict (d : list (string * pyval)).

(** The keyword arguments of [client.chat.completions.create]; the
    sampling temperature is the constant 0.2. *)
Record ChatRequest : Type := {
  req_model : string;
  req_messages : list (string * string);   (* (role, content) *)
  req_max_tokens : Z;
  req_response_format : string
}.

(** The chat client answers with the [message.content] of each choice
    ([None] for a null content), or raises; [json.loads] is the parser. *)
Record LLMEnv : Type := {
  chat_completions_create : ChatRequest -> result (list (option string));
  json_loads : string -> result pyval
}.

Variable llm : LLMEnv.

Definition model : string := "gpt-4o".
Definition max_tokens : Z := 1000.

(** The body of the loop of [_prepare_context], [i] counting from 1. *)
Fixpoint context_parts (i : Z) (chunks : list SimilarChunk) : list string :=
  match chunks with
  | [] => []
  | chunk :: rest =>
      let page_info :=
        match s_page_numbers chunk with
        | [] => EmptyString
        | pages =>
            (" (Page " ++ join ", " (map str_int pages) ++ ")")%string
        end in
      ("[Context " ++ str_int i ++ "]" ++ page_info ++ ":" ++ nl
                   ++ s_text chunk ++ nl)%string
        :: context_parts (i + 1) rest
  end.

Definition _prepare_context (chunks : list SimilarChunk) : string :=
  join nl (context_parts 1 chunks).

Definition _create_system_prompt : string :=
  join nl
    [ "You are a helpful AI assistant that answers questions based on provided document context. ";
      "";
      "Your task is to:";
      "1. Answer the user's question using ONLY the information provided in the context";
      "2. Be accurate and concise";
      "3. If the context doesn't contain enough information, say so clearly";
      "4. Provide a confidence score between 0.0 and 1.0 based on how well the context supports your answer";
      "5. Always respond in JSON format with the following structure:";
      "{";
      "    " ++ dq ++ "answer" ++ dq ++ ": " ++ dq
             ++ "Your detailed answer here" ++ dq ++ ",";
      "    " ++ dq ++ "confidence" ++ dq ++ ": 0.85,";
      "    " ++ dq ++ "reasoning" ++ dq ++ ": " ++ dq
             ++ "Brief explanation of why you have this confidence level"
             ++ dq;
      "}";
      "";
      "Guidelines:";
      "- If the context clearly answers the question: confidence 0.8-1.0";
      "- If the context partially answers the question: confidence 0.4-0.7";
      "- If the context barely relates to the question: confidence 0.1-0.3";
      "- If the context doesn't help at all: confidence 0.0";
      "" ]%string.

Definition _create_user_prompt (question context document_title : string)
  : string :=
  join nl
    [ "Document: " ++ dq ++ document_title ++ dq;
      "";
      "Context:";
      context;
      "";
      "Question: " ++ question;
      "";
      "Please answer the question based on the provided context. Remember to respond in JSON format with answer, confidence, and reasoning fields." ]%string.

(** [text[:200] + "..." if len(text) > 200 else text] *)
Definition text_preview (text : string) : string :=
  if (200 <? String.length text)%nat
  then String.substring 0 200 text ++ "..."
  else text.

Definition _format_sources (chunks : list SimilarChunk) : list pyval :=
  map (fun chunk =>
         PDict [ ("chunk_index", PInt (s_chunk_index chunk));
                 ("page_numbers", PList (map PInt (s_page_numbers chunk)));
                 ("text_preview", PStr (text_preview (s_text chunk)));
                 ("similarity", PFloat (fround 3 (s_similarity chunk)));
                 ("token_count", PInt (s_token_count chunk)) ])
      chunks.

(** The [try] block of [generate_answer]. *)
Definition generate_answer_body (question : string)
           (context_chunks : list SimilarChunk) (document_title : string)
  : result (dict string pyval) :=
  let context := _prepare_context context_chunks in
  let system_prompt := _create_system_prompt in
  let user_prompt := _create_user_prompt question context document_title in
  match chat_completions_create llm
          {| req_model := model;
             req_messages := [("system", system_prompt);
                              ("user", user_prompt)];
             req_max_tokens := max_tokens;
             req_response_format := "json_object" |} with
  | Raise e => Raise e
  | Ok [] => Raise IndexError
  | Ok (None :: _) =>
      Raise (Exception "TypeError"
               "the JSON object must be str, bytes or bytearray, not NoneType")
  | Ok (Some content :: _) =>
      match json_loads llm content with
      | Raise e => Raise e
      | Ok (PDict result) =>
          Ok (dict_set "sources" (PList (_format_sources context_chunks))
                       result)
      | Ok _ =>
          Raise (Exception "TypeError"
                   "object does not support item assignment")
      end
  end.

(** The dictionary built in the [except Exception as e] handler. *)
Definition fallback_answer (e : exn) : dict string pyval :=
  [ ("answer",
     PStr ("I apologize, but I encountered an error while processing your question: "
             ++ exn_msg e));
    ("confidence", PFloat fzero);
    ("sources", PList []) ].

Definition generate_answer (question : string)
           (context_chunks : list SimilarChunk) (document_title : string)
  : dict string pyval :=
  match generate_answer_body question context_chunks document_title with
  | Ok result => result
  | Raise e => fallback_answer e
  end.

End LLMService.

(* ================================================================== *)
(** * documents/models.py and documents/views.py *)
(* ================================================================== *)

(** A [Document] instance (the fields the ingest reads or writes). *)
Record Document : Type := {
  doc_id : Z;
  doc_file : UploadedFile;       (* file_path *)
  doc_file_type : string;
  doc_page_count : Z;
  doc_status : string;
  doc_error_message : option string
}.

(** A [DocumentChunk] row. *)
Record DocumentChunk : Type := {
  dc_document : Z;
  dc_chunk_index : Z;
  dc_text : string;
  dc_page_numbers : list Z;
  dc_embedding_id : string;
  dc_token_count : Z
}.

(** The record store: the document rows by primary key, the chunk rows, and
    how many writes were attempted so far. *)
Record Database : Type := {
  db_documents : dict Z Document;
  db_chunks : list DocumentChunk;
  db_writes : nat
}.

(** An HTTP response: status code and the ['success'] and ['error'] keys. *)
Record Response : Type := {
  http_status : Z;
  resp_success : bool;
  resp_error : option string
}.

Section Views.
Context {F : FloatOps}.

Record System : Type := {
  sys_store : VectorStore;
  sys_db : Database
}.

(** [orm_write n]: does the [n]-th write to the record store raise? *)
Record ViewEnv : Type := {
  store_env : Env;
  orm_write : nat -> option exn
}.

Variable venv : ViewEnv.
Variable processor : DocumentProcessor.

(** [document.save()] *)
Definition save_document (document : Document) (db : Database)
  : Database * result unit :=
  match orm_write venv (db_writes db) with
  | Some e =>
      ({| db_documents := db_documents db;
          db_chunks := db_chunks db;
          db_writes := S (db_writes db) |}, Raise e)
  | None =>
      ({| db_documents := dict_set (doc_id document) document
                                   (db_documents db);
          db_chunks := db_chunks db;
          db_writes := S (db_writes db) |}, Ok tt)
  end.

(** [DocumentChunk.objects.bulk_create(chunk_objects)]: one atomic
    insert. *)
Definition bulk_create (chunk_objects : list DocumentChunk) (db : Database)
  : Database * result unit :=
  match orm_write venv (db_writes db) with
  | Some e =>
      ({| db_documents := db_documents db;
          db_chunks := db_chunks db;
          db_writes := S (db_writes db) |}, Raise e)
  | None =>
      ({| db_documents := db_documents db;
          db_chunks := db_chunks db ++ chunk_objects;
          db_writes := S (db_writes db) |}, Ok tt)
  end.

(** The loop over [zip(chunks_data, embedding_ids)] that builds
    [chunk_objects]; ['page_numbers'] and ['token_count'] are read with
    [chunk_data[...]]. *)
Fixpoint build_chunk_objects (document : Document)
         (pairs : list (Chunk * string)) : result (list DocumentChunk) :=
  match pairs with
  | [] => Ok []
  | (chunk_data, embedding_id) :: rest =>
      match c_page_numbers chunk_data, c_token_count chunk_data with
      | None, _ => Raise (KeyError "page_numbers")
      | _, None => Raise (KeyError "token_count")
      | Some pages, Some tokens =>
          match build_chunk_objects document rest with
          | Raise e => Raise e
          | Ok l =>
              Ok ({| dc_document := doc_id document;
                     dc_chunk_index := c_chunk_index chunk_data;
                     dc_text := c_text chunk_data;
                     dc_page_numbers := pages;
                     dc_embedding_id := embedding_id;
                     dc_token_count := tokens |} :: l)
          end
      end
  end.

Definition set_page_count (n : Z) (d : Document) : Document :=
  {| doc_id := doc_id d; doc_file := doc_file d;
     doc_file_type := doc_file_type d; doc_page_count := n;
     doc_status := doc_status d;
     doc_error_message := doc_error_message d |}.

Definition set_status (s : string) (msg : option string) (d : Document)
  : Document :=
  {| doc_id := doc_id d; doc_file := doc_file d;
     doc_file_type := doc_file_type d; doc_page_count := doc_page_count d;
     doc_status := s; doc_error_message := msg |}.

Definition with_db (db : Database) (sys : System) : System :=
  {| sys_store := sys_store sys; sys_db := db |}.

Definition with_store (vs : VectorStore) (sys : System) : System :=
  {| sys_store := vs; sys_db := sys_db sys |}.

(** [_process_document]: the [document] object is returned with the
    attribute changes made to it; the handler only re-raises. *)
Definition _process_document (document : Document) (sys : System)
  : System * Document * result unit :=
  match extract_text (doc_file document) (doc_file_type document) with
  | Raise e => (sys, document, Raise e)
  | Ok (text, page_count) =>
      let document := set_page_count page_count document in
      match save_document document (sys_db sys) with
      | (db, Raise e) => (with_db db sys, document, Raise e)
      | (db, Ok _) =>
          let sys := with_db db sys in
          let chunks_data := chunk_text processor text (doc_id document) in
          match chunks_data with
          | [] =>
              (sys, document,
               Raise (Exception "ValueError"
                                "No chunks generated from document"))
          | _ :: _ =>
              match add_chunks (store_env venv) chunks_data
                               (sys_store sys) with
              | (vs, Raise e) => (with_store vs sys, document, Raise e)
              | (vs, Ok embedding_ids) =>
                  let sys := with_store vs sys in
                  match build_chunk_objects
                          document (combine chunks_data embedding_ids) with
                  | Raise e => (sys, document, Raise e)
                  | Ok chunk_objects =>
                      match bulk_create chunk_objects (sys_db sys) with
                      | (db, Raise e) => (with_db db sys, document, Raise e)
                      | (db, Ok _) =>
                          let sys := with_db db sys in
                          let document :=
                            set_status "processed" None document in
                          match save_document document (sys_db sys) with
                          | (db, Raise e) =>
                              (with_db db sys, document, Raise e)
                          | (db, Ok _) =>
                              (with_db db sys, document, Ok tt)
                          end
                      end
                  end
              end
          end
      end
  end.

(** [upload_document] from the point where the [Document] row exists with
    status ['processing']: the call of [_process_document] and its error
    handling; a failure of the handler's own [document.save()] reaches
    the outer handler. *)
Definition upload_document (document : Document) (sys : System)
  : System * Document * Response :=
  match _process_document document sys with
  | (sys, document, Ok _) =>
      (sys, document,
       {| http_status := 201; resp_success := true; resp_error := None |})
  | (sys, document, Raise e) =>
      let document := set_status "error" (Some (exn_msg e)) document in
      match save_document document (sys_db sys) with
      | (db, Ok _) =>
          (with_db db sys, document,
           {| http_status := 500; resp_success := false;
              resp_error :=
                Some "Document uploaded but processing failed" |})
      | (db, Raise _) =>
          (with_db db sys, document,
           {| http_status := 500; resp_success := false;
              resp_error := Some "Failed to upload document" |})
      end
  end.

End Views.

(* ================================================================== *)
(** * Vocabulary of the properties *)
(* ================================================================== *)

(** [a] occurs in [l] with [b] somewhere after it. *)
Definition precedes {A} (l : list A) (a b : A) : Prop :=
  exists l1 l2, l = l1 ++ a :: l2 /\ In b l2.

(** [int(b)] for a [bool]. *)
Definition int_of_bool (b : bool) : Z := if b then 1%Z else 0%Z.

(** The last [n] elements of [l] (all of [l] when it is shorter). *)
Definition last_n {A} (n : nat) (l : list A) : list A :=
  skipn (length l - n) l.

Definition is_prefix (p s : string) : Prop :=
  exists more, s = (p ++ more)%string.

(** The character [c] does not occur in [s]. *)
Fixpoint free_of (c : ascii) (s : string) : Prop :=
  match s with
  | EmptyString => True
  | String a r => a <> c /\ free_of c r
  end.

(** The pair that [add_chunks] derives a key from. *)
Definition chunk_key (c : Chunk) : Z * Z := (c_document_id c, c_chunk_index c).

Section StoreVocabulary.
Context {F : FloatOps}.

(** The records of one document, in store order. *)
Definition records_of (document_id : Z) (d : Store) : Store :=
  filter (fun kv => (r_document_id (snd kv) =? document_id)%Z) d.

(** Every key is the one [add_chunks] derives from the record's own
    document id and chunk index. *)
Definition key_consistent (d : Store) : Prop :=
  Forall (fun kv =>
            fst kv = chunk_id_of (r_document_id (snd kv))
                                 (r_chunk_index (snd kv))) d.

(** The mutating operations of the store. *)
Inductive Operation : Type :=
| AddChunks (chunks : list Chunk)
| DeleteDocumentChunks (document_id : Z)
| ResetCollection.

Definition run_operation (env : Env) (vs : VectorStore) (op : Operation)
  : VectorStore :=
  match op with
  | AddChunks chunks => fst (add_chunks env chunks vs)
  | DeleteDocumentChunks document_id =>
      fst (delete_document_chunks env document_id vs)
  | ResetCollection => fst (reset_collection env vs)
  end.

Definition run_operations (env : Env) (ops : list Operation)
           (vs : VectorStore) : VectorStore :=
  fold_left (run_operation env) ops vs.

(** The store before any operation: no record, no file. *)
Definition empty_store : VectorStore :=
  {| embeddings_data := []; storage_file := FileAbsent; events := [] |}.

(** [a] may stand before [b] in a ranking: [a] does not score less, and on
    equal scores [tie a b] holds. *)
Definition ranked (tie : SimilarChunk -> SimilarChunk -> Prop)
           (a b : SimilarChunk) : Prop :=
  fltb (s_similarity a) (s_similarity b) = false
  /\ (fltb (s_similarity b) (s_similarity a) = false -> tie a b).

Definition by_chunk_index (a b : SimilarChunk) : Prop :=
  (s_chunk_index a < s_chunk_index b)%Z.

Definition by_store_order (d : Store) (a b : SimilarChunk) : Prop :=
  precedes (dict_keys d) (s_id a) (s_id b).

(** A result comes from a stored record of the requested document and
    carries its similarity to the query vector. *)
Definition from_document (q : vector) (document_id : Z) (d : Store)
           (r : SimilarChunk) : Prop :=
  exists rec,
    In (s_id r, rec) d
    /\ r_document_id rec = document_id
    /\ _cosine_similarity q (r_embedding rec) = Ok (s_similarity r)
    /\ s_chunk_index r = r_chunk_index rec
    /\ s_text r = r_text rec.

(** The search contract in the words of the specification: only records of
    the document, descending similarity with ties by ascending chunk
    index, and [min(k, n)] results. *)
Definition search_as_specified (env : Env) (query : string)
           (document_id k : Z) (vs : VectorStore) : Prop :=
  exists q rest results,
    embeddings_create env (events vs) [query] = Ok (q :: rest)
    /\ snd (search_similar_chunks env query document_id k vs) = Ok results
    /\ Forall (from_document q document_id (embeddings_data vs)) results
    /\ StronglySorted (ranked by_chunk_index) results
    /\ Z.of_nat (length results)
       = Z.min k (Z.of_nat (length (records_of document_id
                                                (embeddings_data vs)))).

(** The delete contract in the words of the specification: the value
    returned is the number of records removed. *)
Definition delete_returns_count (env : Env) (document_id : Z)
           (vs : VectorStore) : Prop :=
  exists vs' b,
    delete_document_chunks env document_id vs = (vs', Ok b)
    /\ int_of_bool b
       = Z.of_nat (length (records_of document_id (embeddings_data vs))).

(** The order a stable descending sort produces from a tie-break [tie]. *)
Definition placed (tie : Scored -> Scored -> Prop) (a b : Scored) : Prop :=
  fltb (sc_similarity a) (sc_similarity b) = false
  /\ (fltb (sc_similarity b) (sc_similarity a) = false -> tie a b).

(** The record holds these values of [document_id] and [chunk_index]. *)
Definition has_fields (document_id chunk_index : Z)
           (kv : string * EmbeddingRecord) : bool :=
  ((r_document_id (snd kv) =? document_id)
   && (r_chunk_index (snd kv) =? chunk_index))%Z.

End StoreVocabulary.

Section ChunkerVocabulary.
Variable self : DocumentProcessor.

(** The values of [current_chunk] at the moments [chunk_text] closes a
    chunk, starting from buffer [cur] with running count [tokens]. *)
Fixpoint closed_buffers (cur : string) (tokens : Z) (sentences : list string)
  : list string :=
  match sentences with
  | [] => if truthy (strip cur) then [cur] else []
  | sentence :: rest =>
      let sentence_tokens := count_tokens self sentence in
      if (chunk_size self <? tokens + sentence_tokens)%Z && truthy cur
      then
        let new_chunk :=
          (_get_overlap_text self cur ++ " " ++ sentence)%string in
        cur :: closed_buffers new_chunk (count_tokens self new_chunk) rest
      else
        closed_buffers
          (cur ++ (if truthy cur then " " ++ sentence else sentence))%string
          (tokens + sentence_tokens)%Z rest
  end.

(** The overlap property in the words of the specification: the first
    [chunk_overlap] tokens of a chunk are the last [chunk_overlap] tokens
    of the chunk before it. *)
Definition overlap_as_specified (chunks : list Chunk) : Prop :=
  forall i a b,
    nth_error chunks i = Some a ->
    nth_error chunks (S i) = Some b ->
    firstn (Z.to_nat (chunk_overlap self))
           (encode (tokenizer self) (c_text b))
    = last_n (Z.to_nat (chunk_overlap self))
             (encode (tokenizer self) (c_text a)).

(** The overlap tail of a closed buffer: its last [chunk_overlap] tokens
    decoded, or the buffer itself when it has no more tokens than that. *)
Definition overlap_tail (buffer : string) : string :=
  let tokens := encode (tokenizer self) buffer in
  if (length tokens <=? Z.to_nat (chunk_overlap self))%nat then buffer
  else decode (tokenizer self) (last_n (Z.to_nat (chunk_overlap self)) tokens).

End ChunkerVocabulary.

Section IngestVocabulary.
Context {F : FloatOps}.

Definition chunk_rows_of (document_id : Z) (sys : System)
  : list DocumentChunk :=
  filter (fun c => (dc_document c =? document_id)%Z) (db_chunks (sys_db sys)).

Definition persisted_status (document_id : Z) (sys : System)
  : option string :=
  option_map doc_status (dict_get document_id (db_documents (sys_db sys))).

Definition stored_indices (document_id : Z) (sys : System) : list Z :=
  map r_chunk_index
      (dict_values (records_of document_id
                               (embeddings_data (sys_store sys)))).

Definition row_indices (document_id : Z) (sys : System) : list Z :=
  map dc_chunk_index (chunk_rows_of document_id sys).

(** Chunk rows and embedding records of the document carry the same chunk
    indices. *)
Definition chunks_match_embeddings (document_id : Z) (sys : System) : Prop :=
  forall i, In i (row_indices document_id sys)
            <-> In i (stored_indices document_id sys).

(** The two outcomes that the specification allows after an ingest. *)
Definition all_or_nothing (document_id : Z) (sys : System) : Prop :=
  (persisted_status document_id sys = Some "processed"
   /\ chunks_match_embeddings document_id sys)
  \/ (persisted_status document_id sys = Some "error"
      /\ chunk_rows_of document_id sys = []
      /\ records_of document_id (embeddings_data (sys_store sys)) = []).

(** The ingest stops before anything is written to the vector store: the
    extraction raises, no chunk comes out, or the embedding request
    raises. *)
Definition fails_before_indexing (venv : ViewEnv)
           (processor : DocumentProcessor) (document : Document)
           (sys : System) : Prop :=
  match extract_text (doc_file document) (doc_file_type document) with
  | Raise _ => True
  | Ok (text, _) =>
      match chunk_text processor text (doc_id document) with
      | [] => True
      | chunks_data =>
          exists e,
            embeddings_create (store_env venv) (events (sys_store sys))
                              (map c_text chunks_data) = Raise e
      end
  end.

End IngestVocabulary.

(* ================================================================== *)
(** * Worked configurations *)
(* ================================================================== *)

(** A processor with a five-token limit and a two-token overlap. *)
Definition small_processor : DocumentProcessor :=
  {| tokenizer := WordTokenizer; chunk_size := 5; chunk_overlap := 2 |}.

(** The processor with the default limits of the source. *)
Definition default_processor : DocumentProcessor :=
  {| tokenizer := WordTokenizer; chunk_size := 500; chunk_overlap := 50 |}.

(** A sentence of [n] one-letter words. *)
Definition words (n : nat) : string := join " " (repeat "w" n).

(** A 100-word sentence followed by a 480-word sentence. *)
Definition two_sentences : string :=
  (words 100 ++ ". " ++ words 480 ++ ".")%string.

(** A two-page PDF: the first page has no text, the second reads
    [Beta.]. *)
Definition second_page_only : UploadedFile :=
  {| read_txt := Raise (Exception "UnicodeDecodeError" "");
     read_pdf := Ok [Ok "  "; Ok "Beta."];
     read_docx := Raise (Exception "BadZipFile" "File is not a zip file") |}.

Definition unit_vector : @vector IntFloat := [1%Z : @float IntFloat; 0%Z].

(** An embedding client that maps every text to the unit vector (1, 0),
    and a disk that always writes. *)
Definition unit_env : @Env IntFloat :=
  {| embeddings_create := fun _ texts => Ok (map (fun _ => unit_vector) texts);
     file_write := fun _ _ => Written |}.

Definition plain_chunk (document_id chunk_index : Z) (text : string) : Chunk :=
  {| c_text := text; c_chunk_index := chunk_index;
     c_page_numbers := Some [1%Z]; c_token_count := Some 1%Z;
     c_document_id := document_id |}.

(** A chat client that is unreachable. *)
Definition unreachable_llm : @LLMEnv IntFloat :=
  {| chat_completions_create :=
       fun _ => Raise (Exception "APIConnectionError" "Connection error.");
     json_loads :=
       fun _ => Raise (Exception "JSONDecodeError" "Expecting value") |}.

(** A record store that never fails, and one whose second write (the
    insert of the chunk rows) fails. *)
Definition healthy_env : @ViewEnv IntFloat :=
  {| store_env := unit_env; orm_write := fun _ => None |}.

Definition failing_insert_env : @ViewEnv IntFloat :=
  {| store_env := unit_env;
     orm_write := fun n =>
       if (n =? 1)%nat
       then Some (Exception "OperationalError" "database is locked")
       else None |}.

(** A plain-text upload of two sentences, recorded as document 1 with
    status ['processing']. *)
Definition sample_document : Document :=
  {| doc_id := 1;
     doc_file :=
       {| read_txt := Ok "a b c. d e f g.";
          read_pdf := Raise (Exception "PdfReadError" "EOF marker not found");
          read_docx := Raise (Exception "BadZipFile" "File is not a zip file") |};
     doc_file_type := "txt";
     doc_page_count := 0;
     doc_status := "processing";
     doc_error_message := None |}.

Definition sample_system : @System IntFloat :=
  {| sys_store := empty_store;
     sys_db := {| db_documents := [(1%Z, sample_document)];
                  db_chunks := [];
                  db_writes := 0 |} |}.

(** Document 1 added in two calls, chunk 1 before chunk 0. *)
Definition late_first_store : @VectorStore IntFloat :=
  run_operations unit_env
    [AddChunks [plain_chunk 1 1 "beta"]; AddChunks [plain_chunk 1 0 "alpha"]]
    empty_store.

(** Documents 1 (two chunks) and 2 (one chunk). *)
Definition two_document_store : @VectorStore IntFloat :=
  run_operations unit_env
    [AddChunks [plain_chunk 1 0 "alpha"; plain_chunk 1 1 "beta"];
     AddChunks [plain_chunk 2 0 "gamma"]]
    empty_store.

(* ================================================================== *)
(** * Further operations of the same modules *)
(* ================================================================== *)

(** [l[start:stop]] for Python [int]s: a negative bound counts from the
    end, every bound is clamped to the list. *)
Definition clamp_index (len : nat) (i : Z) : nat :=
  if (i <? 0)%Z then Z.to_nat (Z.max 0 (Z.of_nat len + i))
  else Nat.min (Z.to_nat i) len.

Definition slice {A} (l : list A) (start stop : Z) : list A :=
  let s := clamp_index (length l) start in
  let e := clamp_index (length l) stop in
  firstn (e - s) (skipn s l).

(** Some character of [s] is not white space. *)
Fixpoint has_nonspace (s : string) : bool :=
  match s with
  | EmptyString => false
  | String c r => negb (is_space c) || has_nonspace r
  end.

Section Persistence.
Context {F : FloatOps}.

(** [_load_embeddings]: the mapping in the file; a missing file gives the
    empty mapping, and so does a file that does not parse (the exception
    is logged and swallowed). *)
Definition _load_embeddings (file : FileState) : Store :=
  match file with
  | FileHolds data => data
  | FileAbsent => []
  | FileDamaged => []
  end.

(** [VectorStore.__init__] in a new process, once the API key is found:
    the mapping is loaded from the file the previous process left. *)
Definition start_store (file : FileState) : VectorStore :=
  {| embeddings_data := _load_embeddings file;
     storage_file := file;
     events := [] |}.

End Persistence.

Section ChunkingStrategy.
Variable tok : Tokenizer.

(** The [while start < len(tokens)] loop of
    [ChunkingStrategy.fixed_size_chunking]; [fuel] bounds the number of
    turns, [None] tells that the loop was still running when it ran out. *)
Fixpoint fixed_size_loop (fuel : nat) (tokens : list (token tok))
         (chunk_size overlap start : Z) (chunks : list string)
  : option (list string) :=
  match fuel with
  | O => None
  | S fuel =>
      let len := Z.of_nat (length tokens) in
      if (start <? len)%Z then
        let end_ := Z.min (start + chunk_size) len in
        let chunk_tokens := slice tokens start end_ in
        let chunk_text := decode tok chunk_tokens in
        let chunks := chunks ++ [chunk_text] in
        let start := if (end_ <? len)%Z then (end_ - overlap)%Z else end_ in
        fixed_size_loop fuel tokens chunk_size overlap start chunks
      else Some chunks
  end.

Definition fixed_size_chunking (fuel : nat) (text : string)
           (chunk_size overlap : Z) : option (list string) :=
  fixed_size_loop fuel (encode tok text) chunk_size overlap 0 [].

End ChunkingStrategy.

Section LLMHelpers.
Context {F : FloatOps}.
Variable llm : LLMEnv.

Definition AttributeError : exn :=
  Exception "AttributeError" "'NoneType' object has no attribute 'strip'".

(** The [try] block of [generate_embedding_summary]; the request names no
    response format, which is the plain text one. *)
Definition generate_embedding_summary_body (text : string) : result string :=
  match chat_completions_create llm
          {| req_model := model;
             req_messages :=
               [("system",
                 "Create a brief, informative summary of the following text in 1-2 sentences.");
                ("user", text)];
             req_max_tokens := 100;
             req_response_format := "text" |} with
  | Raise e => Raise e
  | Ok [] => Raise IndexError
  | Ok (None :: _) => Raise AttributeError
  | Ok (Some content :: _) => Ok (strip content)
  end.

Definition generate_embedding_summary (text : string) : string :=
  match generate_embedding_summary_body text with
  | Ok summary => summary
  | Raise _ => text_preview text
  end.

Definition validate_question_prompt : string :=
  let pad := "                        " in
  join nl
    [ "Analyze the given question and provide feedback on its quality for document search.";
      pad ++ "Respond in JSON format with:";
      pad ++ "{";
      pad ++ "    " ++ dq ++ "is_valid" ++ dq ++ ": true/false,";
      pad ++ "    " ++ dq ++ "improved_question" ++ dq ++ ": " ++ dq
          ++ "improved version if needed" ++ dq ++ ",";
      pad ++ "    " ++ dq ++ "suggestions" ++ dq ++ ": [" ++ dq
          ++ "list of suggestions for better results" ++ dq ++ "]";
      pad ++ "}" ]%string.

(** The [try] block of [validate_question]: the parsed value is returned
    as it is, whatever its shape. *)
Definition validate_question_body (question : string) : result pyval :=
  match chat_completions_create llm
          {| req_model := model;
             req_messages :=
               [("system", validate_question_prompt);
                ("user", ("Question: " ++ question)%string)];
             req_max_tokens := 200;
             req_response_format := "json_object" |} with
  | Raise e => Raise e
  | Ok [] => Raise IndexError
  | Ok (None :: _) =>
      Raise (Exception "TypeError"
               "the JSON object must be str, bytes or bytearray, not NoneType")
  | Ok (Some content :: _) => json_loads llm content
  end.

Definition validate_question (question : string) : pyval :=
  match validate_question_body question with
  | Ok verdict => verdict
  | Raise _ =>
      PDict [ ("is_valid", PBool true);
              ("improved_question", PStr question);
              ("suggestions", PList []) ]
  end.

End LLMHelpers.

(** A JSON response of a view: the status code and the body. *)
Record ApiResponse {F : FloatOps} : Type := {
  api_status : Z;
  api_body : dict string pyval
}.

Section QueryViews.
Context {F : FloatOps}.

(** What the query and delete views are given from outside: the store's
    collaborators, the chat client, the title column of the document rows,
    the time the clock measured, and the outcomes of removing the uploaded
    file and of deleting the document row. *)
Record QueryEnv : Type := {
  q_store_env : Env;
  q_llm : LLMEnv;
  q_title : Z -> string;
  q_elapsed : float;
  q_remove_file : Z -> option exn;
  q_delete_row : Z -> option exn
}.

Variable qenv : QueryEnv.

(** [QueryRequestSerializer.validate_document_id] *)
Definition validate_document_id (value : Z) (db : Database) : result Z :=
  match dict_get value (db_documents db) with
  | None => Raise (Exception "ValidationError" "Document not found.")
  | Some document =>
      if doc_status document =? "processed" then Ok value
      else Raise (Exception "ValidationError"
                    ("Document is not ready for querying. Status: "
                       ++ doc_status document)%string)
  end.

Definition failure_body (error : string) (details : list (string * pyval))
  : dict string pyval :=
  [("success", PBool false); ("error", PStr error)] ++ details.

(** [d.get(key, default)] on the answer dictionary. *)
Definition get_or (key : string) (default : pyval) (d : dict string pyval)
  : pyval :=
  match dict_get key d with Some v => v | None => default end.

(** [query_document] from the point where the request data is valid:
    [document_id], [question] and [num_chunks] are the validated values. *)
Definition query_document (document_id : Z) (question : string)
           (num_chunks : Z) (sys : System) : System * ApiResponse :=
  match dict_get document_id (db_documents (sys_db sys)) with
  | None =>
      (sys, {| api_status := 404;
               api_body := failure_body "Document not found" [] |})
  | Some document =>
      if negb (doc_status document =? "processed") then
        (sys, {| api_status := 400;
                 api_body :=
                   failure_body
                     ("Document is not ready for querying. Status: "
                        ++ doc_status document)%string [] |})
      else
        match search_similar_chunks (q_store_env qenv) question document_id
                                    num_chunks (sys_store sys) with
        | (vs, Raise e) =>
            (with_store vs sys,
             {| api_status := 500;
                api_body :=
                  failure_body "Failed to process query"
                    [("details", PStr (exn_msg e));
                     ("processing_time",
                      PFloat (fround 2 (q_elapsed qenv)))] |})
        | (vs, Ok []) =>
            (with_store vs sys,
             {| api_status := 404;
                api_body :=
                  failure_body "No relevant content found for your question"
                               [] |})
        | (vs, Ok similar_chunks) =>
            let llm_response :=
              generate_answer (q_llm qenv) question similar_chunks
                              (q_title qenv document_id) in
            (with_store vs sys,
             {| api_status := 200;
                api_body :=
                  [ ("success", PBool true);
                    ("answer",
                     get_or "answer" (PStr "No answer generated") llm_response);
                    ("confidence",
                     get_or "confidence" (PFloat fzero) llm_response);
                    ("reasoning", get_or "reasoning" (PStr "") llm_response);
                    ("sources", get_or "sources" (PList []) llm_response);
                    ("processing_time", PFloat (fround 2 (q_elapsed qenv)));
                    ("document_title", PStr (q_title qenv document_id));
                    ("chunks_used",
                     PInt (Z.of_nat (length similar_chunks))) ] |})
        end
  end.

(** [document.delete()]: the row goes, and the chunk rows with it
    ([on_delete=CASCADE]). *)
Definition delete_row (document_id : Z) (db : Database) : Database :=
  {| db_documents :=
       match dict_del document_id (db_documents db) with
       | Some d => d
       | None => db_documents db
       end;
     db_chunks :=
       filter (fun c => negb (dc_document c =? document_id)%Z) (db_chunks db);
     db_writes := S (db_writes db) |}.

(** [delete_document] *)
Definition delete_document (document_id : Z) (sys : System)
  : System * ApiResponse :=
  match dict_get document_id (db_documents (sys_db sys)) with
  | None =>
      (sys, {| api_status := 404;
               api_body := failure_body "Document not found" [] |})
  | Some document =>
      let failed (sys : System) (e : exn) :=
        (sys, {| api_status := 500;
                 api_body :=
                   failure_body "Failed to delete document"
                                [("details", PStr (exn_msg e))] |}) in
      match delete_document_chunks (q_store_env qenv) document_id
                                   (sys_store sys) with
      | (vs, Raise e) => failed (with_store vs sys) e
      | (vs, Ok _) =>
          let sys := with_store vs sys in
          match q_remove_file qenv document_id with
          | Some e => failed sys e
          | None =>
              match q_delete_row qenv document_id with
              | Some e => failed sys e
              | None =>
                  (with_db (delete_row document_id (sys_db sys)) sys,
                   {| api_status := 200;
                      api_body :=
                        [ ("success", PBool true);
                          ("message",
                           PStr "Document deleted successfully") ] |})
              end
          end
      end
  end.

End QueryViews.

(** ** More vocabulary and configurations *)

(** [0, 1, ..., n-1] as Python [int]s. *)
Definition indices (n : nat) : list Z := map Z.of_nat (seq 0 n).

(** What a chunk built from a trimmed buffer with text in it looks like:
    the given document id, the token count of its own text, a non-empty
    page list, a text that is not blank and has no white space at either
    end. *)
Definition sound_chunk (self : DocumentProcessor) (document_id : Z)
           (c : Chunk) : Prop :=
  c_document_id c = document_id
  /\ c_token_count c = Some (count_tokens self (c_text c))
  /\ (exists pages, c_page_numbers c = Some pages /\ pages <> [])
  /\ has_nonspace (c_text c) = true
  /\ strip (c_text c) = c_text c.

(** The state of the loop of [chunk_text] between two turns. *)
Definition chunking_invariant (self : DocumentProcessor) (document_id : Z)
           (st : Chunking) : Prop :=
  Forall (sound_chunk self document_id) (chunks st)
  /\ map c_chunk_index (chunks st) = indices (length (chunks st))
  /\ chunk_index st = Z.of_nat (length (chunks st))
  /\ (current_chunk st = EmptyString
      \/ has_nonspace (current_chunk st) = true).

(** The token counts of the sentences, added up. *)
Definition total_tokens (self : DocumentProcessor) (sentences : list string)
  : Z :=
  fold_right Z.add 0%Z (map (count_tokens self) sentences).

(** The page count of an extraction that returned. *)
Definition snd_page_count (r : result (string * Z)) : option Z :=
  match r with Ok (_, n) => Some n | Raise _ => None end.

(** A page whose extraction raised, seen as a page without text. *)
Definition blank_if_failed (page : result string) : result string :=
  match page with
  | Ok page_text => Ok page_text
  | Raise _ => Ok EmptyString
  end.

(** The page gives no text: extraction raised, or only white space. *)
Definition no_text (page : result string) : Prop :=
  match page with
  | Ok page_text => has_nonspace page_text = false
  | Raise _ => True
  end.

(** The chunk is the decoding of at most [chunk_size] tokens. *)
Definition decodes_at_most (tok : Tokenizer) (chunk_size : Z)
           (chunk : string) : Prop :=
  exists tokens : list (token tok),
    chunk = decode tok tokens /\ (Z.of_nat (length tokens) <= chunk_size)%Z.

(** The request that [generate_answer] sends. *)
Definition answer_request {F : FloatOps} (question : string)
           (context_chunks : list SimilarChunk) (document_title : string)
  : ChatRequest :=
  {| req_model := model;
     req_messages :=
       [("system", _create_system_prompt);
        ("user", _create_user_prompt question
                   (_prepare_context context_chunks) document_title)];
     req_max_tokens := max_tokens;
     req_response_format := "json_object" |}.

(** The operation ran to its end. *)
Definition completed {F : FloatOps} (env : Env) (op : Operation)
           (vs : VectorStore) : Prop :=
  match op with
  | AddChunks chunks =>
      chunks <> [] /\ is_ok (snd (add_chunks env chunks vs)) = true
  | DeleteDocumentChunks _ => dict_wf (embeddings_data vs)
  | ResetCollection => True
  end.

(** The key that [add_chunks] gives a chunk. *)
Definition key_of {F : FloatOps} (c : Chunk) : string :=
  chunk_id_of (c_document_id c) (c_chunk_index c).

(** The number of different values in a list of [int]s. *)
Definition distinct_count (l : list Z) : nat := length (nodup Z.eq_dec l).

(** A PDF with the given outcome of [extract_text] for each page. *)
Definition pdf_of (pages : list (result string)) : UploadedFile :=
  {| read_txt := Raise (Exception "UnicodeDecodeError" "");
     read_pdf := Ok pages;
     read_docx := Raise (Exception "BadZipFile" "File is not a zip file") |}.

Definition bad_second_page : list (result string) :=
  [Ok "One."; Raise (Exception "PdfReadError" "bad page"); Ok "Three."].

(** A search result for the first chunk of document 1. *)
Definition sample_result : @SimilarChunk IntFloat :=
  {| s_id := "doc_1_chunk_0"; s_text := "alpha";
     s_similarity := (1%Z : @float IntFloat); s_chunk_index := 0;
     s_page_numbers := [1%Z]; s_token_count := 1 |}.

(** The two chunks of document 1. *)
Definition sample_batch : list Chunk :=
  [plain_chunk 1 0 "alpha"; plain_chunk 1 1 "beta"].

(** An embedding client that answers with one vector whatever the batch. *)
Definition short_env : @Env IntFloat :=
  {| embeddings_create := fun _ _ => Ok [unit_vector];
     file_write := fun _ _ => Written |}.

(** An embedding client that is unreachable. *)
Definition down_env : @Env IntFloat :=
  {| embeddings_create :=
       fun _ _ => Raise (Exception "APIConnectionError" "Connection error.");
     file_write := fun _ _ => Written |}.

(** A chat client that answers with an object carrying its own sources. *)
Definition answering_llm : @LLMEnv IntFloat :=
  {| chat_completions_create := fun _ => Ok [Some "{...}"];
     json_loads := fun _ =>
       Ok (PDict [("answer", PStr "Forty-two.");
                  ("sources", PStr "made up")]) |}.

Definition sample_query_env : @QueryEnv IntFloat :=
  {| q_store_env := unit_env;
     q_llm := answering_llm;
     q_title := fun _ => "Report";
     q_elapsed := 0%Z;
     q_remove_file := fun _ => None;
     q_delete_row := fun _ => None |}.

(** The same with the chat client unreachable. *)
Definition degraded_query_env : @QueryEnv IntFloat :=
  {| q_store_env := unit_env;
     q_llm := unreachable_llm;
     q_title := fun _ => "Report";
     q_elapsed := 0%Z;
     q_remove_file := fun _ => None;
     q_delete_row := fun _ => None |}.

(** The sample upload, processed. *)
Definition processed_system : @System IntFloat :=
  fst (fst (upload_document healthy_env small_processor
                            sample_document sample_system)).

(** An upload with no sentence in it. *)
Definition blank_document : Document :=
  {| doc_id := 1;
     doc_file :=
       {| read_txt := Ok " ... ";
          read_pdf := Raise (Exception "PdfReadError" "EOF marker not found");
          read_docx := Raise (Exception "BadZipFile" "File is not a zip file") |};
     doc_file_type := "txt";
     doc_page_count := 0;
     doc_status := "processing";
     doc_error_message := None |}.

(* ================================================================== *)
(** * Facts about dictionaries and lists *)
(* ================================================================== *)

Ltac key_cases a b :=
  let E := fresh "E" in
  destruct (key_eqb_spec a b) as [E | E]; [try subst | idtac].

Section DictFacts.
Context {K V : Type} `{Key K}.
Implicit Types (d : dict K V) (k : K) (v : V).

Lemma key_eqb_refl k : key_eqb k k = true.
Proof. key_cases k k; congruence. Qed.

Lemma dict_set_keys_present k v d :
  In k (dict_keys d) -> dict_keys (dict_set k v d) = dict_keys d.
Proof.
  induction d as [| [k' v'] r IH]; simpl; intros Hin.
  - contradiction.
  - key_cases k k'; simpl; [reflexivity |].
    f_equal. apply IH. destruct Hin; congruence.
Qed.

Lemma dict_set_keys_absent k v d :
  ~ In k (dict_keys d) -> dict_keys (dict_set k v d) = dict_keys d ++ [k].
Proof.
  induction d as [| [k' v'] r IH]; simpl; intros Hnin.
  - reflexivity.
  - key_cases k k'; simpl.
    + exfalso. apply Hnin. now left.
    + f_equal. apply IH. intros Hin. apply Hnin. now right.
Qed.

Lemma dict_set_key_in k v d : In k (dict_keys (dict_set k v d)).
Proof.
  induction d as [| [k' v'] r IH]; simpl.
  - now left.
  - key_cases k k'; simpl; [now left | now right].
Qed.

Lemma dict_set_keys_incl k v d k' :
  In k' (dict_keys d) -> In k' (dict_keys (dict_set k v d)).
Proof.
  induction d as [| [k0 v0] r IH]; simpl; intros Hin.
  - contradiction.
  - key_cases k k0; simpl; destruct Hin; auto.
Qed.

Lemma dict_set_wf k v d : dict_wf d -> dict_wf (dict_set k v d).
Proof.
  unfold dict_wf. intros Hwf.
  destruct (in_dec (fun a b => reflect_dec _ _ (key_eqb_spec a b))
                   k (dict_keys d)) as [Hin | Hnin].
  - now rewrite dict_set_keys_present.
  - rewrite dict_set_keys_absent by assumption.
    apply NoDup_app; [assumption | repeat constructor; intros [] | ].
    intros x Hx [Hk | []]. subst. contradiction.
Qed.

Lemma dict_set_In k v d k' v' :
  In (k', v') (dict_set k v d) -> (k' = k /\ v' = v) \/ In (k', v') d.
Proof.
  induction d as [| [k0 v0] r IH]; simpl.
  - intros [E | []]. inversion E. now left.
  - key_cases k k0; simpl; intros [Q | Hin].
    + inversion Q. now left.
    + right. now right.
    + right. now left.
    + destruct (IH Hin); [now left | right; now right].
Qed.

Lemma dict_set_Forall (P : K * V -> Prop) k v d
      (Hext : forall k', k' = k -> P (k', v)) :
  Forall P d -> Forall P (dict_set k v d).
Proof.
  induction 1 as [| [k0 v0] r Hx Hr IH]; simpl.
  - constructor; [now apply Hext | constructor].
  - key_cases k k0; constructor; auto.
Qed.

Lemma dict_set_length_present k v d :
  In k (dict_keys d) -> length (dict_set k v d) = length d.
Proof.
  intros Hin.
  rewrite <- (length_map fst (dict_set k v d)), <- (length_map fst d).
  change (map fst (dict_set k v d)) with (dict_keys (dict_set k v d)).
  now rewrite dict_set_keys_present.
Qed.

Lemma dict_get_in k d :
  In k (dict_keys d) -> exists v, dict_get k d = Some v /\ In (k, v) d.
Proof.
  induction d as [| [k0 v0] r IH]; simpl; intros Hin.
  - contradiction.
  - key_cases k k0.
    + exists v0. split; [reflexivity | now left].
    + destruct Hin as [E' | Hin]; [congruence |].
      destruct (IH Hin) as (v & Hv & Hm). exists v. split; [assumption | now right].
Qed.

Lemma dict_wf_unique k v v' d :
  dict_wf d -> In (k, v) d -> In (k, v') d -> v = v'.
Proof.
  unfold dict_wf. induction d as [| [k0 v0] r IH]; simpl; intros Hwf H1 H2.
  - contradiction.
  - inversion Hwf as [| ? ? Hnin Hr]; subst.
    destruct H1 as [E1 | H1], H2 as [E2 | H2].
    + congruence.
    + inversion E1; subst. exfalso. apply Hnin.
      change k with (fst (k, v')). now apply in_map.
    + inversion E2; subst. exfalso. apply Hnin.
      change k with (fst (k, v)). now apply in_map.
    + now apply IH.
Qed.

End DictFacts.

Lemma Forall_filter {A} (P : A -> Prop) (f : A -> bool) (l : list A) :
  Forall P l -> Forall P (filter f l).
Proof.
  induction 1; simpl; [constructor |].
  destruct (f x); [constructor |]; assumption.
Qed.

Lemma NoDup_map_filter {A B} (g : A -> B) (f : A -> bool) (l : list A) :
  NoDup (map g l) -> NoDup (map g (filter f l)).
Proof.
  induction l as [| x r IH]; simpl; intros Hnd; [constructor |].
  inversion Hnd as [| ? ? Hnin Hr]; subst.
  destruct (f x); simpl; [constructor |]; auto.
  intros Hin. apply Hnin. apply in_map_iff in Hin as (y & Hy & Hin).
  apply filter_In in Hin as [Hin _]. apply in_map_iff. eauto.
Qed.

Lemma StronglySorted_firstn {A} (R : A -> A -> Prop) (n : nat) (l : list A) :
  StronglySorted R l -> StronglySorted R (firstn n l).
Proof.
  intros Hs. revert n.
  induction Hs as [| x r Hr IH Hx]; intros [| n]; simpl; try constructor.
  - apply IH.
  - apply Forall_forall. intros y Hy.
    eapply Forall_forall in Hx; [eassumption |].
    rewrite <- (firstn_skipn n r). apply in_or_app. now left.
Qed.

Lemma StronglySorted_map {A B} (R : B -> B -> Prop) (g : A -> B) (l : list A) :
  StronglySorted (fun a b => R (g a) (g b)) l -> StronglySorted R (map g l).
Proof.
  induction 1 as [| x r Hr IH Hx]; simpl; constructor; [assumption |].
  apply Forall_forall. intros y Hy.
  apply in_map_iff in Hy as (z & <- & Hz).
  eapply Forall_forall in Hx; eassumption.
Qed.

Lemma append_assoc (a b c : string) :
  ((a ++ b) ++ c = a ++ (b ++ c))%string.
Proof. induction a; simpl; congruence. Qed.

(* ================================================================== *)
(** * The vector store *)
(* ================================================================== *)

Ltac str_cases a b :=
  let E := fresh "E" in
  cbn [key_eqb string_Key] in *;
  destruct (String.eqb_spec a b) as [E | E]; [try subst | idtac].

Section VectorStoreFacts.
Context {F : FloatOps}.
Variable env : Env.

(** C10.  [add_chunks] on an empty batch returns the empty list at once:
    the state that comes back is the one that went in, so no request went
    to the embedding client (the event log is the same), and the mapping
    and the file are untouched. *)
Theorem add_chunks_empty_batch (vs : VectorStore) :
  add_chunks env [] vs = (vs, Ok [])
  /\ events (fst (add_chunks env [] vs)) = events vs
  /\ embeddings_data (fst (add_chunks env [] vs)) = embeddings_data vs
  /\ storage_file (fst (add_chunks env [] vs)) = storage_file vs.
Proof. repeat split. Qed.

(** ** Deleting *)

Lemma delete_keys_cons (ks : list string) k (v : EmbeddingRecord) (d : Store) :
  ~ In k ks ->
  delete_keys ks ((k, v) :: d)
  = match delete_keys ks d with
    | Ok d' => Ok ((k, v) :: d')
    | Raise e => Raise e
    end.
Proof.
  revert d. induction ks as [| k0 ks IH]; intros d Hnin; simpl.
  - reflexivity.
  - str_cases k0 k.
    + exfalso. apply Hnin. now left.
    + destruct (dict_del k0 d) as [d' |]; [| reflexivity].
      apply IH. intros Hin. apply Hnin. now right.
Qed.

Lemma delete_keys_filter (p : string * EmbeddingRecord -> bool) (d : Store) :
  dict_wf d ->
  delete_keys (dict_keys (filter p d)) d = Ok (filter (fun kv => negb (p kv)) d).
Proof.
  unfold dict_wf.
  induction d as [| [k v] r IH]; simpl; intros Hwf; [reflexivity |].
  inversion Hwf as [| ? ? Hnin Hr]; subst.
  destruct (p (k, v)) eqn:Hp; simpl.
  - cbn [key_eqb string_Key]. rewrite String.eqb_refl. now apply IH.
  - rewrite delete_keys_cons.
    + now rewrite (IH Hr).
    + intros Hin. apply Hnin.
      unfold dict_keys in Hin. apply in_map_iff in Hin as (y & Hy & Hin).
      apply filter_In in Hin as [Hin _]. apply in_map_iff. eauto.
Qed.

Lemma records_of_none_left (document_id : Z) (d : Store) :
  records_of document_id
    (filter (fun kv => negb (r_document_id (snd kv) =? document_id)%Z) d) = [].
Proof.
  unfold records_of. induction d as [| [k v] r IH]; simpl; [reflexivity |].
  destruct (r_document_id v =? document_id)%Z eqn:E; simpl; [assumption |].
  now rewrite E.
Qed.

Lemma records_of_others_kept (document_id other : Z) (d : Store) :
  other <> document_id ->
  records_of other
    (filter (fun kv => negb (r_document_id (snd kv) =? document_id)%Z) d)
  = records_of other d.
Proof.
  intros Hne. unfold records_of.
  induction d as [| [k v] r IH]; simpl; [reflexivity |].
  destruct (r_document_id v =? document_id)%Z eqn:E; simpl.
  - apply Z.eqb_eq in E.
    destruct (r_document_id v =? other)%Z eqn:E'; [| assumption].
    apply Z.eqb_eq in E'. congruence.
  - now rewrite IH.
Qed.

Lemma filter_none_matching {A} (p : A -> bool) (l : list A) :
  filter p l = [] -> filter (fun x => negb (p x)) l = l.
Proof.
  induction l as [| x r IH]; simpl; [reflexivity |].
  destruct (p x); simpl; intros E; [discriminate | f_equal; auto].
Qed.

(** C5, as the code has it.  On a well-formed mapping
    [delete_document_chunks] never raises and removes exactly the records
    whose [document_id] matches: none of them is left, the records of every
    other document stay as they were.  What it returns is a boolean, true
    exactly when at least one record was removed; with no record of the
    document the mapping is unchanged and the value is [False]. *)
Theorem delete_document_chunks_removes (document_id : Z) (vs : VectorStore) :
  dict_wf (embeddings_data vs) ->
  exists vs',
    delete_document_chunks env document_id vs
    = (vs', Ok (0 <? length (records_of document_id (embeddings_data vs)))%nat)
    /\ embeddings_data vs'
       = filter (fun kv => negb (r_document_id (snd kv) =? document_id)%Z)
                (embeddings_data vs)
    /\ records_of document_id (embeddings_data vs') = []
    /\ (forall other, other <> document_id ->
          records_of other (embeddings_data vs')
          = records_of other (embeddings_data vs))
    /\ (records_of document_id (embeddings_data vs) = [] ->
          embeddings_data vs' = embeddings_data vs
          /\ snd (delete_document_chunks env document_id vs) = Ok false).
Proof.
  intros Hwf. unfold delete_document_chunks.
  rewrite (delete_keys_filter _ Hwf). eexists. split; [| split; [| split; [| split]]].
  - unfold dict_keys, records_of. rewrite length_map. reflexivity.
  - reflexivity.
  - simpl. apply records_of_none_left.
  - intros other Hne. simpl. now apply records_of_others_kept.
  - intros Hnone. simpl. split.
    + now apply filter_none_matching.
    + unfold records_of in Hnone. unfold dict_keys. now rewrite Hnone.
Qed.

(** ** Keys and records stay consistent *)

Lemma store_chunks_consistent data i chunks (d : Store) ids :
  key_consistent d ->
  key_consistent (fst (store_chunks data i chunks d ids)).
Proof.
  revert d i ids. induction chunks as [| c rest IH]; intros d i ids Hd; simpl.
  - assumption.
  - destruct (nth_error data i) as [emb |]; [| assumption].
    apply IH. apply dict_set_Forall; [| assumption].
    intros k' ->. reflexivity.
Qed.

Lemma add_chunks_shape chunks (vs : VectorStore) :
  (exists e, snd (add_chunks env chunks vs) = Raise e
             /\ embeddings_data (fst (add_chunks env chunks vs))
                = embeddings_data vs)
  \/ (exists data,
         embeddings_data (fst (add_chunks env chunks vs))
         = fst (store_chunks data 0 chunks (embeddings_data vs) [])
         /\ snd (add_chunks env chunks vs)
            = snd (store_chunks data 0 chunks (embeddings_data vs) [])).
Proof.
  destruct chunks as [| c rest].
  - right. exists []. split; reflexivity.
  - unfold add_chunks.
    destruct (embeddings_create env (events vs) (map c_text (c :: rest)))
      as [data | e].
    + right. exists data.
      change (embeddings_data (log _ vs)) with (embeddings_data vs).
      destruct (store_chunks data 0 (c :: rest) (embeddings_data vs) [])
        as [d [ids | e]]; split; reflexivity.
    + left. exists e. split; reflexivity.
Qed.

Lemma add_chunks_consistent chunks (vs : VectorStore) :
  key_consistent (embeddings_data vs) ->
  key_consistent (embeddings_data (fst (add_chunks env chunks vs))).
Proof.
  intros Hc. destruct (add_chunks_shape chunks vs) as [(e & _ & ->) | (data & -> & _)].
  - assumption.
  - now apply store_chunks_consistent.
Qed.

Lemma dict_del_Forall (P : string * EmbeddingRecord -> Prop) k (d d' : Store) :
  dict_del k d = Some d' -> Forall P d -> Forall P d'.
Proof.
  revert d'. induction d as [| [k0 v0] r IH]; simpl; intros d' Hdel Hall.
  - discriminate.
  - inversion Hall as [| ? ? Hx Hr]; subst.
    str_cases k k0.
    + now inversion Hdel; subst.
    + destruct (dict_del k r) as [r' |]; [| discriminate].
      inversion Hdel; subst. constructor; auto.
Qed.

Lemma delete_keys_Forall (P : string * EmbeddingRecord -> Prop) ks (d d' : Store) :
  delete_keys ks d = Ok d' -> Forall P d -> Forall P d'.
Proof.
  revert d. induction ks as [| k ks IH]; simpl; intros d Hdel Hall.
  - now inversion Hdel; subst.
  - destruct (dict_del k d) as [d1 |] eqn:E; [| discriminate].
    eapply IH; [eassumption |]. eapply dict_del_Forall; eassumption.
Qed.

Lemma delete_consistent document_id (vs : VectorStore) :
  key_consistent (embeddings_data vs) ->
  key_consistent
    (embeddings_data (fst (delete_document_chunks env document_id vs))).
Proof.
  intros Hc. unfold delete_document_chunks.
  destruct (delete_keys _ (embeddings_data vs)) as [d |] eqn:E; simpl.
  - eapply delete_keys_Forall; eassumption.
  - assumption.
Qed.

Lemma run_operation_consistent (vs : VectorStore) (op : Operation) :
  key_consistent (embeddings_data vs) ->
  key_consistent (embeddings_data (run_operation env vs op)).
Proof.
  intros Hc. destruct op as [chunks | document_id |]; simpl.
  - now apply add_chunks_consistent.
  - now apply delete_consistent.
  - constructor.
Qed.

(** C9.  In every store reached from the empty one by [add_chunks],
    [delete_document_chunks] and [reset_collection], whatever the embedding
    client and the disk answer, each key is [doc_<d>_chunk_<i>] for the
    [document_id] d and [chunk_index] i of the record under it; and each
    of the three operations keeps that property of any store that has it. *)
Theorem keys_match_records :
  (forall ops : list Operation,
      key_consistent (embeddings_data (run_operations env ops empty_store)))
  /\ (forall (vs : VectorStore) (op : Operation),
         key_consistent (embeddings_data vs) ->
         key_consistent (embeddings_data (run_operation env vs op))).
Proof.
  split; [| apply run_operation_consistent].
  intros ops. unfold run_operations.
  assert (Hstart : key_consistent (embeddings_data empty_store))
    by constructor.
  revert Hstart. generalize empty_store.
  induction ops as [| op ops IH]; intros vs Hvs; simpl.
  - assumption.
  - apply IH. now apply run_operation_consistent.
Qed.


(** ** The key is a faithful name of (document id, chunk index) *)

Lemma split_at_mark (c : ascii) (a a' x x' : string) :
  free_of c a -> free_of c a' ->
  (a ++ String c x = a' ++ String c x')%string -> a = a' /\ x = x'.
Proof.
  revert a'. induction a as [| h a IH]; intros [| h' a']; simpl;
    intros Ha Ha' E.
  - now inversion E.
  - inversion E; subst. now destruct Ha'.
  - inversion E; subst. now destruct Ha.
  - inversion E; subst. destruct Ha, Ha'.
    destruct (IH a') as [-> ->]; auto.
Qed.

Lemma string_of_uint_free d : free_of "_" (NilEmpty.string_of_uint d).
Proof. induction d; simpl; auto; split; auto; discriminate. Qed.

Lemma str_int_free z : free_of "_" (str_int z).
Proof.
  unfold str_int, NilZero.string_of_int, NilZero.string_of_uint.
  destruct (Z.to_int z) as [d | d]; destruct d; simpl;
    repeat split; try discriminate; apply string_of_uint_free.
Qed.

Lemma to_int_proper z :
  Z.to_int z <> Decimal.Pos Decimal.Nil /\ Z.to_int z <> Decimal.Neg Decimal.Nil.
Proof.
  destruct z as [| p | p]; simpl; split; try discriminate;
    intros E; inversion E as [E'];
    now apply Unsigned.to_uint_nonnil in E'.
Qed.

Lemma str_int_inj a b : str_int a = str_int b -> a = b.
Proof.
  unfold str_int. intros E.
  apply DecimalZ.to_int_inj.
  destruct (to_int_proper a) as [Ha1 Ha2], (to_int_proper b) as [Hb1 Hb2].
  apply (f_equal NilZero.int_of_string) in E.
  rewrite !NilZero.isi in E by assumption. now inversion E.
Qed.

Lemma chunk_id_of_inj d i d' i' :
  chunk_id_of d i = chunk_id_of d' i' -> d = d' /\ i = i'.
Proof.
  unfold chunk_id_of. simpl. intros E.
  injection E as E.
  apply split_at_mark in E as [Ed Ei]; try apply str_int_free.
  injection Ei as Ei.
  split; now apply str_int_inj.
Qed.

(** ** Adding *)

Lemma store_chunks_keys_present data i chunks (d : Store) ids :
  (forall c, In c chunks ->
             In (chunk_id_of (c_document_id c) (c_chunk_index c))
                (dict_keys d)) ->
  dict_keys (fst (store_chunks data i chunks d ids)) = dict_keys d.
Proof.
  revert d i ids. induction chunks as [| c rest IH]; intros d i ids Hin; simpl.
  - reflexivity.
  - destruct (nth_error data i) as [emb |]; [| reflexivity].
    rewrite IH.
    + apply dict_set_keys_present. apply Hin. now left.
    + intros c' Hc'. apply dict_set_keys_incl. apply Hin. now right.
Qed.

Lemma store_chunks_keys_incl data i chunks (d : Store) ids k :
  In k (dict_keys d) ->
  In k (dict_keys (fst (store_chunks data i chunks d ids))).
Proof.
  revert d i ids. induction chunks as [| c rest IH]; intros d i ids Hin; simpl.
  - assumption.
  - destruct (nth_error data i) as [emb |]; [| assumption].
    apply IH. now apply dict_set_keys_incl.
Qed.

Lemma store_chunks_ok data i chunks (d d' : Store) ids ids' :
  store_chunks data i chunks d ids = (d', Ok ids') ->
  ids' = ids ++ map (fun c => chunk_id_of (c_document_id c) (c_chunk_index c))
                    chunks
  /\ (forall c, In c chunks ->
                In (chunk_id_of (c_document_id c) (c_chunk_index c))
                   (dict_keys d')).
Proof.
  revert d i ids. induction chunks as [| c rest IH]; intros d i ids E; simpl in *.
  - inversion E; subst. rewrite app_nil_r. split; [reflexivity | intros c []].
  - destruct (nth_error data i) as [emb |] eqn:Hnth; [| discriminate].
    pose proof E as E'. apply IH in E as (-> & Hkeys).
    rewrite <- app_assoc. split; [reflexivity |].
    intros c' [<- | Hc']; [| now apply Hkeys].
    replace d' with (fst (store_chunks data (S i) rest
       (dict_set (chunk_id_of (c_document_id c) (c_chunk_index c))
                 (record_of emb c) d)
       (ids ++ [chunk_id_of (c_document_id c) (c_chunk_index c)])))
      by now rewrite E'.
    apply store_chunks_keys_incl, dict_set_key_in.
Qed.

Lemma store_chunks_wf data i chunks (d : Store) ids :
  dict_wf d -> dict_wf (fst (store_chunks data i chunks d ids)).
Proof.
  revert d i ids. induction chunks as [| c rest IH]; intros d i ids Hwf; simpl.
  - assumption.
  - destruct (nth_error data i) as [emb |]; [| assumption].
    apply IH. now apply dict_set_wf.
Qed.

Lemma add_chunks_wf chunks (vs : VectorStore) :
  dict_wf (embeddings_data vs) ->
  dict_wf (embeddings_data (fst (add_chunks env chunks vs))).
Proof.
  intros Hwf.
  destruct (add_chunks_shape chunks vs) as [(e & _ & ->) | (data & -> & _)].
  - assumption.
  - now apply store_chunks_wf.
Qed.

Lemma no_key_no_record document_id chunk_index (d : Store) :
  key_consistent d ->
  ~ In (chunk_id_of document_id chunk_index) (dict_keys d) ->
  filter (has_fields document_id chunk_index) d = [].
Proof.
  induction 1 as [| [k r] rest Hk Hrest IH]; simpl; intros Hnin; [reflexivity |].
  unfold has_fields at 1. simpl in *.
  destruct (r_document_id r =? document_id)%Z eqn:Ed;
    destruct (r_chunk_index r =? chunk_index)%Z eqn:Ei; simpl; auto.
  apply Z.eqb_eq in Ed, Ei. subst document_id chunk_index.
  exfalso. apply Hnin. now left.
Qed.

Lemma one_record_per_key document_id chunk_index (d : Store) :
  dict_wf d -> key_consistent d ->
  In (chunk_id_of document_id chunk_index) (dict_keys d) ->
  length (filter (has_fields document_id chunk_index) d) = 1.
Proof.
  unfold dict_wf. intros Hwf Hc. revert Hwf.
  induction Hc as [| [k r] rest Hk Hrest IH]; simpl; intros Hwf Hin;
    [contradiction |].
  inversion Hwf as [| ? ? Hnin Hnd]; subst. simpl in *.
  unfold has_fields at 1. simpl.
  destruct Hin as [Hhere | Hlater].
  - pose proof Hhere as Hh. rewrite Hk in Hh.
    apply chunk_id_of_inj in Hh as [Hd Hi].
    rewrite Hd, Hi, !Z.eqb_refl. simpl.
    rewrite no_key_no_record;
      [reflexivity | assumption | rewrite <- Hhere; assumption].
  - destruct (r_document_id r =? document_id)%Z eqn:Ed;
      destruct (r_chunk_index r =? chunk_index)%Z eqn:Ei; simpl; auto.
    apply Z.eqb_eq in Ed, Ei. subst document_id chunk_index.
    rewrite <- Hk in Hlater. contradiction.
Qed.

Lemma same_keys_same_ids (chunks chunks' : list Chunk) :
  map chunk_key chunks' = map chunk_key chunks ->
  forall c', In c' chunks' ->
    exists c, In c chunks
              /\ chunk_id_of (c_document_id c') (c_chunk_index c')
                 = chunk_id_of (c_document_id c) (c_chunk_index c).
Proof.
  intros E c' Hc'.
  assert (Hin : In (chunk_key c') (map chunk_key chunks))
    by (rewrite <- E; now apply in_map).
  apply in_map_iff in Hin as (c & Hk & Hc).
  exists c. split; [assumption |].
  unfold chunk_key in Hk. now inversion Hk.
Qed.


End VectorStoreFacts.

(* ================================================================== *)
(** * Ranking *)
(* ================================================================== *)

Lemma IntFloat_order : FloatOrder IntFloat.
Proof.
  split; simpl; intros.
  - apply Z.ltb_lt in H. apply Z.ltb_ge. lia.
  - apply Z.ltb_ge in H, H0. apply Z.ltb_ge. lia.
Qed.

Section Ranking.
Context {F : FloatOps} {O : FloatOrder F}.
Variable env : Env.

Lemma insert_desc_Forall (P : Scored -> Prop) x l :
  P x -> Forall P l -> Forall P (insert_desc x l).
Proof.
  intros Hx. induction 1 as [| y r Hy Hr IH]; simpl.
  - repeat constructor. assumption.
  - destruct (fltb (sc_similarity x) (sc_similarity y));
      repeat constructor; assumption.
Qed.

Lemma sort_desc_Forall (P : Scored -> Prop) l :
  Forall P l -> Forall P (sort_desc l).
Proof.
  induction 1; simpl; [constructor | now apply insert_desc_Forall].
Qed.

Lemma insert_desc_length x l : length (insert_desc x l) = S (length l).
Proof.
  induction l as [| y r IH]; simpl; [reflexivity |].
  destruct (fltb (sc_similarity x) (sc_similarity y)); simpl; congruence.
Qed.

Lemma sort_desc_length l : length (sort_desc l) = length l.
Proof.
  induction l; simpl; [reflexivity |].
  rewrite insert_desc_length. congruence.
Qed.

Lemma insert_desc_placed (tie : Scored -> Scored -> Prop) x l :
  StronglySorted (placed tie) l -> Forall (tie x) l ->
  StronglySorted (placed tie) (insert_desc x l).
Proof.
  induction 1 as [| y r Hr IH Hy]; intros Hx; simpl.
  - repeat constructor.
  - inversion Hx as [| ? ? Hxy Hxr]; subst.
    destruct (fltb (sc_similarity x) (sc_similarity y)) eqn:E.
    + constructor; [now apply IH |].
      apply insert_desc_Forall; [| assumption].
      split; [now apply fltb_asym | congruence].
    + constructor; [now constructor |].
      constructor; [split; auto |].
      apply Forall_forall. intros z Hz.
      pose proof (proj1 (Forall_forall _ _) Hy z Hz) as [Hyz _].
      split.
      * eapply fltb_negtrans; eassumption.
      * intros _. eapply Forall_forall in Hxr; eassumption.
Qed.

(** Stability: what stood in [tie] order before sorting stands, after it,
    in descending similarity with equal similarities still in [tie]
    order. *)
Lemma sort_desc_stable (tie : Scored -> Scored -> Prop) l :
  StronglySorted tie l -> StronglySorted (placed tie) (sort_desc l).
Proof.
  induction 1 as [| x r Hr IH Hx]; simpl; [constructor |].
  apply insert_desc_placed; [assumption | now apply sort_desc_Forall].
Qed.

Lemma score_items_sound q document_id (d : Store) sims :
  score_items q document_id d = Ok sims ->
  Forall (fun s => In (sc_id s, sc_data s) d
                   /\ r_document_id (sc_data s) = document_id
                   /\ _cosine_similarity q (r_embedding (sc_data s))
                      = Ok (sc_similarity s)) sims
  /\ map sc_data sims = dict_values (records_of document_id d).
Proof.
  revert sims. induction d as [| [k r] rest IH]; simpl; intros sims E.
  - inversion E. split; constructor.
  - destruct (r_document_id r =? document_id)%Z eqn:Ed.
    + destruct (_cosine_similarity q (r_embedding r)) as [sim |] eqn:Ec;
        [| discriminate].
      destruct (score_items q document_id rest) as [l |]; [| discriminate].
      inversion E; subst. destruct (IH l eq_refl) as [Hall Hdata]. split.
      * constructor; simpl.
        -- repeat split; [now left | now apply Z.eqb_eq | assumption].
        -- eapply Forall_impl; [| exact Hall].
           intros s (Hin & Hd & Hs). repeat split; auto.
      * simpl. now rewrite Hdata.
    + destruct (IH sims E) as [Hall Hdata]. split; [| assumption].
      eapply Forall_impl; [| exact Hall].
      intros s (Hin & Hd & Hs). repeat split; auto.
Qed.

Lemma score_items_store_order q document_id (d : Store) :
  forall pre sims,
    score_items q document_id d = Ok sims ->
    StronglySorted
      (fun a b => precedes (pre ++ dict_keys d) (sc_id a) (sc_id b)) sims.
Proof.
  induction d as [| [k r] rest IH]; simpl; intros pre sims E.
  - inversion E. constructor.
  - assert (Hshift : forall l,
      score_items q document_id rest = Ok l ->
      StronglySorted
        (fun a b => precedes (pre ++ k :: dict_keys rest) (sc_id a) (sc_id b))
        l).
    { intros l Hl. specialize (IH (pre ++ [k]) l Hl).
      now rewrite <- app_assoc in IH. }
    destruct (r_document_id r =? document_id)%Z; [| now apply Hshift].
    destruct (_cosine_similarity q (r_embedding r)) as [sim |];
      [| discriminate].
    destruct (score_items q document_id rest) as [l |] eqn:El; [| discriminate].
    inversion E; subst. constructor; [now apply Hshift |].
    destruct (score_items_sound _ _ _ El) as [Hall _].
    eapply Forall_impl; [| exact Hall].
    intros b (Hin & _). simpl.
    exists pre, (dict_keys rest). split; [reflexivity |].
    unfold dict_keys. change (sc_id b) with (fst (sc_id b, sc_data b)).
    now apply in_map.
Qed.

Lemma StronglySorted_unmap {A B} (R : B -> B -> Prop) (g : A -> B) (l : list A) :
  StronglySorted R (map g l) -> StronglySorted (fun a b => R (g a) (g b)) l.
Proof.
  induction l as [| x r IH]; simpl; intros Hs; [constructor |].
  inversion Hs as [| ? ? Hr Hx]; subst. constructor; [auto |].
  apply Forall_forall. intros y Hy.
  eapply Forall_forall in Hx; [eassumption | now apply in_map].
Qed.

Lemma slice_to_nonneg {A} (l : list A) (k : Z) :
  (0 <= k)%Z -> slice_to l k = firstn (Z.to_nat k) l.
Proof. intros Hk. unfold slice_to. now rewrite (proj2 (Z.leb_le 0 k) Hk). Qed.

Lemma search_shape query document_id k (vs vs' : VectorStore) results :
  search_similar_chunks env query document_id k vs = (vs', Ok results) ->
  exists q rest sims,
    embeddings_create env (events vs) [query] = Ok (q :: rest)
    /\ score_items q document_id (embeddings_data vs) = Ok sims
    /\ results = map format_result (slice_to (sort_desc sims) k)
    /\ embeddings_data vs' = embeddings_data vs.
Proof.
  unfold search_similar_chunks.
  destruct (embeddings_create env (events vs) [query]) as [[| q rest] | e];
    try (intros E; inversion E; fail).
  change (embeddings_data (log _ vs)) with (embeddings_data vs).
  destruct (score_items q document_id (embeddings_data vs)) as [sims |] eqn:Es;
    intros E; inversion E; subst.
  exists q, rest, sims. repeat split; try reflexivity; assumption.
Qed.

(** The search raises only when a collaborator or the division does. *)
Lemma search_returns query document_id k (vs : VectorStore) q rest sims :
  embeddings_create env (events vs) [query] = Ok (q :: rest) ->
  score_items q document_id (embeddings_data vs) = Ok sims ->
  exists results,
    snd (search_similar_chunks env query document_id k vs) = Ok results.
Proof.
  intros Hq Hs. unfold search_similar_chunks. rewrite Hq.
  change (embeddings_data (log _ vs)) with (embeddings_data vs).
  rewrite Hs. eexists. reflexivity.
Qed.


End Ranking.

(* ================================================================== *)
(** * The store on worked configurations *)
(* ================================================================== *)

Ltac distinct_keys :=
  unfold dict_wf; vm_compute;
  repeat (constructor; [simpl; intuition discriminate |]); constructor.

Lemma two_document_store_wf : dict_wf (embeddings_data two_document_store).
Proof. distinct_keys. Qed.

(** Deleting document 1 from the two-document store reports [True]. *)
Lemma delete_document_chunks_removes_witness :
  snd (delete_document_chunks unit_env 1 two_document_store) = Ok true
  /\ records_of 2 (embeddings_data
                     (fst (delete_document_chunks unit_env 1
                                                  two_document_store)))
     = records_of 2 (embeddings_data two_document_store).
Proof.
  destruct (delete_document_chunks_removes unit_env 1 two_document_store
              two_document_store_wf)
    as (vs' & Hcall & _ & _ & Hothers & _).
  rewrite Hcall. split; [reflexivity |].
  apply Hothers. discriminate.
Defined.

(** C5, the claim as worded.  Document 1 has two records in the
    two-document store; both are removed, and the value returned is [True],
    which as a number is 1, not the 2 that a count would be. *)
Lemma delete_does_not_return_count :
  ~ delete_returns_count unit_env 1 two_document_store.
Proof.
  intros (vs' & b & Hcall & Hcount).
  vm_compute in Hcall. inversion Hcall; subst.
  vm_compute in Hcount. discriminate.
Qed.

(** Deleting from a store built by two additions keeps keys and records
    consistent. *)
Lemma keys_match_records_witness :
  key_consistent (embeddings_data two_document_store)
  /\ key_consistent
       (embeddings_data
          (run_operation unit_env two_document_store (DeleteDocumentChunks 1))).
Proof.
  pose proof (keys_match_records unit_env) as [Hreach Hstep].
  assert (Hstore : key_consistent (embeddings_data two_document_store)).
  { exact (Hreach [AddChunks [plain_chunk 1 0 "alpha"; plain_chunk 1 1 "beta"];
                   AddChunks [plain_chunk 2 0 "gamma"]]). }
  split; [exact Hstore | exact (Hstep _ _ Hstore)].
Defined.




(* ================================================================== *)
(** * The chunker *)
(* ================================================================== *)

(** C2, on the code.  Limit 5, overlap 2: the sentences [a b c] (3 tokens)
    and [d e f g] (4 tokens) give a second chunk made of the two-token
    overlap tail and the second sentence, 6 tokens when recomputed, though
    no sentence exceeds the limit.  With the limits of the source, 500 and
    50, a 100-word and a 480-word sentence give a second chunk of 530
    tokens. *)
Theorem overlap_tail_exceeds_chunk_size :
  (let chunks := chunk_text small_processor "a b c. d e f g." 7 in
   map c_text chunks = ["a b c"; "b c d e f g"]
   /\ map (fun c => count_tokens small_processor (c_text c)) chunks
      = [3; 6]%Z
   /\ map (count_tokens small_processor)
          (_split_into_sentences (_clean_text "a b c. d e f g."))
      = [3; 4]%Z
   /\ chunk_size small_processor = 5%Z)
  /\ (let chunks := chunk_text default_processor two_sentences 7 in
      map (fun c => count_tokens default_processor (c_text c)) chunks
      = [100; 530]%Z
      /\ map (count_tokens default_processor)
             (_split_into_sentences (_clean_text two_sentences))
         = [100; 480]%Z
      /\ chunk_size default_processor = 500%Z).
Proof. vm_compute. repeat split. Qed.

(** C3, on the code.  For a PDF whose only text, [Beta.], is on page 2,
    [extract_text] tags the text with the marker of page 2, and
    [chunk_text], whatever the tokenizer and the limits, returns one chunk
    with text [Beta] and [page_numbers] [[1]]: [_clean_text] has removed
    the marker before [_extract_page_numbers] looks for it. *)
Theorem page_marker_removed_before_lookup
        (self : DocumentProcessor) (document_id : Z) :
  exists text,
    extract_text second_page_only "pdf" = Ok (text, 2%Z)
    /\ text = (nl ++ "[Page 2]" ++ nl ++ "Beta." ++ nl)%string
    /\ chunk_text self text document_id
       = [ {| c_text := "Beta";
              c_chunk_index := 0;
              c_page_numbers := Some [1%Z];
              c_token_count := Some (count_tokens self "Beta");
              c_document_id := document_id |} ].
Proof.
  eexists. split; [reflexivity |]. split; [reflexivity |].
  unfold chunk_text.
  replace (_split_into_sentences (_clean_text _)) with ["Beta"]
    by (vm_compute; reflexivity).
  unfold chunk_finish, chunk_step, chunking_start. simpl fold_left.
  cbn [current_chunk current_tokens chunks chunk_index truthy].
  rewrite andb_false_r.
  cbn [current_chunk current_tokens chunks chunk_index truthy].
  reflexivity.
Qed.

Section ChunkerFacts.
Variable self : DocumentProcessor.

Lemma overlap_text_is_tail (buffer : string) :
  (0 < chunk_overlap self)%Z ->
  _get_overlap_text self buffer = overlap_tail self buffer.
Proof.
  intros Hpos. unfold _get_overlap_text, overlap_tail, slice_from, last_n.
  set (tokens := encode (tokenizer self) buffer).
  destruct (Z.leb_spec (Z.of_nat (length tokens)) (chunk_overlap self)) as [Hle | Hgt];
    destruct (Nat.leb_spec (length tokens) (Z.to_nat (chunk_overlap self)));
    try lia; [reflexivity |].
  destruct (Z.leb_spec 0 (- chunk_overlap self)); [lia |].
  now rewrite Z.opp_involutive.
Qed.

Lemma texts_are_stripped_buffers (document_id : Z) (sentences : list string) :
  forall st : Chunking,
    map c_text (chunk_finish self document_id
                  (fold_left (chunk_step self document_id) sentences st))
    = map c_text (chunks st)
      ++ map strip (closed_buffers self (current_chunk st)
                                   (current_tokens st) sentences).
Proof.
  induction sentences as [| sentence rest IH]; intros st.
  - simpl. unfold chunk_finish.
    destruct (truthy (strip (current_chunk st))); simpl.
    + now rewrite map_app.
    + now rewrite app_nil_r.
  - simpl fold_left. rewrite IH. unfold chunk_step. simpl closed_buffers.
    destruct ((chunk_size self <? current_tokens st + count_tokens self sentence)%Z
              && truthy (current_chunk st)); simpl.
    + now rewrite map_app, <- app_assoc.
    + reflexivity.
Qed.

Lemma is_prefix_refl (s : string) : is_prefix s s.
Proof.
  exists EmptyString. induction s; simpl; congruence.
Qed.

Lemma is_prefix_app (p x s : string) :
  is_prefix (p ++ x) s -> is_prefix p s.
Proof.
  intros [more ->]. exists (x ++ more)%string. apply append_assoc.
Qed.

Lemma closed_buffers_head (sentences : list string) :
  forall cur tokens b,
    nth_error (closed_buffers self cur tokens sentences) 0 = Some b ->
    is_prefix cur b.
Proof.
  induction sentences as [| sentence rest IH]; intros cur tokens b; simpl.
  - destruct (truthy (strip cur)); simpl; intros E; inversion E.
    apply is_prefix_refl.
  - destruct ((chunk_size self <? tokens + count_tokens self sentence)%Z
              && truthy cur); simpl.
    + intros E. inversion E. apply is_prefix_refl.
    + intros E. apply IH in E. eapply is_prefix_app. eassumption.
Qed.

Lemma closed_buffers_next (sentences : list string) :
  forall cur tokens i b b',
    nth_error (closed_buffers self cur tokens sentences) i = Some b ->
    nth_error (closed_buffers self cur tokens sentences) (S i) = Some b' ->
    exists sentence,
      In sentence sentences
      /\ is_prefix (_get_overlap_text self b ++ " " ++ sentence) b'.
Proof.
  induction sentences as [| sentence rest IH]; intros cur tokens i b b'; simpl.
  - destruct (truthy (strip cur)); simpl; intros _ E;
      destruct i; discriminate.
  - destruct ((chunk_size self <? tokens + count_tokens self sentence)%Z
              && truthy cur); simpl.
    + destruct i as [| i]; simpl; intros Hb Hb'.
      * inversion Hb; subst. exists sentence. split; [now left |].
        eapply closed_buffers_head. eassumption.
      * destruct (IH _ _ _ _ _ Hb Hb') as (s & Hs & Hp).
        exists s. split; [now right | assumption].
    + intros Hb Hb'. destruct (IH _ _ _ _ _ Hb Hb') as (s & Hs & Hp).
      exists s. split; [now right | assumption].
Qed.

(** C7, as the code has it.  With a positive overlap, the chunk texts are
    the trimmed buffers that [chunk_text] closes, and each buffer after the
    first begins with the overlap tail of the buffer before it (the decoded
    last [chunk_overlap] tokens of that buffer, or the whole buffer when it
    has no more tokens than that), then one space, then a sentence of the
    text.  The overlap is shared as text; nothing makes the tokens of the
    trimmed next chunk begin with those tail tokens. *)
Theorem consecutive_chunks_share_overlap_text (text : string) (document_id : Z) :
  (0 < chunk_overlap self)%Z ->
  let sentences := _split_into_sentences (_clean_text text) in
  let buffers := closed_buffers self EmptyString 0 sentences in
  map c_text (chunk_text self text document_id) = map strip buffers
  /\ forall i b b',
       nth_error buffers i = Some b ->
       nth_error buffers (S i) = Some b' ->
       exists sentence,
         In sentence sentences
         /\ is_prefix (overlap_tail self b ++ " " ++ sentence) b'.
Proof.
  intros Hpos sentences buffers. split.
  - unfold chunk_text. fold sentences.
    now rewrite texts_are_stripped_buffers.
  - intros i b b' Hb Hb'.
    rewrite <- overlap_text_is_tail by assumption.
    eapply closed_buffers_next; eassumption.
Qed.

End ChunkerFacts.

(** The buffers of the five-token processor on two short sentences. *)
Lemma consecutive_chunks_share_overlap_text_witness :
  map c_text (chunk_text small_processor "a b c. d e f g." 7)
  = map strip ["a b c"; " b c d e f g"]
  /\ exists sentence,
       In sentence ["a b c"; "d e f g"]
       /\ is_prefix (overlap_tail small_processor "a b c" ++ " " ++ sentence)
                    " b c d e f g".
Proof.
  assert (Hpos : (0 < chunk_overlap small_processor)%Z) by reflexivity.
  destruct (consecutive_chunks_share_overlap_text
              small_processor "a b c. d e f g." 7 Hpos) as [Htexts Hnext].
  split; [exact Htexts | exact (Hnext 0 _ _ eq_refl eq_refl)].
Defined.

(** C7, the claim as worded.  Limit 5, overlap 2: the first chunk [a b c]
    ends with the tokens [ b], [ c]; the second chunk, trimmed to
    [b c d e f g], begins with the tokens [b], [ c]. *)
Lemma leading_tokens_differ_from_tail :
  ~ overlap_as_specified small_processor
      (chunk_text small_processor "a b c. d e f g." 7).
Proof.
  intros H. specialize (H 0 _ _ eq_refl eq_refl).
  vm_compute in H. discriminate.
Qed.

(* ================================================================== *)
(** * The generation step *)
(* ================================================================== *)

Section GenerationFacts.
Context {F : FloatOps}.
Variable llm : LLMEnv.

Lemma dict_get_set_same {V : Type} (k : string) (v : V) (d : dict string V) :
  dict_get k (dict_set k v d) = Some v.
Proof.
  induction d as [| [k0 v0] r IH]; simpl.
  - now rewrite String.eqb_refl.
  - destruct (String.eqb_spec k k0) as [-> | Hne]; simpl.
    + now rewrite String.eqb_refl.
    + destruct (String.eqb_spec k k0); [contradiction | assumption].
Qed.

(** Every way the [try] block can fail: the chat client raises, answers
    without a choice or with a null content, the content does not parse,
    or it parses to something that is not an object. *)
Lemma generation_failures question context_chunks document_title :
  let request :=
    {| req_model := model;
       req_messages :=
         [("system", _create_system_prompt);
          ("user", _create_user_prompt question
                     (_prepare_context context_chunks) document_title)];
       req_max_tokens := max_tokens;
       req_response_format := "json_object" |} in
  is_ok (generate_answer_body llm question context_chunks document_title)
  = match chat_completions_create llm request with
    | Ok (Some content :: _) =>
        match json_loads llm content with
        | Ok (PDict _) => true
        | _ => false
        end
    | _ => false
    end.
Proof.
  intros request. unfold generate_answer_body. fold request.
  destruct (chat_completions_create llm request) as [[| [content |] rest] | e];
    try reflexivity.
  destruct (json_loads llm content) as [[] | e]; reflexivity.
Qed.

(** C8.  [generate_answer] is a total function into answer dictionaries:
    nothing escapes it.  Whenever its [try] block raises, whatever the
    exception, the dictionary returned is the fallback one, whose
    ['confidence'] is 0.0 and whose ['sources'] is the empty list (and whose
    ['answer'] is a text); whenever the block completes, the dictionary is
    the parsed object with ['sources'] set to the formatted chunks. *)
Theorem generate_answer_never_raises
        (question : string) (context_chunks : list SimilarChunk)
        (document_title : string) :
  let answer := generate_answer llm question context_chunks document_title in
  (forall e,
      generate_answer_body llm question context_chunks document_title
      = Raise e ->
      answer = fallback_answer e
      /\ dict_get "confidence" answer = Some (PFloat fzero)
      /\ dict_get "sources" answer = Some (PList [])
      /\ exists text, dict_get "answer" answer = Some (PStr text))
  /\ (forall result,
         generate_answer_body llm question context_chunks document_title
         = Ok result ->
         answer = result
         /\ dict_get "sources" answer
            = Some (PList (_format_sources context_chunks))).
Proof.
  intros answer. subst answer. unfold generate_answer. split.
  - intros e ->. repeat split. eexists. reflexivity.
  - intros result Hbody. rewrite Hbody. split; [reflexivity |].
    unfold generate_answer_body in Hbody.
    destruct (chat_completions_create llm _) as [[| [content |] rest] | e];
      try discriminate.
    destruct (json_loads llm content) as [[] | e]; try discriminate.
    inversion Hbody. apply dict_get_set_same.
Qed.

End GenerationFacts.

(** With the chat client unreachable the answer is the fallback. *)
Lemma generate_answer_never_raises_witness :
  dict_get "confidence"
           (generate_answer unreachable_llm "What is it?" [] "Report")
  = Some (PFloat (fzero (FloatOps := IntFloat)))
  /\ dict_get "sources"
              (generate_answer unreachable_llm "What is it?" [] "Report")
     = Some (PList []).
Proof.
  destruct (generate_answer_never_raises unreachable_llm "What is it?" []
                                         "Report") as [Hraise _].
  destruct (Hraise (Exception "APIConnectionError" "Connection error.")
                   eq_refl) as (_ & Hconf & Hsrc & _).
  split; assumption.
Defined.

(* ================================================================== *)
(** * The ingest pipeline *)
(* ================================================================== *)

Section IngestFacts.
Context {F : FloatOps}.
Variable venv : ViewEnv.
Variable processor : DocumentProcessor.

Lemma chunk_text_document_id (text : string) (document_id : Z) :
  Forall (fun c => c_document_id c = document_id)
         (chunk_text processor text document_id).
Proof.
  unfold chunk_text.
  generalize (_split_into_sentences (_clean_text text)). intros sentences.
  assert (Hstart : Forall (fun c => c_document_id c = document_id)
                          (chunks chunking_start)) by constructor.
  revert Hstart. generalize chunking_start.
  induction sentences as [| s rest IH]; intros st Hst; simpl.
  - unfold chunk_finish. destruct (truthy (strip (current_chunk st))).
    + apply Forall_app. split; [assumption | repeat constructor].
    + assumption.
  - apply IH. unfold chunk_step.
    destruct ((chunk_size processor <? current_tokens st + count_tokens processor s)%Z
              && truthy (current_chunk st)); simpl.
    + apply Forall_app. split; [assumption | repeat constructor].
    + assumption.
Qed.

Lemma store_chunks_In data i chunks (d : Store) ids k r :
  In (k, r) (fst (store_chunks data i chunks d ids)) ->
  In (k, r) d \/ exists c emb, In c chunks /\ r = record_of emb c.
Proof.
  revert d i ids. induction chunks as [| c rest IH]; intros d i ids; simpl.
  - now left.
  - destruct (nth_error data i) as [emb |]; [| now left].
    intros Hin. apply IH in Hin as [Hin | (c' & emb' & Hc' & ->)].
    + apply dict_set_In in Hin as [[_ ->] | Hin]; [| now left].
      right. exists c, emb. split; [now left | reflexivity].
    + right. exists c', emb'. split; [now right | reflexivity].
Qed.

Lemma add_chunks_ok chunks (vs vs' : VectorStore) ids :
  add_chunks (store_env venv) chunks vs = (vs', Ok ids) ->
  exists data,
    store_chunks data 0 chunks (embeddings_data vs) []
    = (embeddings_data vs', Ok ids).
Proof.
  intros E.
  destruct (add_chunks_shape (store_env venv) chunks vs)
    as [(e & He & _) | (data & Hd & Hr)]; rewrite E in *; simpl in *.
  - discriminate.
  - exists data. rewrite Hd, Hr. apply surjective_pairing.
Qed.

Lemma build_chunk_objects_ok (document : Document) pairs objs :
  build_chunk_objects document pairs = Ok objs ->
  map dc_chunk_index objs = map (fun p => c_chunk_index (fst p)) pairs
  /\ Forall (fun o => dc_document o = doc_id document) objs.
Proof.
  revert objs. induction pairs as [| [c id] rest IH]; simpl; intros objs E.
  - inversion E. split; constructor.
  - destruct (c_page_numbers c) as [pages |]; [| discriminate].
    destruct (c_token_count c) as [tokens |]; [| discriminate].
    destruct (build_chunk_objects document rest) as [rows |]; [| discriminate].
    inversion E; subst. destruct (IH rows eq_refl) as [Hidx Hdoc].
    split; simpl; [now rewrite Hidx | now constructor].
Qed.

Lemma persisted_after_save (document : Document) (db : Database) :
  orm_write venv (db_writes db) = None ->
  dict_get (doc_id document)
           (db_documents (fst (save_document venv document db)))
  = Some document
  /\ db_chunks (fst (save_document venv document db)) = db_chunks db
  /\ snd (save_document venv document db) = Ok tt.
Proof.
  intros Hok. unfold save_document. rewrite Hok. simpl. repeat split.
  generalize (db_documents db). intros d.
  induction d as [| [k0 v0] r IH]; simpl.
  - now rewrite Z.eqb_refl.
  - destruct (Z.eqb_spec (doc_id document) k0) as [-> | Hne]; simpl.
    + now rewrite Z.eqb_refl.
    + destruct (Z.eqb_spec (doc_id document) k0); [contradiction | assumption].
Qed.

Lemma save_document_cases (document : Document) (db : Database) :
  (exists e, save_document venv document db
             = ({| db_documents := db_documents db;
                   db_chunks := db_chunks db;
                   db_writes := S (db_writes db) |}, Raise e))
  \/ (orm_write venv (db_writes db) = None
      /\ save_document venv document db
         = ({| db_documents := dict_set (doc_id document) document
                                        (db_documents db);
               db_chunks := db_chunks db;
               db_writes := S (db_writes db) |}, Ok tt)).
Proof.
  unfold save_document. destruct (orm_write venv (db_writes db)) as [e |].
  - left. now exists e.
  - right. now split.
Qed.

Lemma dict_get_set_Z {V : Type} (k : Z) (v : V) (d : dict Z V) :
  dict_get k (dict_set k v d) = Some v.
Proof.
  induction d as [| [k0 v0] r IH]; simpl.
  - now rewrite Z.eqb_refl.
  - destruct (Z.eqb_spec k k0) as [-> | Hne]; simpl.
    + now rewrite Z.eqb_refl.
    + destruct (Z.eqb_spec k k0); [contradiction | assumption].
Qed.

(** What a completed [_process_document] has done. *)
Lemma process_document_ok (document doc1 : Document) (sys sys1 : System) :
  _process_document venv processor document sys = (sys1, doc1, Ok tt) ->
  exists text pages data ids objs,
    extract_text (doc_file document) (doc_file_type document)
    = Ok (text, pages)
    /\ store_chunks data 0 (chunk_text processor text (doc_id document))
                    (embeddings_data (sys_store sys)) []
       = (embeddings_data (sys_store sys1), Ok ids)
    /\ build_chunk_objects
         (set_page_count pages document)
         (combine (chunk_text processor text (doc_id document)) ids)
       = Ok objs
    /\ db_chunks (sys_db sys1) = db_chunks (sys_db sys) ++ objs
    /\ persisted_status (doc_id document) sys1 = Some "processed".
Proof.
  unfold _process_document.
  destruct (extract_text (doc_file document) (doc_file_type document))
    as [[text pages] | e]; [| discriminate].
  destruct (save_document_cases (set_page_count pages document) (sys_db sys))
    as [(e & ->) | (_ & ->)]; [discriminate |].
  cbn [sys_db sys_store with_db with_store doc_id set_page_count].
  destruct (chunk_text processor text (doc_id document)) as [| c rest] eqn:Ec;
    [discriminate |].
  destruct (add_chunks _ _ _) as [vs [ids | e]] eqn:Eadd; [| discriminate].
  cbn [sys_db sys_store with_db with_store].
  destruct (build_chunk_objects _ _) as [objs | e] eqn:Eb; [| discriminate].
  unfold bulk_create. cbn [db_writes db_documents db_chunks].
  destruct (orm_write venv (S (db_writes (sys_db sys)))); [discriminate |].
  cbn [sys_db sys_store with_db with_store].
  match goal with
  | |- context [save_document venv ?d ?db] =>
      destruct (save_document_cases d db) as [(e & ->) | (_ & ->)]
  end; [discriminate |].
  intros E. inversion E; subst. clear E.
  apply add_chunks_ok in Eadd as (data & Hstore).
  exists text, pages, data, ids, objs.
  cbn [sys_db sys_store with_db with_store db_chunks].
  rewrite Ec. repeat split; try assumption.
  unfold persisted_status.
  cbn [sys_db db_documents with_db doc_id set_status set_page_count].
  now rewrite dict_get_set_Z.
Qed.


Lemma combine_with_ids {A B C} (f : A -> C) (g : A -> B) (l : list A) :
  map (fun p => f (fst p)) (combine l (map g l)) = map f l.
Proof. induction l; simpl; congruence. Qed.

Lemma filter_all {A} (p : A -> bool) (l : list A) :
  Forall (fun x => p x = true) l -> filter p l = l.
Proof. induction 1; simpl; [reflexivity |]. rewrite H. congruence. Qed.

(** After a batch was stored into a mapping that held nothing of the
    document, the chunk indices of the document's records are those of the
    batch. *)
Lemma indexed_records data chunks (d0 d1 : Store) ids (document_id : Z) :
  key_consistent d0 ->
  records_of document_id d0 = [] ->
  Forall (fun c => c_document_id c = document_id) chunks ->
  store_chunks data 0 chunks d0 [] = (d1, Ok ids) ->
  forall i,
    In i (map r_chunk_index (dict_values (records_of document_id d1)))
    <-> In i (map c_chunk_index chunks).
Proof.
  intros Hc Hnone Hdoc Hstore i.
  assert (Hd1 : d1 = fst (store_chunks data 0 chunks d0 []))
    by now rewrite Hstore.
  split.
  - intros Hin. apply in_map_iff in Hin as (r & <- & Hin).
    unfold dict_values in Hin. apply in_map_iff in Hin as ([k r'] & Hr & Hin).
    simpl in Hr. subst r'. unfold records_of in Hin.
    apply filter_In in Hin as [Hin Hid]. simpl in Hid.
    rewrite Hd1 in Hin.
    apply store_chunks_In in Hin as [Hold | (c & emb & Hcin & ->)].
    + assert (Hrec : In (k, r) (records_of document_id d0))
        by (apply filter_In; now split).
      rewrite Hnone in Hrec. contradiction.
    + simpl. now apply in_map.
  - intros Hin. apply in_map_iff in Hin as (c & <- & Hcin).
    pose proof Hstore as Hs. apply store_chunks_ok in Hs as [_ Hkeys].
    pose proof (Hkeys c Hcin) as Hk. apply dict_get_in in Hk as (r & _ & Hmem).
    assert (Hc1 : key_consistent d1)
      by (rewrite Hd1; now apply store_chunks_consistent).
    pose proof (proj1 (Forall_forall _ _) Hc1 _ Hmem) as Hkey. simpl in Hkey.
    apply chunk_id_of_inj in Hkey as [Hd Hi].
    apply in_map_iff. exists r. split; [now symmetry |].
    unfold dict_values. apply in_map_iff.
    exists (chunk_id_of (c_document_id c) (c_chunk_index c), r).
    split; [reflexivity |].
    apply filter_In. split; [assumption |]. simpl.
    apply Z.eqb_eq. rewrite <- Hd.
    eapply Forall_forall in Hdoc; eassumption.
Qed.

(** What a failed [_process_document] leaves in the document row: the row
    it found, or the row with the page count and the status the document
    object came with. *)
Lemma process_document_raise (document doc1 : Document) (sys sys1 : System) e :
  _process_document venv processor document sys = (sys1, doc1, Raise e) ->
  doc_id doc1 = doc_id document
  /\ (persisted_status (doc_id document) sys1
      = persisted_status (doc_id document) sys
      \/ persisted_status (doc_id document) sys1
         = Some (doc_status document)).
Proof.
  unfold _process_document.
  destruct (extract_text (doc_file document) (doc_file_type document))
    as [[text pages] | e0].
  2: { intros E. inversion E; subst. split; [reflexivity | now left]. }
  destruct (save_document_cases (set_page_count pages document) (sys_db sys))
    as [(e0 & ->) | (_ & ->)].
  { intros E. inversion E; subst. split; [reflexivity | now left]. }
  cbn [sys_db sys_store with_db with_store doc_id set_page_count].
  assert (Hrow : forall chunks writes,
    persisted_status (doc_id document)
      {| sys_store := sys_store sys;
         sys_db := {| db_documents :=
                        dict_set (doc_id document)
                                 (set_page_count pages document)
                                 (db_documents (sys_db sys));
                      db_chunks := chunks; db_writes := writes |} |}
    = Some (doc_status document)).
  { intros. unfold persisted_status. cbn [sys_db db_documents].
    now rewrite dict_get_set_Z. }
  destruct (chunk_text processor text (doc_id document)) as [| c rest].
  { intros E. inversion E; subst. split; [reflexivity | right; apply Hrow]. }
  destruct (add_chunks _ _ _) as [vs [ids | e0]].
  2: { intros E. inversion E; subst. split; [reflexivity | right; apply Hrow]. }
  cbn [sys_db sys_store with_db with_store].
  destruct (build_chunk_objects _ _) as [objs | e0].
  2: { intros E. inversion E; subst. split; [reflexivity | right; apply Hrow]. }
  unfold bulk_create. cbn [db_writes db_documents db_chunks].
  destruct (orm_write venv (S (db_writes (sys_db sys)))).
  { intros E. inversion E; subst. split; [reflexivity | right; apply Hrow]. }
  cbn [sys_db sys_store with_db with_store].
  match goal with
  | |- context [save_document venv ?d ?db] =>
      destruct (save_document_cases d db) as [(e0 & ->) | (_ & ->)]
  end; [| discriminate].
  intros E. inversion E; subst. split; [reflexivity | right; apply Hrow].
Qed.

(** A failure before indexing, with a record store that works, changes
    neither the mapping nor the chunk rows. *)
Lemma process_document_early (document : Document) (sys : System) :
  fails_before_indexing venv processor document sys ->
  (forall n, orm_write venv n = None) ->
  exists sys1 doc1 e,
    _process_document venv processor document sys = (sys1, doc1, Raise e)
    /\ embeddings_data (sys_store sys1) = embeddings_data (sys_store sys)
    /\ db_chunks (sys_db sys1) = db_chunks (sys_db sys).
Proof.
  unfold fails_before_indexing, _process_document. intros Hfail Hdb.
  destruct (extract_text (doc_file document) (doc_file_type document))
    as [[text pages] | e0].
  2: { do 3 eexists. repeat split. }
  destruct (save_document_cases (set_page_count pages document) (sys_db sys))
    as [(e0 & ->) | (_ & ->)].
  { do 3 eexists. repeat split. }
  cbn [sys_db sys_store with_db with_store doc_id set_page_count].
  destruct (chunk_text processor text (doc_id document)) as [| c rest].
  { do 3 eexists. repeat split. }
  destruct Hfail as [e0 He0]. unfold add_chunks. rewrite He0.
  do 3 eexists. repeat split.
Qed.

(** C4, as the code has it.  Take a document recorded with status
    ['processing'] that has neither chunk rows nor embedding records yet,
    over a mapping whose keys match its records.  When the ingest is over:
    the document is persisted as ['processed'] exactly when the answer is
    201, and then the chunk rows and the embedding records of the document
    carry the same chunk indices; and when the ingest stopped before
    indexing (extraction raised, no chunk came out, or the embedding
    request raised) while the record store works, the document is persisted
    as ['error'] with no chunk row and no embedding record. *)
Theorem ingest_outcomes
        (document document' : Document) (sys sys' : System)
        (response : Response) :
  doc_status document = "processing" ->
  persisted_status (doc_id document) sys = Some "processing" ->
  key_consistent (embeddings_data (sys_store sys)) ->
  records_of (doc_id document) (embeddings_data (sys_store sys)) = [] ->
  chunk_rows_of (doc_id document) sys = [] ->
  upload_document venv processor document sys = (sys', document', response) ->
  (persisted_status (doc_id document) sys' = Some "processed"
   <-> http_status response = 201%Z)
  /\ (persisted_status (doc_id document) sys' = Some "processed" ->
      chunks_match_embeddings (doc_id document) sys')
  /\ (fails_before_indexing venv processor document sys ->
      (forall n, orm_write venv n = None) ->
      persisted_status (doc_id document) sys' = Some "error"
      /\ chunk_rows_of (doc_id document) sys' = []
      /\ records_of (doc_id document) (embeddings_data (sys_store sys')) = []).
Proof.
  intros Hstatus Hrow Hc Hnorec Hnorow Hup.
  unfold upload_document in Hup.
  destruct (_process_document venv processor document sys)
    as [[sys1 doc1] [[] | e]] eqn:Ep.
  - (* the pipeline completed *)
    inversion Hup; subst. clear Hup.
    pose proof Ep as Hok. apply process_document_ok in Hok
      as (text & pages & data & ids & objs & Hex & Hstore & Hobjs & Hrows & Hdone).
    split; [split; [reflexivity | now intros _] |]. split.
    + intros _ i.
      pose proof Hobjs as Hb. apply build_chunk_objects_ok in Hb as [Hidx Hdoc].
      pose proof Hstore as Hs. apply store_chunks_ok in Hs as [Hids _].
      simpl in Hids.
      unfold row_indices, stored_indices, chunk_rows_of.
      rewrite Hrows, filter_app.
      unfold chunk_rows_of in Hnorow. rewrite Hnorow. simpl.
      rewrite filter_all.
      2: { eapply Forall_impl; [| exact Hdoc].
           intros o Ho. simpl in Ho. now apply Z.eqb_eq. }
      rewrite Hidx, Hids, combine_with_ids.
      symmetry. eapply indexed_records; try eassumption.
      apply chunk_text_document_id.
    + intros Hfail Hdb.
      destruct (process_document_early document sys Hfail Hdb)
        as (? & ? & ? & E & _).
      rewrite Ep in E. discriminate.
  - (* the pipeline raised *)
    pose proof Ep as Hr. apply process_document_raise in Hr as [Hid Hpers].
    assert (Hnot : persisted_status (doc_id document) sys1
                   <> Some "processed").
    { destruct Hpers as [-> | ->]; [rewrite Hrow | rewrite Hstatus];
        discriminate. }
    match type of Hup with
    | context [save_document venv ?d ?db] =>
        destruct (save_document_cases d db) as [(e1 & Hsave) | (Hw & Hsave)];
        rewrite Hsave in Hup
    end; inversion Hup; subst; clear Hup.
    + (* the handler could not record the error *)
      split; [split; [intros Hp; now elim Hnot | discriminate] |].
      split; [intros Hp; now elim Hnot |].
      intros Hfail Hdb. specialize (Hdb (db_writes (sys_db sys1))).
      unfold save_document in Hsave. rewrite Hdb in Hsave. discriminate.
    + match goal with
      | |- context [persisted_status ?i ?s] =>
          assert (Herr : persisted_status i s = Some "error")
      end.
      { unfold persisted_status.
        cbn [sys_db db_documents with_db doc_id set_status].
        rewrite Hid. now rewrite dict_get_set_Z. }
      split; [split; [rewrite Herr; discriminate | discriminate] |].
      split; [rewrite Herr; discriminate |].
      intros Hfail Hdb.
      destruct (process_document_early document sys Hfail Hdb)
        as (sys2 & doc2 & e2 & E & Hdata & Hchunks).
      rewrite Ep in E. inversion E; subst.
      split; [exact Herr |].
      unfold chunk_rows_of. cbn [sys_db sys_store with_db db_chunks].
      rewrite Hdata, Hchunks. split; assumption.
Qed.

End IngestFacts.

(** The two-sentence upload with a record store that works: processed,
    with matching chunk rows and embedding records. *)
Lemma ingest_outcomes_witness :
  let final :=
    fst (fst (upload_document healthy_env small_processor
                              sample_document sample_system)) in
  persisted_status 1 final = Some "processed"
  /\ chunks_match_embeddings 1 final.
Proof.
  intros final. subst final.
  destruct (upload_document healthy_env small_processor
                            sample_document sample_system)
    as [[sys' document'] response] eqn:E.
  assert (Hresp : http_status response = 201%Z)
    by (vm_compute in E; inversion E; reflexivity).
  destruct (@ingest_outcomes IntFloat healthy_env small_processor
              sample_document document' sample_system sys' response
              eq_refl eq_refl (Forall_nil _) eq_refl eq_refl E)
    as ([_ Hdone] & Hmatch & _).
  split; [exact (Hdone Hresp) | exact (Hmatch (Hdone Hresp))].
Defined.

(** C4, the claim as worded.  The two-sentence upload with a record store
    whose insert of the chunk rows fails: the embedding records were
    written before the insert, nothing removes them, and the document ends
    persisted as ['error'] with no chunk row and two embedding records. *)
Lemma failed_insert_leaves_embeddings :
  let final :=
    fst (fst (upload_document failing_insert_env small_processor
                              sample_document sample_system)) in
  persisted_status 1 final = Some "error"
  /\ chunk_rows_of 1 final = []
  /\ length (records_of 1 (embeddings_data (sys_store final))) = 2
  /\ ~ all_or_nothing 1 final.
Proof.
  intros final. repeat split.
  intros [[Hstatus _] | (_ & _ & Hnone)].
  - vm_compute in Hstatus. discriminate.
  - vm_compute in Hnone. discriminate.
Qed.

(* ================================================================== *)
(** * More about the vector store *)
(* ================================================================== *)

Section DictMore.
Context {K V : Type} `{Key K}.
Implicit Types (d : dict K V) (k : K) (v : V).

Lemma dict_get_set_other k k' v d :
  k <> k' -> dict_get k (dict_set k' v d) = dict_get k d.
Proof.
  intros Hne. induction d as [| [k0 v0] r IH]; simpl.
  - key_cases k k'; [contradiction | reflexivity].
  - key_cases k' k0; simpl.
    + key_cases k k0; [contradiction | reflexivity].
    + key_cases k k0; [reflexivity | assumption].
Qed.

Lemma dict_get_set_here k v d : dict_get k (dict_set k v d) = Some v.
Proof.
  induction d as [| [k0 v0] r IH]; simpl.
  - now rewrite key_eqb_refl.
  - key_cases k k0; simpl.
    + now rewrite key_eqb_refl.
    + key_cases k k0; [contradiction | assumption].
Qed.

Lemma dict_set_keys_grow k v d :
  exists added, dict_keys (dict_set k v d) = dict_keys d ++ added.
Proof.
  destruct (in_dec (fun a b => reflect_dec _ _ (key_eqb_spec a b))
                   k (dict_keys d)) as [Hin | Hnin].
  - exists []. rewrite app_nil_r. now apply dict_set_keys_present.
  - exists [k]. now apply dict_set_keys_absent.
Qed.

Lemma dict_set_keys_inv k v d k' :
  In k' (dict_keys (dict_set k v d)) -> k' = k \/ In k' (dict_keys d).
Proof.
  destruct (in_dec (fun a b => reflect_dec _ _ (key_eqb_spec a b))
                   k (dict_keys d)) as [Hin | Hnin].
  - rewrite dict_set_keys_present by assumption. now right.
  - rewrite dict_set_keys_absent by assumption. intros Hi.
    apply in_app_or in Hi as [Hi | [Hi | []]]; [now right | now left].
Qed.

End DictMore.

Lemma filter_split_length {A} (p : A -> bool) (l : list A) :
  length (filter p l) + length (filter (fun x => negb (p x)) l) = length l.
Proof.
  induction l as [| x r IH]; simpl; [reflexivity |].
  destruct (p x); simpl; lia.
Qed.

Section StoreMore.
Context {F : FloatOps}.
Variable env : Env.

Lemma store_chunks_get_other data i chunks (d : Store) ids k :
  ~ In k (map key_of chunks) ->
  dict_get k (fst (store_chunks data i chunks d ids)) = dict_get k d.
Proof.
  revert d i ids. induction chunks as [| c rest IH]; intros d i ids Hnin; simpl.
  - reflexivity.
  - destruct (nth_error data i) as [emb |]; [| reflexivity].
    rewrite IH by (intros Hin; apply Hnin; now right).
    apply dict_get_set_other. intros ->. apply Hnin. now left.
Qed.

Lemma store_chunks_keys_grow data i chunks (d : Store) ids :
  exists added,
    dict_keys (fst (store_chunks data i chunks d ids)) = dict_keys d ++ added.
Proof.
  revert d i ids. induction chunks as [| c rest IH]; intros d i ids; simpl.
  - exists []. now rewrite app_nil_r.
  - destruct (nth_error data i) as [emb |].
    + destruct (IH (dict_set (chunk_id_of (c_document_id c) (c_chunk_index c))
                             (record_of emb c) d)
                   (S i)
                   (ids ++ [chunk_id_of (c_document_id c) (c_chunk_index c)]))
        as [added1 H1].
      destruct (dict_set_keys_grow
                  (chunk_id_of (c_document_id c) (c_chunk_index c))
                  (record_of emb c) d) as [added0 H0].
      exists (added0 ++ added1). now rewrite H1, H0, app_assoc.
    + exists []. now rewrite app_nil_r.
Qed.

Lemma store_chunks_get data chunks :
  NoDup (map key_of chunks) ->
  forall i (d d' : Store) ids ids',
    store_chunks data i chunks d ids = (d', Ok ids') ->
    forall j c,
      nth_error chunks j = Some c ->
      exists emb,
        nth_error data (i + j) = Some emb
        /\ dict_get (key_of c) d' = Some (record_of emb c).
Proof.
  induction chunks as [| c0 rest IH]; intros Hnd i d d' ids ids' E j c Hj.
  - destruct j; discriminate.
  - inversion Hnd as [| ? ? Hnin Hrest]; subst. simpl in E.
    destruct (nth_error data i) as [emb |] eqn:Hi; [| discriminate].
    destruct j as [| j]; simpl in Hj.
    + inversion Hj; subst c0. exists emb. rewrite Nat.add_0_r.
      split; [assumption |].
      replace d' with (fst (store_chunks data (S i) rest
                              (dict_set (key_of c) (record_of emb c) d)
                              (ids ++ [key_of c])))
        by (unfold key_of; now rewrite E).
      rewrite store_chunks_get_other by assumption.
      apply dict_get_set_here.
    + pose proof E as Hg. eapply IH in Hg; try eassumption.
      destruct Hg as (emb' & Hn & Hg).
      exists emb'. split; [| assumption].
      now replace (i + S j) with (S i + j) by lia.
Qed.

Lemma store_chunks_short data chunks :
  forall i (d : Store) ids,
    i <= length data -> length data < i + length chunks ->
    snd (store_chunks data i chunks d ids) = Raise IndexError.
Proof.
  induction chunks as [| c rest IH]; intros i d ids Hi Hlen; simpl in *.
  - lia.
  - destruct (nth_error data i) as [emb |] eqn:Hn; [| reflexivity].
    assert (i < length data) by (apply nth_error_Some; congruence).
    apply IH; lia.
Qed.

Lemma store_chunks_prefix_stored data chunks :
  forall i (d : Store) ids j c,
    nth_error chunks j = Some c -> i + j < length data ->
    In (key_of c) (dict_keys (fst (store_chunks data i chunks d ids))).
Proof.
  induction chunks as [| c0 rest IH]; intros i d ids j c Hj Hlen.
  - destruct j; discriminate.
  - simpl. destruct (nth_error data i) as [emb |] eqn:Hn.
    + destruct j as [| j]; simpl in Hj.
      * inversion Hj; subst c0.
        apply store_chunks_keys_incl, dict_set_key_in.
      * apply (IH (S i) _ _ j c Hj). lia.
    + apply nth_error_None in Hn. lia.
Qed.

(** X1.  When [add_chunks] returns, it returns one key per chunk of the
    batch, in the order of the batch, each the key derived from the chunk's
    document id and chunk index, and each present in the mapping. *)
Theorem add_chunks_returns_keys_in_order
        (chunks : list Chunk) (vs vs' : VectorStore) (ids : list string) :
  add_chunks env chunks vs = (vs', Ok ids) ->
  ids = map key_of chunks
  /\ length ids = length chunks
  /\ Forall (fun k => In k (dict_keys (embeddings_data vs'))) ids.
Proof.
  intros E.
  destruct (add_chunks_shape env chunks vs) as [(e & He & _) | (data & Hd & Hr)];
    rewrite E in *; simpl in *; [discriminate |].
  destruct (store_chunks data 0 chunks (embeddings_data vs) [])
    as [d' r'] eqn:Es. simpl in *. subst.
  apply store_chunks_ok in Es as [Hids Hkeys]. simpl in Hids. subst ids.
  split; [reflexivity |]. split; [now rewrite length_map |].
  apply Forall_forall. intros k Hk.
  apply in_map_iff in Hk as (c & <- & Hc). now apply Hkeys.
Qed.

(** X2.  A batch whose (document id, chunk index) pairs are distinct is
    stored position by position: after [add_chunks] returns, the record
    under the key of the [j]-th chunk holds the [j]-th vector of the
    embedding response together with that chunk's text, document id and
    chunk index. *)
Theorem add_chunks_pairs_vectors_with_chunks
        (chunks : list Chunk) (vs vs' : VectorStore) (ids : list string) :
  NoDup (map chunk_key chunks) ->
  add_chunks env chunks vs = (vs', Ok ids) ->
  exists data,
    (chunks <> [] ->
     embeddings_create env (events vs) (map c_text chunks) = Ok data)
    /\ forall j c,
         nth_error chunks j = Some c ->
         exists emb,
           nth_error data j = Some emb
           /\ dict_get (key_of c) (embeddings_data vs')
              = Some (record_of emb c).
Proof.
  intros Hnd E.
  assert (Hkeys : NoDup (map key_of chunks)).
  { clear E. induction chunks as [| c rest IH]; simpl; [constructor |].
    inversion Hnd as [| ? ? Hnin Hrest]; subst. constructor; [| auto].
    intros Hin. apply Hnin. apply in_map_iff in Hin as (c' & Hk & Hc').
    apply chunk_id_of_inj in Hk as [Hd Hi].
    apply in_map_iff. exists c'. split; [| assumption].
    unfold chunk_key. congruence. }
  destruct chunks as [| c0 rest].
  - exists []. split; [congruence |]. intros [| j] c Hj; discriminate.
  - unfold add_chunks in E.
    destruct (embeddings_create env (events vs) (map c_text (c0 :: rest)))
      as [data | e]; [| discriminate].
    change (embeddings_data (log _ vs)) with (embeddings_data vs) in E.
    destruct (store_chunks data 0 (c0 :: rest) (embeddings_data vs) [])
      as [d [ids' | e]] eqn:Es; [| discriminate].
    inversion E; subst. exists data. split; [reflexivity |].
    intros j c Hj. simpl embeddings_data.
    pose proof Es as Hg. eapply store_chunks_get in Hg; eassumption.
Qed.

(** X3.  Whatever its outcome, [add_chunks] only overwrites and appends:
    the keys it found stay, in their order, new keys come after them, and
    the record under any key that is not derived from a chunk of the batch
    is the one that was there. *)
Theorem add_chunks_touches_only_its_keys
        (chunks : list Chunk) (vs : VectorStore) :
  let vs' := fst (add_chunks env chunks vs) in
  (exists added,
      dict_keys (embeddings_data vs') = dict_keys (embeddings_data vs) ++ added)
  /\ forall k, ~ In k (map key_of chunks) ->
               dict_get k (embeddings_data vs')
               = dict_get k (embeddings_data vs).
Proof.
  intros vs'. subst vs'.
  destruct (add_chunks_shape env chunks vs) as [(e & _ & ->) | (data & -> & _)].
  - split; [exists []; now rewrite app_nil_r | reflexivity].
  - split; [apply store_chunks_keys_grow |].
    intros k Hk. now apply store_chunks_get_other.
Qed.

(** X4.  When the embedding request of a non-empty batch raises,
    [add_chunks] raises the same exception; the mapping and the file are
    as before and the request is the only thing that happened. *)
Theorem add_chunks_request_failure
        (chunks : list Chunk) (vs : VectorStore) (e : exn) :
  chunks <> [] ->
  embeddings_create env (events vs) (map c_text chunks) = Raise e ->
  snd (add_chunks env chunks vs) = Raise e
  /\ embeddings_data (fst (add_chunks env chunks vs)) = embeddings_data vs
  /\ storage_file (fst (add_chunks env chunks vs)) = storage_file vs
  /\ events (fst (add_chunks env chunks vs))
     = events vs ++ [EmbedRequest (map c_text chunks)].
Proof.
  intros Hne He. destruct chunks as [| c rest]; [congruence |].
  unfold add_chunks. rewrite He. repeat split.
Qed.

(** X5.  When the embedding response holds fewer vectors than the batch
    has chunks, [add_chunks] raises [IndexError]; the chunks that did get a
    vector are already in the in-memory mapping, but nothing was written to
    the file. *)
Theorem add_chunks_short_response
        (chunks : list Chunk) (vs : VectorStore) (data : list vector) :
  embeddings_create env (events vs) (map c_text chunks) = Ok data ->
  length data < length chunks ->
  snd (add_chunks env chunks vs) = Raise IndexError
  /\ storage_file (fst (add_chunks env chunks vs)) = storage_file vs
  /\ events (fst (add_chunks env chunks vs))
     = events vs ++ [EmbedRequest (map c_text chunks)]
  /\ forall j c,
       nth_error chunks j = Some c -> j < length data ->
       In (key_of c)
          (dict_keys (embeddings_data (fst (add_chunks env chunks vs)))).
Proof.
  intros He Hlen. destruct chunks as [| c0 rest]; [simpl in Hlen; lia |].
  unfold add_chunks. rewrite He.
  change (embeddings_data (log _ vs)) with (embeddings_data vs).
  pose proof (@store_chunks_short data (c0 :: rest) 0 (embeddings_data vs) []
                (Nat.le_0_l _) Hlen) as Hraise.
  pose proof (fun j c => @store_chunks_prefix_stored data (c0 :: rest) 0
                           (embeddings_data vs) [] j c) as Hpre.
  destruct (store_chunks data 0 (c0 :: rest) (embeddings_data vs) [])
    as [d [ids | e]]; simpl in Hraise; [discriminate |].
  inversion Hraise; subst. repeat split.
  intros j c Hj Hjl. simpl. exact (Hpre j c Hj Hjl).
Qed.

(** X6.  The key is a faithful name: two chunks get the same key only when
    they have the same document id and the same chunk index. *)
Theorem chunk_ids_never_collide (c1 c2 : Chunk) :
  key_of c1 = key_of c2 <-> chunk_key c1 = chunk_key c2.
Proof.
  unfold key_of, chunk_key. split.
  - intros E. apply chunk_id_of_inj in E as [-> ->]. reflexivity.
  - intros E. inversion E. reflexivity.
Qed.

End StoreMore.

(** The sample batch into the empty store. *)
Lemma add_chunks_returns_keys_in_order_witness :
  snd (add_chunks unit_env sample_batch empty_store)
  = Ok ["doc_1_chunk_0"; "doc_1_chunk_1"].
Proof.
  destruct (add_chunks unit_env sample_batch empty_store)
    as [vs' [ids | e]] eqn:E; [| vm_compute in E; discriminate].
  destruct (@add_chunks_returns_keys_in_order IntFloat unit_env
              sample_batch empty_store vs' ids E) as [-> _].
  reflexivity.
Defined.

Lemma sample_batch_distinct : NoDup (map chunk_key sample_batch).
Proof.
  repeat (constructor; [simpl; intuition discriminate |]). constructor.
Qed.

Lemma add_chunks_pairs_vectors_with_chunks_witness :
  exists emb,
    dict_get "doc_1_chunk_1"
             (embeddings_data (fst (add_chunks unit_env sample_batch
                                               empty_store)))
    = Some (record_of emb (plain_chunk 1 1 "beta")).
Proof.
  destruct (add_chunks unit_env sample_batch empty_store)
    as [vs' [ids | e]] eqn:E; [| vm_compute in E; discriminate].
  destruct (@add_chunks_pairs_vectors_with_chunks IntFloat unit_env
              sample_batch empty_store vs' ids sample_batch_distinct E)
    as (data & _ & Hget).
  destruct (Hget 1 (plain_chunk 1 1 "beta") eq_refl) as (emb & _ & H).
  exists emb. exact H.
Defined.

Lemma add_chunks_request_failure_witness :
  embeddings_data (fst (add_chunks down_env sample_batch two_document_store))
  = embeddings_data two_document_store.
Proof.
  assert (Hne : sample_batch <> []) by discriminate.
  exact (proj1 (proj2 (@add_chunks_request_failure IntFloat down_env
                         sample_batch two_document_store _ Hne eq_refl))).
Defined.

Lemma add_chunks_short_response_witness :
  snd (add_chunks short_env sample_batch empty_store) = Raise IndexError
  /\ In "doc_1_chunk_0"
        (dict_keys (embeddings_data
                      (fst (add_chunks short_env sample_batch empty_store)))).
Proof.
  assert (Hlen : length [unit_vector] < length sample_batch)
    by (simpl; lia).
  destruct (@add_chunks_short_response IntFloat short_env sample_batch
              empty_store [unit_vector] eq_refl Hlen)
    as (Hraise & _ & _ & Hkept).
  split; [exact Hraise |].
  assert (Hfirst : 0 < length [unit_vector]) by (simpl; lia).
  exact (Hkept 0 (plain_chunk 1 0 "alpha") eq_refl Hfirst).
Defined.

Section StoreAccounts.
Context {F : FloatOps}.
Variable env : Env.

Lemma delete_result (document_id : Z) (vs : VectorStore) :
  dict_wf (embeddings_data vs) ->
  delete_document_chunks env document_id vs
  = (_save_embeddings env
       (with_data
          (filter (fun kv => negb (r_document_id (snd kv) =? document_id)%Z)
                  (embeddings_data vs)) vs),
     Ok (0 <? length (records_of document_id (embeddings_data vs)))%nat).
Proof.
  intros Hwf. unfold delete_document_chunks.
  rewrite (delete_keys_filter _ Hwf).
  unfold dict_keys, records_of. now rewrite length_map.
Qed.

(** X7.  On a well-formed mapping [delete_document_chunks] lowers
    [total_chunks] by the number of records of the document, and a second
    call for the same document has nothing left to do: it returns [False]
    and leaves the mapping as it is. *)
Theorem delete_document_chunks_accounting
        (document_id : Z) (vs : VectorStore) :
  dict_wf (embeddings_data vs) ->
  let vs1 := fst (delete_document_chunks env document_id vs) in
  total_chunks (get_collection_stats vs1)
  + length (records_of document_id (embeddings_data vs))
  = total_chunks (get_collection_stats vs)
  /\ snd (delete_document_chunks env document_id vs1) = Ok false
  /\ embeddings_data (fst (delete_document_chunks env document_id vs1))
     = embeddings_data vs1.
Proof.
  intros Hwf vs1. subst vs1. rewrite (delete_result document_id vs Hwf).
  cbn [fst].
  set (kept := filter (fun kv => negb (r_document_id (snd kv) =? document_id)%Z)
                      (embeddings_data vs)).
  set (vs1 := _save_embeddings env (with_data kept vs)).
  assert (Hdata : embeddings_data vs1 = kept) by reflexivity.
  assert (Hwf1 : dict_wf (embeddings_data vs1))
    by (rewrite Hdata; apply NoDup_map_filter; exact Hwf).
  assert (Hnone : records_of document_id (embeddings_data vs1) = [])
    by (rewrite Hdata; apply records_of_none_left).
  rewrite (delete_result document_id vs1 Hwf1), Hnone. cbn [fst snd].
  split; [| split].
  - unfold get_collection_stats, dict_len, records_of.
    cbn [total_chunks]. rewrite Hdata. unfold kept.
    pose proof (filter_split_length
                  (fun kv : string * EmbeddingRecord =>
                     (r_document_id (snd kv) =? document_id)%Z)
                  (embeddings_data vs)). lia.
  - reflexivity.
  - change (embeddings_data (_save_embeddings env (with_data ?d vs1)))
      with d.
    now apply filter_none_matching.
Qed.

Lemma count_fold_keys (values : list EmbeddingRecord) :
  forall acc : dict Z Z,
    dict_wf acc ->
    let counts :=
      fold_left
        (fun document_counts chunk_data =>
           let doc_id := r_document_id chunk_data in
           dict_set doc_id
                    ((match dict_get doc_id document_counts with
                      | Some n => n
                      | None => 0
                      end) + 1)%Z
                    document_counts)
        values acc in
    dict_wf counts
    /\ forall d, In d (dict_keys counts)
                 <-> In d (dict_keys acc) \/ In d (map r_document_id values).
Proof.
  induction values as [| r rest IH]; intros acc Hwf; simpl.
  - split; [assumption |]. intros d. tauto.
  - match goal with
    | |- context [fold_left _ rest ?a] =>
        destruct (@IH a (dict_set_wf _ _ Hwf)) as [Hw Hk]
    end.
    split; [exact Hw |]. intros d. rewrite Hk. split.
    + intros [Hin | Hin]; [| tauto].
      apply dict_set_keys_inv in Hin as [-> | Hin]; tauto.
    + intros [Hin | [<- | Hin]].
      * left. now apply dict_set_keys_incl.
      * left. apply dict_set_key_in.
      * now right.
Qed.

(** X8.  [get_collection_stats] reports as [total_chunks] the number of
    records and as [documents_with_chunks] the number of different
    document ids among them, which is never more than [total_chunks]. *)
Theorem stats_count_records_and_documents (vs : VectorStore) :
  let ids := map r_document_id (dict_values (embeddings_data vs)) in
  total_chunks (get_collection_stats vs) = length (embeddings_data vs)
  /\ documents_with_chunks (get_collection_stats vs) = distinct_count ids
  /\ documents_with_chunks (get_collection_stats vs)
     <= total_chunks (get_collection_stats vs).
Proof.
  intros ids.
  assert (Hd : documents_with_chunks (get_collection_stats vs)
               = distinct_count ids).
  { unfold get_collection_stats, count_documents, distinct_count, dict_len.
    cbn [documents_with_chunks].
    destruct (@count_fold_keys (dict_values (embeddings_data vs)) []
                               (NoDup_nil _)) as [Hw Hk].
    cbv zeta in Hw, Hk.
    rewrite <- (length_map fst).
    apply Permutation_length, NoDup_Permutation;
      [exact Hw | apply NoDup_nodup |].
    intros d. rewrite nodup_In.
    change (map fst ?l) with (dict_keys l). rewrite Hk. simpl. tauto. }
  split; [reflexivity |]. split; [exact Hd |].
  rewrite Hd. unfold get_collection_stats, dict_len, distinct_count. simpl.
  replace (length (embeddings_data vs)) with (length ids)
    by (unfold ids, dict_values; now rewrite !length_map).
  apply NoDup_incl_length; [apply NoDup_nodup |].
  intros d Hd'. now apply nodup_In in Hd'.
Qed.


(** X9.  With a disk that writes, every operation that runs to its end
    leaves in the file exactly the mapping it leaves in memory, so that a
    new process starts from that mapping; and when the dump of a save
    fails, the file is damaged and a new process starts from the empty
    mapping. *)
Theorem restart_recovers_mapping :
  (forall (op : Operation) (vs : VectorStore),
      (forall ev d, file_write env ev d = Written) ->
      completed env op vs ->
      embeddings_data (start_store (storage_file (run_operation env vs op)))
      = embeddings_data (run_operation env vs op))
  /\ (forall vs : VectorStore,
         file_write env (events vs) (embeddings_data vs) = DumpFailed ->
         embeddings_data
           (start_store (storage_file (_save_embeddings env vs))) = []).
Proof.
  split.
  - intros op vs Hdisk Hdone. destruct op as [chunks | document_id |]; simpl.
    + destruct Hdone as [Hne Hok]. destruct chunks as [| c rest]; [congruence |].
      unfold add_chunks in *.
      destruct (embeddings_create env (events vs) (map c_text (c :: rest)))
        as [data | e]; [| discriminate].
      destruct (store_chunks data 0 (c :: rest) _ []) as [d [ids | e]];
        [| discriminate].
      simpl. now rewrite Hdisk.
    + simpl in Hdone. unfold delete_document_chunks.
      rewrite (delete_keys_filter _ Hdone). simpl. now rewrite Hdisk.
    + now rewrite Hdisk.
  - intros vs Hfail. unfold _save_embeddings. simpl. now rewrite Hfail.
Qed.

Lemma dot_terms_swap (vec1 vec2 : vector) :
  (forall a b, fmul a b = fmul b a) ->
  map (fun ab => fmul (fst ab) (snd ab)) (combine vec1 vec2)
  = map (fun ab => fmul (fst ab) (snd ab)) (combine vec2 vec1).
Proof.
  intros Hcomm. revert vec2.
  induction vec1 as [| a r IH]; intros [| b r']; simpl; try reflexivity.
  now rewrite IH, Hcomm.
Qed.

(** X10.  With a commutative product, [_cosine_similarity] does not depend
    on the order of its two vectors: same value, or the same division by
    zero. *)
Theorem cosine_similarity_symmetric (vec1 vec2 : vector) :
  (forall a b, fmul a b = fmul b a) ->
  _cosine_similarity vec1 vec2 = _cosine_similarity vec2 vec1.
Proof.
  intros Hcomm. unfold _cosine_similarity.
  rewrite (dot_terms_swap vec1 vec2 Hcomm).
  rewrite (Hcomm (fsqrt (fsum (map (fun a => fmul a a) vec1)))).
  now rewrite orb_comm.
Qed.

(** X11.  [search_similar_chunks] only reads: whatever its outcome the
    mapping and the file are as before, and one embedding request, for the
    query alone, is what happened. *)
Theorem search_only_reads (query : string) (document_id k : Z)
        (vs : VectorStore) :
  let vs' := fst (search_similar_chunks env query document_id k vs) in
  embeddings_data vs' = embeddings_data vs
  /\ storage_file vs' = storage_file vs
  /\ events vs' = events vs ++ [EmbedRequest [query]].
Proof.
  unfold search_similar_chunks.
  destruct (embeddings_create env (events vs) [query]) as [[| q rest] | e];
    try (repeat split; fail).
  destruct (score_items q document_id _); repeat split.
Qed.

Lemma score_items_ids q document_id (d : Store) sims :
  score_items q document_id d = Ok sims ->
  map sc_id sims = dict_keys (records_of document_id d).
Proof.
  revert sims. induction d as [| [k r] rest IH]; simpl; intros sims E.
  - now inversion E.
  - destruct (r_document_id r =? document_id)%Z.
    + destruct (_cosine_similarity q (r_embedding r)); [| discriminate].
      destruct (score_items q document_id rest) as [l |]; [| discriminate].
      inversion E; subst. simpl. now rewrite (IH l eq_refl).
    + now apply IH.
Qed.

Lemma score_items_none q document_id (d : Store) :
  records_of document_id d = [] -> score_items q document_id d = Ok [].
Proof.
  unfold records_of. induction d as [| [k r] rest IH]; simpl; [reflexivity |].
  destruct (r_document_id r =? document_id)%Z; [discriminate | assumption].
Qed.

Lemma insert_desc_perm x l : Permutation (insert_desc x l) (x :: l).
Proof.
  induction l as [| y r IH]; simpl; [reflexivity |].
  destruct (fltb (sc_similarity x) (sc_similarity y)); [| reflexivity].
  rewrite IH. apply perm_swap.
Qed.

Lemma sort_desc_perm l : Permutation (sort_desc l) l.
Proof.
  induction l as [| x r IH]; simpl; [reflexivity |].
  rewrite insert_desc_perm. now constructor.
Qed.

Lemma NoDup_first {A} (n : nat) (l : list A) : NoDup l -> NoDup (firstn n l).
Proof.
  intros Hnd. rewrite <- (firstn_skipn n l) in Hnd.
  now apply NoDup_app_remove_r in Hnd.
Qed.

Lemma slice_to_is_firstn {A} (l : list A) (k : Z) :
  exists n, slice_to l k = firstn n l.
Proof. unfold slice_to. destruct (0 <=? k)%Z; eexists; reflexivity. Qed.

(** X12.  Over a well-formed mapping a search never returns the same
    stored chunk twice: the ids of the results are pairwise different. *)
Theorem search_results_distinct (query : string) (document_id k : Z)
        (vs vs' : VectorStore) (results : list SimilarChunk) :
  dict_wf (embeddings_data vs) ->
  search_similar_chunks env query document_id k vs = (vs', Ok results) ->
  NoDup (map s_id results).
Proof.
  intros Hwf E.
  apply search_shape in E as (q & rest & sims & _ & Hs & -> & _).
  rewrite map_map. simpl.
  destruct (slice_to_is_firstn (sort_desc sims) k) as [n ->].
  rewrite <- firstn_map. apply NoDup_first.
  apply (Permutation_NoDup (l := map sc_id sims)).
  - apply Permutation_map. symmetry. apply sort_desc_perm.
  - rewrite (score_items_ids _ _ _ Hs). now apply NoDup_map_filter.
Qed.

(** X13.  The result count is a Python slice bound: for [k >= 0] a search
    returns [min(k, n)] results, and for a negative [k] it does not fail
    but returns all candidates except the last [-k] in rank, [n] being the
    number of stored records of the document. *)
Theorem search_result_count (query : string) (document_id k : Z)
        (vs vs' : VectorStore) (results : list SimilarChunk) :
  search_similar_chunks env query document_id k vs = (vs', Ok results) ->
  let n := length (records_of document_id (embeddings_data vs)) in
  length results
  = if (0 <=? k)%Z then Nat.min (Z.to_nat k) n else n - Z.to_nat (- k).
Proof.
  intros E n.
  apply search_shape in E as (q & rest & sims & _ & Hs & -> & _).
  assert (Hlen : length (sort_desc sims) = n).
  { rewrite sort_desc_length, <- (length_map sc_id), (score_items_ids _ _ _ Hs).
    unfold dict_keys. now rewrite length_map. }
  rewrite length_map. unfold slice_to.
  destruct (0 <=? k)%Z; rewrite length_firstn, Hlen; lia.
Qed.

(** X14.  For a document without stored records a search whose query was
    embedded returns the empty list, without computing any similarity. *)
Theorem search_unknown_document_is_empty
        (query : string) (document_id k : Z) (vs : VectorStore)
        (q : vector) (rest : list vector) :
  records_of document_id (embeddings_data vs) = [] ->
  embeddings_create env (events vs) [query] = Ok (q :: rest) ->
  snd (search_similar_chunks env query document_id k vs) = Ok [].
Proof.
  intros Hnone Hq. unfold search_similar_chunks. rewrite Hq.
  change (embeddings_data (log _ vs)) with (embeddings_data vs).
  rewrite (score_items_none q _ _ Hnone). simpl.
  destruct (slice_to_is_firstn (@nil Scored) k) as [n ->].
  now rewrite firstn_nil.
Qed.

End StoreAccounts.

Lemma delete_document_chunks_accounting_witness :
  total_chunks (get_collection_stats
                  (fst (delete_document_chunks unit_env 1 two_document_store)))
  + 2 = 3.
Proof.
  exact (proj1 (@delete_document_chunks_accounting IntFloat unit_env 1
                  two_document_store two_document_store_wf)).
Defined.

Lemma restart_recovers_mapping_witness :
  embeddings_data
    (start_store
       (storage_file
          (run_operation unit_env two_document_store (DeleteDocumentChunks 1))))
  = embeddings_data
      (run_operation unit_env two_document_store (DeleteDocumentChunks 1)).
Proof.
  apply (proj1 (@restart_recovers_mapping IntFloat unit_env)
               (DeleteDocumentChunks 1) two_document_store).
  - reflexivity.
  - exact two_document_store_wf.
Defined.

Lemma cosine_similarity_symmetric_witness :
  @_cosine_similarity IntFloat [1%Z; 0%Z] [0%Z; 1%Z; 5%Z]
  = @_cosine_similarity IntFloat [0%Z; 1%Z; 5%Z] [1%Z; 0%Z].
Proof.
  apply (@cosine_similarity_symmetric IntFloat). exact Z.mul_comm.
Defined.

Lemma search_results_distinct_witness :
  exists results,
    snd (search_similar_chunks unit_env "q" 1 3 two_document_store)
    = Ok results
    /\ NoDup (map s_id results).
Proof.
  destruct (search_similar_chunks unit_env "q" 1 3 two_document_store)
    as [vs' [results | e]] eqn:E; [| vm_compute in E; discriminate].
  exists results. split; [reflexivity |].
  exact (@search_results_distinct IntFloat unit_env "q" 1 3
           two_document_store vs' results two_document_store_wf E).
Defined.

Lemma search_result_count_witness :
  exists results,
    snd (search_similar_chunks unit_env "q" 1 (-1) two_document_store)
    = Ok results
    /\ length results = 1.
Proof.
  destruct (search_similar_chunks unit_env "q" 1 (-1) two_document_store)
    as [vs' [results | e]] eqn:E; [| vm_compute in E; discriminate].
  exists results. split; [reflexivity |].
  exact (@search_result_count IntFloat unit_env "q" 1 (-1)
           two_document_store vs' results E).
Defined.

Lemma search_unknown_document_is_empty_witness :
  snd (search_similar_chunks unit_env "q" 9 3 two_document_store) = Ok [].
Proof.
  exact (@search_unknown_document_is_empty IntFloat unit_env "q" 9 3
           two_document_store unit_vector [] eq_refl eq_refl).
Defined.

(* ================================================================== *)
(** * More about the chunker *)
(* ================================================================== *)

Unset Implicit Arguments.

Lemma truthy_rstrip s : truthy (rstrip s) = has_nonspace s.
Proof.
  induction s as [| c r IH]; simpl; [reflexivity |].
  destruct (rstrip r) eqn:E; simpl in *.
  - rewrite <- IH. destruct (is_space c); reflexivity.
  - rewrite <- IH. now rewrite orb_true_r.
Qed.

Lemma has_nonspace_lstrip s : has_nonspace (lstrip s) = has_nonspace s.
Proof.
  induction s as [| c r IH]; simpl; [reflexivity |].
  destruct (is_space c) eqn:E; simpl; [assumption | now rewrite E].
Qed.

Lemma has_nonspace_rstrip s : has_nonspace (rstrip s) = has_nonspace s.
Proof.
  induction s as [| c r IH]; simpl; [reflexivity |].
  destruct (rstrip r) eqn:E; simpl in *.
  - rewrite <- IH. destruct (is_space c) eqn:Ec; simpl; [reflexivity |].
    now rewrite Ec.
  - now rewrite IH.
Qed.

Lemma truthy_strip s : truthy (strip s) = has_nonspace s.
Proof. unfold strip. now rewrite truthy_rstrip, has_nonspace_lstrip. Qed.

Lemma has_nonspace_strip s : has_nonspace (strip s) = has_nonspace s.
Proof. unfold strip. now rewrite has_nonspace_rstrip, has_nonspace_lstrip. Qed.

Lemma has_nonspace_app (a b : string) :
  has_nonspace (a ++ b) = has_nonspace a || has_nonspace b.
Proof.
  induction a as [| c r IH]; simpl; [reflexivity |].
  now rewrite IH, orb_assoc.
Qed.

Lemma has_nonspace_truthy s : has_nonspace s = true -> truthy s = true.
Proof. destruct s; simpl; [discriminate | reflexivity]. Qed.

Lemma rstrip_idem s : rstrip (rstrip s) = rstrip s.
Proof.
  induction s as [| c r IH]; simpl; [reflexivity |].
  destruct (rstrip r) eqn:E.
  - destruct (is_space c) eqn:Ec; simpl; [reflexivity | now rewrite Ec].
  - simpl. simpl in IH. now rewrite IH.
Qed.

Lemma lstrip_clean s :
  match lstrip s with
  | EmptyString => True
  | String c _ => is_space c = false
  end.
Proof.
  induction s as [| c r IH]; simpl; [exact I |].
  destruct (is_space c) eqn:E; [assumption | simpl; assumption].
Qed.

Lemma lstrip_rstrip_clean s :
  match s with
  | EmptyString => True
  | String c _ => is_space c = false
  end ->
  lstrip (rstrip s) = rstrip s.
Proof.
  destruct s as [| c r]; simpl; [reflexivity |]. intros Hc.
  destruct (rstrip r); rewrite ?Hc; simpl; rewrite ?Hc; reflexivity.
Qed.

Lemma strip_idem s : strip (strip s) = strip s.
Proof.
  unfold strip. rewrite (lstrip_rstrip_clean (lstrip s) (lstrip_clean s)).
  apply rstrip_idem.
Qed.

Lemma sentences_have_text (text : string) :
  Forall (fun s => has_nonspace s = true) (_split_into_sentences text).
Proof.
  unfold _split_into_sentences.
  generalize (re_split_terminators text EmptyString false). intros pieces.
  induction pieces as [| p rest IH]; simpl; [constructor |].
  destruct (truthy (strip p)) eqn:E; [| assumption].
  constructor; [| assumption].
  rewrite has_nonspace_strip. now rewrite truthy_strip in E.
Qed.

Section ChunkerMore.
Variable self : DocumentProcessor.

Lemma page_numbers_nonempty (text : string) : _extract_page_numbers text <> [].
Proof.
  unfold _extract_page_numbers.
  destruct (findall_page_markers text 0); discriminate.
Qed.

Lemma indices_S n : indices (S n) = indices n ++ [Z.of_nat n].
Proof. unfold indices. now rewrite seq_S, map_app. Qed.

Lemma create_chunk_sound (buffer : string) (index document_id : Z) :
  has_nonspace buffer = true ->
  sound_chunk self document_id
              (_create_chunk self (strip buffer) index document_id).
Proof.
  intros Hb. unfold sound_chunk, _create_chunk. simpl.
  repeat split.
  - eexists. split; [reflexivity | apply page_numbers_nonempty].
  - now rewrite has_nonspace_strip.
  - apply strip_idem.
Qed.

Lemma chunk_step_invariant (document_id : Z) (st : Chunking) (s : string) :
  has_nonspace s = true ->
  chunking_invariant self document_id st ->
  chunking_invariant self document_id (chunk_step self document_id st s)
  /\ has_nonspace (current_chunk (chunk_step self document_id st s)) = true.
Proof.
  intros Hs (Hsound & Hidx & Hnext & Hbuf). unfold chunk_step.
  destruct ((chunk_size self <? current_tokens st + count_tokens self s)%Z
            && truthy (current_chunk st)) eqn:Hc; simpl.
  - apply andb_prop in Hc as [_ Ht].
    assert (Hb : has_nonspace (current_chunk st) = true).
    { destruct Hbuf as [E | E]; [rewrite E in Ht; discriminate | exact E]. }
    assert (Hnew : has_nonspace
                     (_get_overlap_text self (current_chunk st) ++ " " ++ s)
                   = true)
      by (rewrite !has_nonspace_app, Hs; now rewrite !orb_true_r).
    split; [| exact Hnew].
    unfold chunking_invariant. simpl.
    rewrite length_app, map_app, Nat.add_1_r, indices_S, Hidx. simpl.
    repeat split.
    + apply Forall_app. split; [assumption |].
      constructor; [now apply create_chunk_sound | constructor].
    + now rewrite Hnext.
    + lia.
    + now right.
  - assert (Hnew : has_nonspace
                     (current_chunk st
                      ++ (if truthy (current_chunk st) then " " ++ s else s))
                   = true).
    { rewrite has_nonspace_app.
      destruct (truthy (current_chunk st));
        [rewrite has_nonspace_app |]; rewrite Hs; now rewrite !orb_true_r. }
    split; [| exact Hnew].
    unfold chunking_invariant. simpl. repeat split; try assumption.
    now right.
Qed.

Lemma chunk_fold_invariant (document_id : Z) (sentences : list string) :
  Forall (fun s => has_nonspace s = true) sentences ->
  forall st,
    chunking_invariant self document_id st ->
    chunking_invariant self document_id
      (fold_left (chunk_step self document_id) sentences st)
    /\ (sentences <> [] ->
        has_nonspace
          (current_chunk (fold_left (chunk_step self document_id) sentences st))
        = true).
Proof.
  induction 1 as [| s rest Hs Hrest IH]; intros st Hst; simpl.
  - split; [assumption | congruence].
  - destruct (chunk_step_invariant document_id st s Hs Hst) as [Hinv Hbuf].
    destruct (IH _ Hinv) as [Hfinal Hlast]. split; [assumption |].
    intros _. destruct rest as [| s' rest']; [exact Hbuf |].
    apply Hlast. discriminate.
Qed.

Lemma chunking_start_invariant (document_id : Z) :
  chunking_invariant self document_id chunking_start.
Proof.
  unfold chunking_invariant, chunking_start. simpl.
  repeat split; [constructor | now left].
Qed.

(** X15.  Every chunk that [chunk_text] returns carries the document id
    it was given, the tokenizer's count of its own text as [token_count],
    a non-empty [page_numbers], and a text that is not blank and has no
    white space at either end; the chunk indices are 0, 1, ..., N-1 in the
    order of the list. *)
Theorem chunk_text_chunks_are_sound (text : string) (document_id : Z) :
  let result := chunk_text self text document_id in
  Forall (sound_chunk self document_id) result
  /\ map c_chunk_index result = indices (length result).
Proof.
  unfold chunk_text.
  destruct (chunk_fold_invariant document_id _
              (sentences_have_text (_clean_text text)) _
              (chunking_start_invariant document_id))
    as [(Hsound & Hidx & Hnext & Hbuf) _].
  unfold chunk_finish.
  set (st := fold_left (chunk_step self document_id)
                       (_split_into_sentences (_clean_text text))
                       chunking_start) in *.
  destruct (truthy (strip (current_chunk st))) eqn:Ht; [| now split].
  rewrite truthy_strip in Ht. split.
  - apply Forall_app. split; [assumption |].
    constructor; [now apply create_chunk_sound | constructor].
  - rewrite length_app, map_app, Nat.add_1_r, indices_S, Hidx. simpl.
    now rewrite Hnext.
Qed.

(** X16.  [chunk_text] returns no chunk exactly when the cleaned text has
    no sentence: an empty text, white space, or punctuation alone. *)
Theorem chunk_text_empty_iff_no_sentence (text : string) (document_id : Z) :
  chunk_text self text document_id = []
  <-> _split_into_sentences (_clean_text text) = [].
Proof.
  unfold chunk_text. split.
  - intros Hnil.
    destruct (_split_into_sentences (_clean_text text)) as [| s rest] eqn:Es;
      [reflexivity | exfalso].
    pose proof (sentences_have_text (_clean_text text)) as Hall.
    rewrite Es in Hall.
    destruct (chunk_fold_invariant document_id _ Hall _
                (chunking_start_invariant document_id)) as [_ Hlast].
    specialize (Hlast ltac:(discriminate)).
    unfold chunk_finish in Hnil. rewrite truthy_strip, Hlast in Hnil.
    now apply app_eq_nil in Hnil as [_ Hnil].
  - intros ->. reflexivity.
Qed.

Lemma chunk_count_bound (document_id : Z) (sentences : list string) :
  forall st,
    length (chunks (fold_left (chunk_step self document_id) sentences st))
    + (if truthy (current_chunk
                    (fold_left (chunk_step self document_id) sentences st))
       then 1 else 0)
    <= length (chunks st) + (if truthy (current_chunk st) then 1 else 0)
       + length sentences.
Proof.
  induction sentences as [| s rest IH]; intros st; simpl; [lia |].
  etransitivity; [apply IH |].
  unfold chunk_step.
  destruct ((chunk_size self <? current_tokens st + count_tokens self s)%Z
            && truthy (current_chunk st)) eqn:Hc; simpl.
  - apply andb_prop in Hc as [_ ->]. rewrite length_app. simpl.
    destruct (truthy _); lia.
  - destruct (truthy (current_chunk st ++ _)), (truthy (current_chunk st)); lia.
Qed.

(** X17.  [chunk_text] never returns more chunks than the cleaned text
    has sentences. *)
Theorem chunk_text_at_most_one_chunk_per_sentence
        (text : string) (document_id : Z) :
  length (chunk_text self text document_id)
  <= length (_split_into_sentences (_clean_text text)).
Proof.
  unfold chunk_text, chunk_finish.
  pose proof (chunk_count_bound document_id
                (_split_into_sentences (_clean_text text)) chunking_start)
    as Hb. simpl in Hb.
  set (st := fold_left _ _ chunking_start) in *.
  destruct (truthy (strip (current_chunk st))) eqn:Ht.
  - rewrite truthy_strip in Ht. apply has_nonspace_truthy in Ht.
    rewrite Ht in Hb. rewrite length_app. simpl. lia.
  - destruct (truthy (current_chunk st)); lia.
Qed.

Lemma count_tokens_nonneg (s : string) : (0 <= count_tokens self s)%Z.
Proof. unfold count_tokens. lia. Qed.

Lemma total_tokens_nonneg (l : list string) : (0 <= total_tokens self l)%Z.
Proof.
  unfold total_tokens. induction l as [| s r IH]; simpl; [lia |].
  pose proof (count_tokens_nonneg s). lia.
Qed.

Lemma chunk_fold_within_limit (document_id : Z) (sentences : list string) :
  Forall (fun s => truthy s = true) sentences ->
  forall (first : string) (tokens : Z),
    truthy first = true ->
    (tokens + total_tokens self sentences <= chunk_size self)%Z ->
    fold_left (chunk_step self document_id) sentences
              {| chunks := []; current_chunk := first;
                 current_tokens := tokens; chunk_index := 0 |}
    = {| chunks := [];
         current_chunk := join " " (first :: sentences);
         current_tokens := (tokens + total_tokens self sentences)%Z;
         chunk_index := 0 |}.
Proof.
  induction 1 as [| s rest Hs Hrest IH]; intros first tokens Hf Hsum; simpl.
  - unfold total_tokens. simpl. now rewrite Z.add_0_r.
  - unfold total_tokens in Hsum. simpl in Hsum. fold (total_tokens self rest) in Hsum.
    pose proof (total_tokens_nonneg rest) as Hr.
    unfold chunk_step at 2. simpl.
    destruct (Z.ltb_spec (chunk_size self) (tokens + count_tokens self s));
      [lia |].
    simpl. rewrite Hf.
    assert (Hjoin : truthy (first ++ " " ++ s) = true)
      by (destruct first; [discriminate | reflexivity]).
    rewrite (IH (first ++ " " ++ s)%string _ Hjoin) by lia.
    f_equal.
    + destruct rest as [| s' rest']; simpl.
      * reflexivity.
      * now rewrite !append_assoc.
    + unfold total_tokens. simpl. lia.
Qed.

(** X18.  When the token counts of the sentences add up to no more than
    [chunk_size], [chunk_text] returns a single chunk, with index 0, whose
    text is the sentences joined by single spaces (trimmed). *)
Theorem chunk_text_single_chunk_when_it_fits (text : string) (document_id : Z) :
  let sentences := _split_into_sentences (_clean_text text) in
  sentences <> [] ->
  (total_tokens self sentences <= chunk_size self)%Z ->
  chunk_text self text document_id
  = [_create_chunk self (strip (join " " sentences)) 0 document_id].
Proof.
  intros sentences Hne Hfit. unfold chunk_text. fold sentences.
  pose proof (sentences_have_text (_clean_text text)) as Hall.
  fold sentences in Hall.
  destruct sentences as [| s rest]; [congruence |].
  inversion Hall as [| ? ? Hs Hrest]; subst.
  unfold total_tokens in Hfit. simpl in Hfit. fold (total_tokens self rest) in Hfit.
  pose proof (total_tokens_nonneg rest) as Hr.
  pose proof (count_tokens_nonneg s) as Hc.
  simpl fold_left. unfold chunk_step at 2. simpl.
  rewrite andb_false_r.
  cbn [current_chunk current_tokens chunks chunk_index truthy].
  rewrite chunk_fold_within_limit.
  - unfold chunk_finish. cbn [current_chunk chunks chunk_index].
    rewrite truthy_strip.
    assert (Hj : has_nonspace (join " " (s :: rest)) = true).
    { destruct rest; simpl; [assumption |].
      rewrite has_nonspace_app, Hs. reflexivity. }
    now rewrite Hj.
  - eapply Forall_impl; [| exact Hrest].
    intros a Ha. now apply has_nonspace_truthy.
  - now apply has_nonspace_truthy.
  - lia.
Qed.

End ChunkerMore.

Lemma chunk_text_single_chunk_when_it_fits_witness :
  map c_text (chunk_text default_processor "a b c. d e f g." 7)
  = ["a b c d e f g"].
Proof.
  assert (Hne : _split_into_sentences (_clean_text "a b c. d e f g.") <> [])
    by (vm_compute; discriminate).
  assert (Hfit : (total_tokens default_processor
                    (_split_into_sentences (_clean_text "a b c. d e f g."))
                  <= chunk_size default_processor)%Z)
    by (vm_compute; discriminate).
  rewrite (chunk_text_single_chunk_when_it_fits default_processor
             "a b c. d e f g." 7 Hne Hfit).
  reflexivity.
Defined.

(* ================================================================== *)
(** * Extraction and fixed-size chunking *)
(* ================================================================== *)

Lemma pdf_pages_text_blank (pages : list (result string)) :
  forall (page_num : Z) (text : string),
    pdf_pages_text page_num pages text
    = pdf_pages_text page_num (map blank_if_failed pages) text.
Proof.
  induction pages as [| page rest IH]; intros page_num text; simpl.
  - reflexivity.
  - destruct page as [page_text | e]; simpl.
    + destruct (truthy (strip page_text)); apply IH.
    + apply IH.
Qed.

Lemma pdf_pages_text_none (pages : list (result string)) :
  Forall no_text pages ->
  forall (page_num : Z) (text : string),
    pdf_pages_text page_num pages text = text.
Proof.
  induction 1 as [| page rest Hp Hrest IH]; intros page_num text; simpl.
  - reflexivity.
  - destruct page as [page_text | e]; simpl in *.
    + rewrite truthy_strip, Hp. apply IH.
    + apply IH.
Qed.

(** X19.  Once the PDF opens, [_extract_from_pdf] does not raise: the page
    count is the number of pages whether or not they gave text, a page
    whose extraction raises changes the text no more than a page without
    text does, and when no page gives text the text is empty. *)
Theorem pdf_extraction_survives_bad_pages
        (file : UploadedFile) (pages : list (result string)) :
  read_pdf file = Ok pages ->
  _extract_from_pdf file
  = Ok (pdf_pages_text 0 (map blank_if_failed pages) EmptyString,
        Z.of_nat (length pages))
  /\ (Forall no_text pages ->
      _extract_from_pdf file = Ok (EmptyString, Z.of_nat (length pages))).
Proof.
  intros Hread. unfold _extract_from_pdf. rewrite Hread. split.
  - now rewrite <- pdf_pages_text_blank.
  - intros Hnone. now rewrite pdf_pages_text_none.
Qed.

Lemma pdf_extraction_survives_bad_pages_witness :
  _extract_from_pdf (pdf_of bad_second_page)
  = _extract_from_pdf (pdf_of [Ok "One."; Ok ""; Ok "Three."])
  /\ snd_page_count (_extract_from_pdf (pdf_of bad_second_page)) = Some 3%Z.
Proof.
  rewrite (proj1 (pdf_extraction_survives_bad_pages
                    (pdf_of bad_second_page) bad_second_page eq_refl)).
  split; reflexivity.
Defined.

Section FixedSize.
Variable tok : Tokenizer.

Lemma slice_length_bound {A} (l : list A) (start stop : Z) :
  (0 <= start)%Z -> (0 <= stop)%Z ->
  (Z.of_nat (length (slice l start stop)) <= Z.max 0 (stop - start))%Z.
Proof.
  intros Hs He. unfold slice, clamp_index.
  rewrite length_firstn.
  destruct (Z.ltb_spec start 0); [lia |].
  destruct (Z.ltb_spec stop 0); lia.
Qed.

Lemma slice_whole {A} (l : list A) :
  slice l 0 (Z.of_nat (length l)) = l.
Proof.
  unfold slice, clamp_index. simpl.
  destruct (Z.ltb_spec (Z.of_nat (length l)) 0); [lia |].
  rewrite Nat2Z.id, Nat.min_id, Nat.sub_0_r. apply firstn_all.
Qed.

Lemma fixed_size_loop_ends (tokens : list (token tok)) (chunk_size overlap : Z) :
  (0 < chunk_size)%Z -> (0 <= overlap < chunk_size)%Z ->
  forall (fuel : nat) (start : Z) (chunks : list string),
    (0 <= start)%Z ->
    (0 < Z.of_nat fuel)%Z ->
    (Z.of_nat (length tokens) - start < Z.of_nat fuel)%Z ->
    exists added,
      fixed_size_loop tok fuel tokens chunk_size overlap start chunks
      = Some (chunks ++ added)
      /\ Forall (decodes_at_most tok chunk_size) added.
Proof.
  intros Hcs Hov.
  induction fuel as [| fuel IH]; intros start chunks Hstart Hfuel Hleft.
  - lia.
  - simpl.
    destruct (Z.ltb_spec start (Z.of_nat (length tokens))) as [Hin | Hout].
    + set (end_ := Z.min (start + chunk_size) (Z.of_nat (length tokens))).
      assert (Hchunk : decodes_at_most tok chunk_size
                         (decode tok (slice tokens start end_))).
      { eexists. split; [reflexivity |].
        assert (Hend : (0 <= end_)%Z) by (unfold end_; lia).
        pose proof (slice_length_bound tokens start end_ Hstart Hend).
        unfold end_ in *. lia. }
      destruct (IH (if (end_ <? Z.of_nat (length tokens))%Z
                    then (end_ - overlap)%Z else end_)
                   (chunks ++ [decode tok (slice tokens start end_)]))
        as (added & Hrun & Hall).
      * unfold end_. destruct (Z.ltb_spec
            (Z.min (start + chunk_size) (Z.of_nat (length tokens)))
            (Z.of_nat (length tokens))); lia.
      * lia.
      * unfold end_. destruct (Z.ltb_spec
            (Z.min (start + chunk_size) (Z.of_nat (length tokens)))
            (Z.of_nat (length tokens))); lia.
      * exists (decode tok (slice tokens start end_) :: added).
        rewrite Hrun, <- app_assoc. split; [reflexivity | now constructor].
    + exists []. rewrite app_nil_r. split; [reflexivity | constructor].
Qed.

(** X20.  With a positive [chunk_size] and [0 <= overlap < chunk_size],
    [fixed_size_chunking] ends within one turn per token (and one more):
    every chunk is the decoding of at most [chunk_size] tokens, an empty
    token list gives no chunk, and a text of at most [chunk_size] tokens
    gives the single chunk that decodes all of them. *)
Theorem fixed_size_chunking_ends (text : string) (chunk_size overlap : Z) :
  (0 < chunk_size)%Z -> (0 <= overlap < chunk_size)%Z ->
  let tokens := encode tok text in
  exists chunks,
    fixed_size_chunking tok (S (length tokens)) text chunk_size overlap
    = Some chunks
    /\ Forall (decodes_at_most tok chunk_size) chunks
    /\ (tokens = [] -> chunks = [])
    /\ (tokens <> [] -> (Z.of_nat (length tokens) <= chunk_size)%Z ->
        chunks = [decode tok tokens]).
Proof.
  intros Hcs Hov tokens. unfold fixed_size_chunking. fold tokens.
  destruct (fixed_size_loop_ends tokens chunk_size overlap Hcs Hov
              (S (length tokens)) 0 []) as (added & Hrun & Hall); try lia.
  exists added. simpl app in Hrun. split; [exact Hrun |].
  split; [exact Hall |]. split.
  - intros Hnil. rewrite Hnil in Hrun. simpl in Hrun. congruence.
  - intros Hne Hfit.
    destruct tokens as [| t rest] eqn:Et; [congruence |].
    rewrite <- Et in *. clear Hne.
    assert (Hlen : (0 < Z.of_nat (length tokens))%Z)
      by (rewrite Et; simpl; lia).
    assert (Hfuel : S (length tokens) = S (S (length rest)))
      by (rewrite Et; reflexivity).
    rewrite Hfuel in Hrun. simpl in Hrun.
    destruct (Z.ltb_spec 0 (Z.of_nat (length tokens))); [| lia].
    rewrite Z.min_r in Hrun by lia.
    rewrite !Z.ltb_irrefl, slice_whole in Hrun.
    inversion Hrun. reflexivity.
Qed.

Lemma fixed_size_loop_stuck (tokens : list (token tok)) (chunk_size overlap : Z) :
  (chunk_size <= overlap)%Z ->
  (chunk_size < Z.of_nat (length tokens))%Z ->
  (0 < Z.of_nat (length tokens))%Z ->
  forall (fuel : nat) (start : Z) (chunks : list string),
    (start <= 0)%Z ->
    fixed_size_loop tok fuel tokens chunk_size overlap start chunks = None.
Proof.
  intros Hov Hlong Hne.
  induction fuel as [| fuel IH]; intros start chunks Hstart; simpl.
  - reflexivity.
  - destruct (Z.ltb_spec start (Z.of_nat (length tokens))); [| lia].
    rewrite Z.min_l by lia.
    destruct (Z.ltb_spec (start + chunk_size) (Z.of_nat (length tokens)));
      [| lia].
    apply IH. lia.
Qed.

(** X21.  When [overlap] is not smaller than [chunk_size] and the text has
    more than [chunk_size] tokens, the loop of [fixed_size_chunking] never
    ends: the start position never moves forward, however many turns are
    allowed. *)
Theorem fixed_size_chunking_never_ends
        (text : string) (chunk_size overlap : Z) (fuel : nat) :
  (chunk_size <= overlap)%Z ->
  (chunk_size < Z.of_nat (length (encode tok text)))%Z ->
  (0 < Z.of_nat (length (encode tok text)))%Z ->
  fixed_size_chunking tok fuel text chunk_size overlap = None.
Proof.
  intros Hov Hlong Hne. unfold fixed_size_chunking.
  apply fixed_size_loop_stuck; try assumption. lia.
Qed.

End FixedSize.

Lemma fixed_size_chunking_ends_witness :
  exists chunks,
    fixed_size_chunking WordTokenizer 8 "a b c d e f g" 3 1 = Some chunks
    /\ Forall (decodes_at_most WordTokenizer 3) chunks.
Proof.
  assert (Hcs : (0 < 3)%Z) by lia.
  assert (Hov : (0 <= 1 < 3)%Z) by lia.
  destruct (fixed_size_chunking_ends WordTokenizer "a b c d e f g" 3 1 Hcs Hov)
    as (chunks & Hrun & Hall & _).
  exists chunks. split; assumption.
Defined.

Lemma fixed_size_chunking_never_ends_witness :
  fixed_size_chunking WordTokenizer 1000 "a b c d e f g" 3 3 = None.
Proof.
  apply (fixed_size_chunking_never_ends WordTokenizer "a b c d e f g" 3 3 1000);
    vm_compute; congruence.
Defined.

(* ================================================================== *)
(** * More about the generation service *)
(* ================================================================== *)

Lemma string_length_app (a b : string) :
  String.length (a ++ b) = String.length a + String.length b.
Proof. induction a; simpl; congruence. Qed.

Lemma substring_prefix_length (n : nat) (s : string) :
  String.length (substring 0 n s) = Nat.min n (String.length s).
Proof.
  revert s. induction n as [| n IH]; intros [| c r]; simpl; try reflexivity.
  now rewrite IH.
Qed.

Lemma text_preview_bounded (text : string) :
  String.length (text_preview text) <= 203
  /\ (String.length text <= 200 -> text_preview text = text).
Proof.
  unfold text_preview.
  destruct (Nat.ltb_spec 200 (String.length text)) as [Hlong | Hshort].
  - split; [| lia].
    rewrite string_length_app, substring_prefix_length.
    change (String.length "...") with 3. lia.
  - split; [lia | reflexivity].
Qed.

Lemma dict_set_keys_any_value {K V : Type} `{Key K}
      (k : K) (v v' : V) (d : dict K V) :
  dict_keys (dict_set k v d) = dict_keys (dict_set k v' d).
Proof.
  induction d as [| [k0 v0] r IH]; simpl; [reflexivity |].
  destruct (key_eqb k k0); simpl; [reflexivity | now f_equal].
Qed.

Section GenerationMore.
Context {F : FloatOps}.
Variable llm : LLMEnv.

(** X22.  [_format_sources] gives one source per context chunk, in order;
    the source of a chunk carries its chunk index and a preview of its text
    of at most 203 characters, which is the text itself when that has at
    most 200. *)
Theorem format_sources_bounded_previews
        (chunks : list SimilarChunk) (j : nat) (chunk : SimilarChunk) :
  nth_error chunks j = Some chunk ->
  length (_format_sources chunks) = length chunks
  /\ exists source preview,
       nth_error (_format_sources chunks) j = Some (PDict source)
       /\ dict_get "chunk_index" source = Some (PInt (s_chunk_index chunk))
       /\ dict_get "text_preview" source = Some (PStr preview)
       /\ String.length preview <= 203
       /\ (String.length (s_text chunk) <= 200 -> preview = s_text chunk).
Proof.
  intros Hj. unfold _format_sources. split; [apply length_map |].
  rewrite nth_error_map, Hj. simpl.
  do 2 eexists. split; [reflexivity |]. split; [reflexivity |].
  split; [reflexivity |]. apply text_preview_bounded.
Qed.

(** X23.  When the chat client answers with a JSON object,
    [generate_answer] returns that object with every key the model gave
    left as it is, except ['sources'], which is set to the formatted
    context chunks even when the model supplied one of its own. *)
Theorem generate_answer_keeps_model_fields
        (question : string) (context_chunks : list SimilarChunk)
        (document_title content : string) (rest : list (option string))
        (parsed : dict string pyval) :
  chat_completions_create
    llm (answer_request question context_chunks document_title)
  = Ok (Some content :: rest) ->
  json_loads llm content = Ok (PDict parsed) ->
  let answer := generate_answer llm question context_chunks document_title in
  (forall k, k <> "sources" -> dict_get k answer = dict_get k parsed)
  /\ dict_get "sources" answer
     = Some (PList (_format_sources context_chunks))
  /\ dict_keys answer
     = dict_keys (dict_set "sources" PNone parsed).
Proof.
  intros Hchat Hjson answer. subst answer.
  unfold generate_answer, generate_answer_body.
  unfold answer_request in Hchat. rewrite Hchat, Hjson.
  split; [| split].
  - intros k Hk. now apply dict_get_set_other.
  - apply dict_get_set_here.
  - apply dict_set_keys_any_value.
Qed.

(** X24.  [generate_embedding_summary] never raises: when its request
    fails in any way it returns the preview of the text (the text itself
    up to 200 characters, at most 203 otherwise), and when the request
    succeeds it returns the model's text without white space at either
    end.  [validate_question] never raises either: when its request
    fails the question comes back unchanged, flagged valid, with no
    suggestion. *)
Theorem llm_helpers_degrade (text question : string) :
  (is_ok (generate_embedding_summary_body llm text) = false ->
     generate_embedding_summary llm text = text_preview text
     /\ String.length (generate_embedding_summary llm text) <= 203)
  /\ (is_ok (generate_embedding_summary_body llm text) = true ->
        strip (generate_embedding_summary llm text)
        = generate_embedding_summary llm text)
  /\ (is_ok (validate_question_body llm question) = false ->
        validate_question llm question
        = PDict [ ("is_valid", PBool true);
                  ("improved_question", PStr question);
                  ("suggestions", PList []) ]).
Proof.
  unfold generate_embedding_summary, validate_question.
  split; [| split].
  - destruct (generate_embedding_summary_body llm text); [discriminate |].
    intros _. split; [reflexivity | apply text_preview_bounded].
  - unfold generate_embedding_summary_body.
    destruct (chat_completions_create llm _) as [[| [content |] others] | e];
      try discriminate.
    intros _. apply strip_idem.
  - destruct (validate_question_body llm question); [discriminate |].
    reflexivity.
Qed.

End GenerationMore.

Lemma format_sources_bounded_previews_witness :
  length (_format_sources [sample_result]) = 1
  /\ exists source,
       nth_error (_format_sources [sample_result]) 0 = Some (PDict source)
       /\ dict_get "text_preview" source = Some (PStr "alpha").
Proof.
  destruct (@format_sources_bounded_previews IntFloat [sample_result] 0
              sample_result eq_refl)
    as (Hlen & source & preview & Hnth & _ & Hprev & _ & Hsame).
  split; [exact Hlen |]. exists source. split; [exact Hnth |].
  rewrite Hprev, Hsame; [reflexivity | simpl; lia].
Defined.

Lemma generate_answer_keeps_model_fields_witness :
  dict_get "answer" (generate_answer answering_llm "What is it?" [] "Report")
  = Some (PStr "Forty-two.")
  /\ dict_get "sources"
              (generate_answer answering_llm "What is it?" [] "Report")
     = Some (PList []).
Proof.
  destruct (@generate_answer_keeps_model_fields IntFloat answering_llm
              "What is it?" [] "Report" "{...}" []
              [("answer", PStr "Forty-two."); ("sources", PStr "made up")]
              eq_refl eq_refl) as (Hkeep & Hsrc & _).
  split; [| exact Hsrc].
  rewrite Hkeep; [reflexivity | discriminate].
Defined.

Lemma llm_helpers_degrade_witness :
  generate_embedding_summary unreachable_llm "A short text."
  = "A short text."
  /\ validate_question unreachable_llm "Why?"
     = PDict [ ("is_valid", PBool true);
               ("improved_question", PStr "Why?");
               ("suggestions", PList []) ].
Proof.
  destruct (@llm_helpers_degrade IntFloat unreachable_llm
              "A short text." "Why?") as (Hsum & _ & Hval).
  split.
  - rewrite (proj1 (Hsum eq_refl)). reflexivity.
  - exact (Hval eq_refl).
Defined.

(* ================================================================== *)
(** * The query and delete views *)
(* ================================================================== *)

Section DictDelete.
Context {K V : Type} `{Key K}.
Implicit Types (d : dict K V) (k : K) (v : V).

Lemma dict_get_absent k d : ~ In k (dict_keys d) -> dict_get k d = None.
Proof.
  induction d as [| [k0 v0] r IH]; simpl; intros Hnin; [reflexivity |].
  key_cases k k0; [exfalso; apply Hnin; now left |].
  apply IH. intros Hin. apply Hnin. now right.
Qed.

Lemma dict_del_found k v d :
  dict_get k d = Some v -> exists d', dict_del k d = Some d'.
Proof.
  induction d as [| [k0 v0] r IH]; simpl; [discriminate |].
  key_cases k k0; [eexists; reflexivity |].
  intros Hget. destruct (IH Hget) as [d' ->]. eexists. reflexivity.
Qed.

Lemma dict_del_other k k' d d' :
  dict_del k d = Some d' -> k' <> k -> dict_get k' d' = dict_get k' d.
Proof.
  revert d'. induction d as [| [k0 v0] r IH]; simpl; intros d' Hdel Hne;
    [discriminate |].
  key_cases k k0.
  - inversion Hdel; subst. key_cases k' k0; [contradiction | reflexivity].
  - destruct (dict_del k r) as [r' |]; [| discriminate].
    inversion Hdel; subst. simpl.
    key_cases k' k0; [reflexivity | now apply IH].
Qed.

Lemma dict_del_keys k d d' :
  dict_del k d = Some d' ->
  forall k', In k' (dict_keys d') -> In k' (dict_keys d).
Proof.
  revert d'. induction d as [| [k0 v0] r IH]; simpl; intros d' Hdel k' Hin;
    [discriminate |].
  key_cases k k0.
  - inversion Hdel; subst. now right.
  - destruct (dict_del k r) as [r' |]; [| discriminate].
    inversion Hdel; subst. simpl in Hin.
    destruct Hin as [-> | Hin]; [now left | right; now apply (IH r')].
Qed.

Lemma dict_del_gone k d d' :
  dict_wf d -> dict_del k d = Some d' -> dict_get k d' = None.
Proof.
  unfold dict_wf. revert d'.
  induction d as [| [k0 v0] r IH]; simpl; intros d' Hwf Hdel; [discriminate |].
  inversion Hwf as [| ? ? Hnin Hr]; subst.
  key_cases k k0.
  - inversion Hdel; subst. now apply dict_get_absent.
  - destruct (dict_del k r) as [r' |]; [| discriminate].
    inversion Hdel; subst. simpl.
    key_cases k k0; [contradiction | now apply IH].
Qed.

End DictDelete.

Lemma filter_not_then {A} (p : A -> bool) (l : list A) :
  filter p (filter (fun x => negb (p x)) l) = [].
Proof.
  induction l as [| x r IH]; simpl; [reflexivity |].
  destruct (p x) eqn:E; simpl; [assumption | now rewrite E].
Qed.

Lemma filter_not_other {A} (p q : A -> bool) (l : list A) :
  (forall x, q x = true -> p x = false) ->
  filter q (filter (fun x => negb (p x)) l) = filter q l.
Proof.
  intros Hpq. induction l as [| x r IH]; simpl; [reflexivity |].
  destruct (p x) eqn:E; simpl.
  - destruct (q x) eqn:Eq; [| assumption].
    apply Hpq in Eq. congruence.
  - now rewrite IH.
Qed.

Section QueryFacts.
Context {F : FloatOps}.
Variable qenv : QueryEnv.

Lemma search_keeps_state (query : string) (document_id k : Z)
      (vs : VectorStore) :
  embeddings_data (fst (search_similar_chunks (q_store_env qenv) query
                                               document_id k vs))
  = embeddings_data vs
  /\ storage_file (fst (search_similar_chunks (q_store_env qenv) query
                                              document_id k vs))
     = storage_file vs.
Proof.
  unfold search_similar_chunks.
  destruct (embeddings_create (q_store_env qenv) (events vs) [query])
    as [[| q rest] | e]; try (split; reflexivity).
  destruct (score_items q document_id _); split; reflexivity.
Qed.

Lemma persisted_processed (document_id : Z) (sys : System) :
  persisted_status document_id sys = Some "processed" <->
  exists document,
    dict_get document_id (db_documents (sys_db sys)) = Some document
    /\ (doc_status document =? "processed")%string = true.
Proof.
  unfold persisted_status.
  destruct (dict_get document_id (db_documents (sys_db sys))) as [d |]; simpl.
  - split.
    + intros E. exists d. split; [reflexivity |].
      injection E as Hs. now apply String.eqb_eq.
    + intros (d' & E & Hs). inversion E; subst d'.
      apply String.eqb_eq in Hs. now rewrite Hs.
  - split; [discriminate | intros (d' & E & _); discriminate].
Qed.

(** X25.  The document check of the query serializer and the checks of
    the view agree: [validate_document_id] accepts exactly the documents
    persisted as ['processed'], and for any other document
    [query_document] answers 404 (no such row) or 400 (not processed)
    without a search: no embedding request, nothing changed. *)
Theorem query_refused_before_search
        (document_id : Z) (question : string) (num_chunks : Z) (sys : System) :
  (is_ok (validate_document_id document_id (sys_db sys)) = true
   <-> persisted_status document_id sys = Some "processed")
  /\ (persisted_status document_id sys <> Some "processed" ->
      fst (query_document qenv document_id question num_chunks sys) = sys
      /\ api_status (snd (query_document qenv document_id question
                                         num_chunks sys))
         = match dict_get document_id (db_documents (sys_db sys)) with
           | None => 404%Z
           | Some _ => 400%Z
           end).
Proof.
  unfold validate_document_id, query_document, persisted_status.
  destruct (dict_get document_id (db_documents (sys_db sys))) as [d |]; simpl.
  - destruct (String.eqb_spec (doc_status d) "processed") as [E | E]; simpl.
    + rewrite E. split; [tauto | congruence].
    + split; [| now split]. split; [discriminate |].
      intros Hs. inversion Hs. contradiction.
  - split; [| now split]. split; discriminate.
Qed.

(** X26.  [query_document] never writes: whatever happens the record
    store, the mapping and the file are as before, and the answer is 200,
    400, 404 or 500.  It is 200 only for a document persisted as
    ['processed'] whose search returned at least one chunk, and then
    ['chunks_used'] is the number of chunks the search returned. *)
Theorem query_document_never_writes
        (document_id : Z) (question : string) (num_chunks : Z) (sys : System) :
  let sys' := fst (query_document qenv document_id question num_chunks sys) in
  let response :=
    snd (query_document qenv document_id question num_chunks sys) in
  sys_db sys' = sys_db sys
  /\ embeddings_data (sys_store sys') = embeddings_data (sys_store sys)
  /\ storage_file (sys_store sys') = storage_file (sys_store sys)
  /\ In (api_status response) [200; 400; 404; 500]%Z
  /\ (api_status response = 200%Z ->
      persisted_status document_id sys = Some "processed"
      /\ exists results,
           snd (search_similar_chunks (q_store_env qenv) question document_id
                                      num_chunks (sys_store sys))
           = Ok results
           /\ results <> []
           /\ dict_get "chunks_used" (api_body response)
              = Some (PInt (Z.of_nat (length results)))).
Proof.
  intros sys' response. subst sys' response.
  unfold query_document.
  destruct (dict_get document_id (db_documents (sys_db sys))) as [d |] eqn:Ed.
  2: { simpl. repeat split; try tauto; discriminate. }
  destruct (String.eqb_spec (doc_status d) "processed") as [Es | Es]; simpl negb;
    cbv iota.
  2: { simpl. repeat split; try tauto; discriminate. }
  destruct (search_keeps_state question document_id num_chunks (sys_store sys))
    as [Hdata Hfile].
  destruct (search_similar_chunks (q_store_env qenv) question document_id
                                  num_chunks (sys_store sys))
    as [vs [[| r rs] | e]]; simpl in *.
  - repeat split; try assumption; try tauto; discriminate.
  - repeat split; try assumption; try tauto.
    + apply persisted_processed. exists d. split; [assumption |].
      now apply String.eqb_eq.
    + exists (r :: rs). repeat split. discriminate.
  - repeat split; try assumption; try tauto; discriminate.
Qed.

(** X27.  A failure of the generation step does not fail the query: for a
    processed document whose search returned chunks, when the [try] block
    of [generate_answer] raises, [query_document] still answers 200, with
    ['success'] true, ['confidence'] 0.0, an empty ['sources'], an empty
    ['reasoning'] and the number of retrieved chunks. *)
Theorem query_answers_when_generation_fails
        (document_id : Z) (question : string) (num_chunks : Z) (sys : System)
        (vs : VectorStore) (r : SimilarChunk) (rs : list SimilarChunk)
        (e : exn) :
  persisted_status document_id sys = Some "processed" ->
  search_similar_chunks (q_store_env qenv) question document_id num_chunks
                        (sys_store sys) = (vs, Ok (r :: rs)) ->
  generate_answer_body (q_llm qenv) question (r :: rs)
                       (q_title qenv document_id) = Raise e ->
  let response :=
    snd (query_document qenv document_id question num_chunks sys) in
  api_status response = 200%Z
  /\ dict_get "success" (api_body response) = Some (PBool true)
  /\ dict_get "confidence" (api_body response) = Some (PFloat fzero)
  /\ dict_get "sources" (api_body response) = Some (PList [])
  /\ dict_get "reasoning" (api_body response) = Some (PStr "")
  /\ dict_get "chunks_used" (api_body response)
     = Some (PInt (Z.of_nat (S (length rs)))).
Proof.
  intros Hstatus Hsearch Hbody response. subst response.
  apply persisted_processed in Hstatus as (d & Hd & Hs).
  unfold query_document. rewrite Hd, Hs, Hsearch. simpl negb. cbv iota.
  unfold generate_answer. rewrite Hbody.
  repeat split.
Qed.

Lemma document_rows_filter (document_id other : Z) (rows : list DocumentChunk) :
  other <> document_id ->
  filter (fun c => (dc_document c =? other)%Z)
         (filter (fun c => negb (dc_document c =? document_id)%Z) rows)
  = filter (fun c => (dc_document c =? other)%Z) rows.
Proof.
  intros Hne. apply filter_not_other. intros c Hc.
  apply Z.eqb_eq in Hc. apply Z.eqb_neq. congruence.
Qed.

(** X28.  [delete_document], for a document that exists, over well-formed
    mappings: when the file removal and the row deletion go through, the
    answer is 200 and nothing of the document is left (no row, no chunk
    row, no embedding record) while every other document keeps its row,
    its chunk rows and its embedding records; when the file removal
    raises, the answer is 500, the embedding records are already gone, and
    the record store is untouched. *)
Theorem delete_document_outcomes
        (document_id : Z) (sys : System) (document : Document) :
  dict_wf (embeddings_data (sys_store sys)) ->
  dict_wf (db_documents (sys_db sys)) ->
  dict_get document_id (db_documents (sys_db sys)) = Some document ->
  let sys' := fst (delete_document qenv document_id sys) in
  let response := snd (delete_document qenv document_id sys) in
  (q_remove_file qenv document_id = None ->
   q_delete_row qenv document_id = None ->
   api_status response = 200%Z
   /\ persisted_status document_id sys' = None
   /\ chunk_rows_of document_id sys' = []
   /\ records_of document_id (embeddings_data (sys_store sys')) = []
   /\ forall other, other <> document_id ->
        persisted_status other sys' = persisted_status other sys
        /\ chunk_rows_of other sys' = chunk_rows_of other sys
        /\ records_of other (embeddings_data (sys_store sys'))
           = records_of other (embeddings_data (sys_store sys)))
  /\ (forall e, q_remove_file qenv document_id = Some e ->
        api_status response = 500%Z
        /\ records_of document_id (embeddings_data (sys_store sys')) = []
        /\ sys_db sys' = sys_db sys).
Proof.
  intros Hwf Hdocs Hget sys' response. subst sys' response.
  unfold delete_document. rewrite Hget.
  rewrite (delete_result (q_store_env qenv) document_id (sys_store sys) Hwf).
  destruct (dict_del_found _ _ _ Hget) as [docs' Hdel].
  split.
  - intros Hfile Hrow. rewrite Hfile, Hrow. simpl.
    unfold persisted_status, chunk_rows_of, delete_row. simpl. rewrite Hdel.
    split; [reflexivity |]. split.
    { now rewrite (dict_del_gone _ _ _ Hdocs Hdel). }
    split; [apply filter_not_then |].
    split; [apply records_of_none_left |].
    intros other Hne. split; [| split].
    + now rewrite (dict_del_other _ _ _ _ Hdel Hne).
    + now apply document_rows_filter.
    + now apply records_of_others_kept.
  - intros e Hfile. rewrite Hfile. simpl.
    split; [reflexivity |]. split; [apply records_of_none_left | reflexivity].
Qed.

End QueryFacts.

Lemma processed_system_wf :
  dict_wf (embeddings_data (sys_store processed_system)).
Proof. distinct_keys. Qed.

Lemma query_refused_before_search_witness :
  fst (query_document sample_query_env 1 "What is it?" 3 sample_system)
  = sample_system
  /\ api_status (snd (query_document sample_query_env 1 "What is it?" 3
                                     sample_system)) = 400%Z.
Proof.
  assert (Hnot : persisted_status 1 sample_system <> Some "processed")
    by (vm_compute; discriminate).
  destruct (proj2 (query_refused_before_search sample_query_env 1
                     "What is it?" 3 sample_system) Hnot) as [Hsame Hcode].
  split; [exact Hsame | exact Hcode].
Defined.

Lemma query_document_never_writes_witness :
  sys_db (fst (query_document sample_query_env 1 "What is it?" 3
                              processed_system))
  = sys_db processed_system
  /\ persisted_status 1 processed_system = Some "processed".
Proof.
  destruct (query_document_never_writes sample_query_env 1 "What is it?" 3
                                        processed_system)
    as (Hdb & _ & _ & _ & Hok).
  split; [exact Hdb |].
  assert (H200 : api_status (snd (query_document sample_query_env 1
                                    "What is it?" 3 processed_system))
                 = 200%Z) by (vm_compute; reflexivity).
  exact (proj1 (Hok H200)).
Defined.

Lemma query_answers_when_generation_fails_witness :
  api_status (snd (query_document degraded_query_env 1 "What is it?" 3
                                  processed_system)) = 200%Z
  /\ dict_get "confidence"
              (api_body (snd (query_document degraded_query_env 1
                                             "What is it?" 3
                                             processed_system)))
     = Some (PFloat (fzero (FloatOps := IntFloat))).
Proof.
  assert (Hstatus : persisted_status 1 processed_system = Some "processed")
    by (vm_compute; reflexivity).
  destruct (search_similar_chunks (q_store_env degraded_query_env)
              "What is it?" 1 3 (sys_store processed_system))
    as [vs [[| r rs] | e]] eqn:E;
    try (vm_compute in E; discriminate).
  destruct (query_answers_when_generation_fails degraded_query_env 1
              "What is it?" 3 processed_system vs r rs
              (Exception "APIConnectionError" "Connection error.")
              Hstatus E eq_refl)
    as (Hcode & _ & Hconf & _).
  split; [exact Hcode | exact Hconf].
Defined.

Lemma delete_document_outcomes_witness :
  api_status (snd (delete_document sample_query_env 1 processed_system))
  = 200%Z
  /\ chunk_rows_of 1 (fst (delete_document sample_query_env 1
                                           processed_system)) = [].
Proof.
  assert (Hdocs : dict_wf (db_documents (sys_db processed_system)))
    by (unfold dict_wf; vm_compute;
        repeat (constructor; [simpl; intuition discriminate |]); constructor).
  destruct (dict_get 1%Z (db_documents (sys_db processed_system)))
    as [document |] eqn:Hget; [| vm_compute in Hget; discriminate].
  destruct (proj1 (delete_document_outcomes sample_query_env 1
                     processed_system document processed_system_wf Hdocs Hget)
                  eq_refl eq_refl)
    as (Hcode & _ & Hrows & _).
  split; [exact Hcode | exact Hrows].
Defined.

(* ================================================================== *)
(** * More about the ingest *)
(* ================================================================== *)

Lemma NoDup_map_through {A B C} (f : A -> B) (g : A -> C) (l : list A) :
  (forall a b, f a = f b -> g a = g b) ->
  NoDup (map g l) -> NoDup (map f l).
Proof.
  intros Hfg. induction l as [| x r IH]; simpl; intros Hnd; [constructor |].
  inversion Hnd as [| ? ? Hnin Hr]; subst. constructor; [| auto].
  intros Hin. apply Hnin. apply in_map_iff in Hin as (y & Hy & Hin).
  apply in_map_iff. exists y. split; [| assumption].
  symmetry. apply Hfg. now symmetry.
Qed.

Lemma indices_NoDup (n : nat) : NoDup (indices n).
Proof.
  unfold indices.
  apply (NoDup_map_through Z.of_nat (fun i : nat => i)).
  - intros a b. apply Nat2Z.inj.
  - rewrite map_id. apply seq_NoDup.
Qed.

Lemma combine_with_image {A B} (f : A -> B) (l : list A) (a : A) (b : B) :
  In (a, b) (combine l (map f l)) -> b = f a /\ In a l.
Proof.
  induction l as [| x r IH]; simpl; [contradiction |].
  intros [E | Hin].
  - inversion E; subst. split; [reflexivity | now left].
  - destruct (IH Hin). split; [assumption | now right].
Qed.

Section IngestMore.
Context {F : FloatOps}.
Variable venv : ViewEnv.
Variable processor : DocumentProcessor.

Lemma chunk_text_keys_distinct (text : string) (document_id : Z) :
  NoDup (map key_of (chunk_text processor text document_id)).
Proof.
  apply (NoDup_map_through key_of c_chunk_index).
  { intros a b E. unfold key_of in E. now apply chunk_id_of_inj in E. }
  unfold chunk_text.
  destruct (chunk_fold_invariant processor document_id _
              (sentences_have_text (_clean_text text)) _
              (chunking_start_invariant processor document_id))
    as [(_ & Hidx & Hnext & _) _].
  unfold chunk_finish.
  set (st := fold_left (chunk_step processor document_id)
                       (_split_into_sentences (_clean_text text))
                       chunking_start) in *.
  destruct (truthy (strip (current_chunk st))).
  - rewrite map_app, Hidx. simpl. rewrite Hnext, <- indices_S.
    apply indices_NoDup.
  - rewrite Hidx. apply indices_NoDup.
Qed.

Lemma build_chunk_objects_In (document : Document) pairs objs row :
  build_chunk_objects document pairs = Ok objs ->
  In row objs ->
  exists c id,
    In (c, id) pairs
    /\ dc_chunk_index row = c_chunk_index c
    /\ dc_text row = c_text c
    /\ dc_embedding_id row = id.
Proof.
  revert objs. induction pairs as [| [c id] rest IH]; simpl; intros objs E Hin.
  - inversion E; subst. contradiction.
  - destruct (c_page_numbers c) as [pages |]; [| discriminate].
    destruct (c_token_count c) as [tokens |]; [| discriminate].
    destruct (build_chunk_objects document rest) as [rows |]; [| discriminate].
    inversion E; subst. destruct Hin as [<- | Hin].
    + exists c, id. simpl. repeat split. now left.
    + destruct (IH rows eq_refl Hin) as (c' & id' & Hp & Hrest).
      exists c', id'. split; [now right | assumption].
Qed.

(** X29.  After an upload answered 201, for a document that had no chunk
    rows before, every chunk row of the document points into the vector
    store: its [embedding_id] is a key of the mapping, and the record
    under it carries the document's id and the row's chunk index and
    text. *)
Theorem upload_links_rows_to_records
        (document document' : Document) (sys sys' : System)
        (response : Response) (row : DocumentChunk) :
  chunk_rows_of (doc_id document) sys = [] ->
  upload_document venv processor document sys = (sys', document', response) ->
  http_status response = 201%Z ->
  In row (chunk_rows_of (doc_id document) sys') ->
  exists rec,
    dict_get (dc_embedding_id row) (embeddings_data (sys_store sys'))
    = Some rec
    /\ r_document_id rec = doc_id document
    /\ r_chunk_index rec = dc_chunk_index row
    /\ r_text rec = dc_text row.
Proof.
  intros Hnorow Hup Hcode Hrow. unfold upload_document in Hup.
  destruct (_process_document venv processor document sys)
    as [[sys1 doc1] [[] | e]] eqn:Ep.
  2: { destruct (save_document venv _ (sys_db sys1)) as [db [[] | e2]];
       inversion Hup; subst; discriminate. }
  inversion Hup; subst. clear Hup Hcode.
  apply process_document_ok in Ep
    as (text & pages & data & ids & objs & _ & Hstore & Hobjs & Hrows & _).
  unfold chunk_rows_of in Hrow, Hnorow.
  rewrite Hrows, filter_app, Hnorow in Hrow. simpl in Hrow.
  apply filter_In in Hrow as [Hrow _].
  destruct (build_chunk_objects_In _ _ _ _ Hobjs Hrow)
    as (c & id & Hpair & Hidx & Htext & Hid).
  pose proof Hstore as Hids. apply store_chunks_ok in Hids as [Hids _].
  simpl in Hids. subst ids.
  apply combine_with_image in Hpair as [Hkey Hc].
  apply In_nth_error in Hc as [j Hj].
  pose proof Hstore as Hget.
  eapply store_chunks_get in Hget;
    [| apply chunk_text_keys_distinct | exact Hj].
  destruct Hget as (emb & _ & Hget).
  exists (record_of emb c). rewrite Hid, Hkey.
  split; [exact Hget |]. simpl.
  split; [| split; congruence].
  pose proof (chunk_text_document_id processor text (doc_id document)) as Hall.
  eapply Forall_forall in Hall; [exact Hall |].
  eapply nth_error_In. eassumption.
Qed.

(** X30.  An upload whose text has no sentence (it is empty, blank or
    punctuation only) fails without touching the vector store: with a
    record store that works, the answer is 500, no embedding request is
    made, no chunk row is written, and the document is persisted as
    ['error'] with the page count and the message
    [No chunks generated from document]. *)
Theorem upload_without_sentences
        (document : Document) (sys : System) (text : string) (pages : Z) :
  extract_text (doc_file document) (doc_file_type document)
  = Ok (text, pages) ->
  _split_into_sentences (_clean_text text) = [] ->
  (forall n, orm_write venv n = None) ->
  let outcome := upload_document venv processor document sys in
  http_status (snd outcome) = 500%Z
  /\ sys_store (fst (fst outcome)) = sys_store sys
  /\ db_chunks (sys_db (fst (fst outcome))) = db_chunks (sys_db sys)
  /\ dict_get (doc_id document) (db_documents (sys_db (fst (fst outcome))))
     = Some (snd (fst outcome))
  /\ doc_status (snd (fst outcome)) = "error"
  /\ doc_page_count (snd (fst outcome)) = pages
  /\ doc_error_message (snd (fst outcome))
     = Some "No chunks generated from document".
Proof.
  intros Hex Hnone Hdb outcome. subst outcome.
  assert (Hchunks : chunk_text processor text (doc_id document) = [])
    by (unfold chunk_text; rewrite Hnone; reflexivity).
  unfold upload_document, _process_document, save_document.
  rewrite Hex, Hdb.
  cbn [sys_db sys_store with_db with_store doc_id set_page_count].
  rewrite Hchunks.
  cbn [sys_db with_db db_writes]. rewrite Hdb.
  cbn. repeat split. now rewrite dict_get_set_Z.
Qed.

End IngestMore.

Lemma upload_links_rows_to_records_witness :
  Forall (fun row =>
            exists rec,
              dict_get (dc_embedding_id row)
                       (embeddings_data (sys_store processed_system))
              = Some rec
              /\ r_text rec = dc_text row)
         (chunk_rows_of 1 processed_system).
Proof.
  apply Forall_forall. intros row Hrow.
  destruct (upload_document healthy_env small_processor
                            sample_document sample_system)
    as [[sys' document'] response] eqn:E.
  assert (Hsys : processed_system = sys')
    by (unfold processed_system; now rewrite E).
  assert (Hcode : http_status response = 201%Z)
    by (vm_compute in E; inversion E; reflexivity).
  rewrite Hsys in *.
  destruct (@upload_links_rows_to_records IntFloat healthy_env small_processor
              sample_document document' sample_system sys' response row
              eq_refl E Hcode Hrow) as (rec & Hget & _ & _ & Htext).
  exists rec. split; assumption.
Defined.

Lemma upload_without_sentences_witness :
  http_status (snd (upload_document healthy_env small_processor
                                    blank_document sample_system)) = 500%Z
  /\ sys_store (fst (fst (upload_document healthy_env small_processor
                                          blank_document sample_system)))
     = sys_store sample_system.
Proof.
  assert (Hdb : forall n, orm_write healthy_env n = None) by reflexivity.
  destruct (@upload_without_sentences IntFloat healthy_env small_processor
              blank_document sample_system " ... " 1 eq_refl eq_refl Hdb)
    as (Hcode & Hstore & _).
  split; [exact Hcode | exact Hstore].
Defined.
